(** * The voice-session client (client.py): receiver, dispatcher, playback
      queue, capture callback and session start-up, with their properties. *)

From Stdlib Require Import ZArith QArith.
From stdpp Require Import base option list strings gmap.
Close Scope Q_scope.
Set Warnings "-register-all".

(** ** Values *)

(** A binary websocket message and an audio buffer are Python [bytes]. *)
Definition frame : Type := list Byte.byte.

(** What [json.loads] returns and [json.dumps] takes.  [JNull] is Python's
    [None]; a number is kept as its literal, since the program never computes
    with one; a [dict] is kept in insertion order, keys distinct. *)
Inductive json : Type :=
| JNull
| JBool (b : bool)
| JNum (literal : string)
| JStr (s : string)
| JArr (items : list json)
| JObj (fields : list (string * json)).

(** A message as the websocket delivers it: [str] or [bytes]. *)
Inductive message : Type :=
| Text (s : string)
| Binary (data : frame).

(** The exceptions the program meets; all are subclasses of [Exception]
    (cancellation, a [BaseException], is outside this development). *)
Inductive exn : Type :=
| ValueError (msg : string)
| JSONDecodeError
| KeyError (key : string)
| BadSubscript (v : json) (key : string)   (* TypeError: v[key], v not a dict *)
| Unhashable (v : json)                    (* TypeError: dict.get(v), v a list or dict *)
| NoAttribute (v : json) (attr : string)   (* AttributeError: v.attr *)
| NoModuleAttribute (owner attr : string)  (* AttributeError: owner.attr, owner a module *)
| ConnectionClosed
| TimeoutError
| Raised (cls msg : string).               (* raised inside a capability handler *)

(** What calling a capability handler gives. *)
Inductive outcome : Type :=
| Returned (v : json)
| Failed (e : exn).

(** Modelled from the spec: [common.agent_functions] is not part of the
    sources.  A capability handler is an opaque function of the parsed
    parameters that returns a plain result value or raises; a transport-aware
    handler is handed the websocket as well and returns a dict of messages,
    it sends nothing itself. *)
Definition handler : Type := json -> outcome.

(** What [future.result(timeout=1)] gives in the capture callback. *)
Inductive handoff : Type :=
| HandoffDone                 (* the event loop ran the put within the second *)
| HandoffTimeout              (* it did not: concurrent.futures.TimeoutError *)
| HandoffFailed (e : exn).    (* scheduling or the put raised, or was cancelled *)

(** ** The surroundings of the program

    Library functions, the clock, the environment variables, the peer and the
    hardware, as the program observes them. *)
Record Env : Type := {
  json_loads : string -> option json;      (* None: json.JSONDecodeError *)
  json_dumps : json -> string;
  py_repr : json -> string;                (* str() of a value that is no str *)
  py_eq : json -> json -> bool;            (* == between values that are no str *)
  lib_text : exn -> string;                (* str(e), text chosen by a library *)
  FUNCTION_MAP : gmap string handler;
  FUNCTION_DEFINITIONS : json;
  time_time : nat -> Z;                    (* the n-th reading of the clock *)
  send_ok : nat -> bool;                   (* does the n-th ws.send go through *)
  close_times_out : bool;                  (* ws.close() exceeds the 5 s bound *)
  DEEPGRAM_API_KEY : option string;
  connect_exn : option exn;                (* what websockets.connect raises *)
  audio_out_exn : option exn;              (* what opening the output stream raises *)
  microphone_exn : option exn              (* what start_microphone raises *)
}.

(** ** Constants of the module *)

Definition VOICE_AGENT_URL : string := "wss://agent.deepgram.com/agent".

Definition PROMPT_TEMPLATE : string := "
You are an English teacher specializing in helping students improve their speaking, listening, vocabulary, grammar, and pronunciation skills. Your teaching style is engaging, interactive, and encouraging.  

You should:  
- Start by assessing the student’s English level with a few simple questions.  
- Speak clearly and naturally, adjusting your speed and vocabulary based on the student's level.  
- Correct mistakes gently and provide explanations with examples.  
- Encourage students to practice by asking open-ended questions and engaging in role-play scenarios.  
- Adapt lessons to the student’s goals (e.g., daily conversation, business English, exam preparation).  
- Use simple definitions and synonyms when explaining new words.  
- Give small, actionable feedback after each response to guide improvement.  
".

Definition VOICE : string := "aura-asteria-en".

Definition USER_AUDIO_SAMPLE_RATE : Z := 48000.
Definition AGENT_AUDIO_SAMPLE_RATE : Z := 16000.
Definition AGENT_AUDIO_BYTES_PER_SEC : Z := 2 * AGENT_AUDIO_SAMPLE_RATE.

(** [round(48000 * 0.05)]: the number of samples in a 50 ms chunk. *)
Definition USER_AUDIO_SAMPLES_PER_CHUNK : Z := USER_AUDIO_SAMPLE_RATE * 5 / 100.

Definition SETTINGS (E : Env) : json :=
  JObj [
    ("type", JStr "SettingsConfiguration");
    ("audio", JObj [
       ("input", JObj [("encoding", JStr "linear16");
                       ("sample_rate", JNum "48000")]);
       ("output", JObj [("encoding", JStr "linear16");
                        ("sample_rate", JNum "16000");
                        ("container", JStr "none")])]);
    ("agent", JObj [
       ("listen", JObj [("model", JStr "nova-2")]);
       ("think", JObj [("provider", JObj [("type", JStr "open_ai")]);
                       ("model", JStr "gpt-4o-mini");
                       ("instructions", JStr PROMPT_TEMPLATE);
                       ("functions", FUNCTION_DEFINITIONS E)]);
       ("speak", JObj [("model", JStr VOICE)])]);
    ("context", JObj [
       ("messages", JArr [JObj [
          ("role", JStr "assistant");
          ("content", JStr "Hello! I'm Sarah from TechStyle customer service. How can I help you today?")]]);
       ("replay", JBool true)])].

(** ** Python operations on values *)

Fixpoint assoc (k : string) (fields : list (string * json)) : option json :=
  match fields with
  | [] => None
  | (k', v) :: rest => if String.eqb k k' then Some v else assoc k rest
  end.

(** [d.get(k, dflt)] on a dict. *)
Definition dict_get (fields : list (string * json)) (k : string) (dflt : json) : json :=
  default dflt (assoc k fields).

(** [d[k] = v] on a dict. *)
Fixpoint dict_set (k : string) (v : json) (fields : list (string * json))
  : list (string * json) :=
  match fields with
  | [] => [(k, v)]
  | (k', v') :: rest =>
      if String.eqb k k' then (k', v) :: rest else (k', v') :: dict_set k v rest
  end.

(** [v == "lit"] for a string literal: only a [str] equals a [str]. *)
Definition is_str (v : json) (lit : string) : bool :=
  match v with
  | JStr s => String.eqb s lit
  | _ => false
  end.

(** [a == b] between two values. *)
Definition py_equal (E : Env) (a b : json) : bool :=
  match a, b with
  | JStr s, JStr t => String.eqb s t
  | JStr _, _ | _, JStr _ => false
  | _, _ => py_eq E a b
  end.

(** [str(v)], as an f-string formats a value. *)
Definition py_str (E : Env) (v : json) : string :=
  match v with
  | JStr s => s
  | JNull => "None"
  | JBool true => "True"
  | JBool false => "False"
  | _ => py_repr E v
  end.

(** [str(e)]. *)
Definition str_exn (E : Env) (e : exn) : string :=
  match e with
  | ValueError msg => msg
  | Raised _ msg => msg
  | KeyError key => "'" +:+ key +:+ "'"
  | _ => lib_text E e
  end.

(** Truth value of a variable holding [None] or a clock reading (a float):
    [None] and [0.0] are false. *)
Definition timestamp_exists (t : option Z) : bool :=
  match t with
  | Some t => negb (Z.eqb t 0)
  | None => false
  end.

(** ** The state *)

(** The [Speaker] object; every field is [None] outside the [with] block.
    [_stop] holds whether the event is set. *)
Record Speaker : Type := {
  _queue : option (list frame);
  _stream : option unit;
  _thread : option unit;
  _stop : option bool
}.

(** What the program does to the outside, in order. *)
Inductive event : Type :=
| WsConnect (url authorization : string)
| WsSend (payload : json)                 (* ws.send(json.dumps(payload)) went through *)
| WsRecv (m : message)                    (* a message was taken from the websocket *)
| WsClose (timeout : option Q)
| Play (data : frame)                     (* a frame was put on the playback queue *)
| Emit (name : string) (payload : json)   (* socketio.emit *)
| Sleep (seconds : Q)
| MicrophoneStarted
| SenderStarted
| ReceiverStarted
| Cleanup.

(** The records handed to the logger. *)
Inductive log_record : Type :=
| LogServer (text : string)
| LogChainLatency (latency : Z)
| LogInitialLatency (latency : Z)
| LogFunctionCall (function_name : json)
| LogParameters (parameters : json)
| LogExecutionLatency (latency : Z)
| LogResponseSent (output : string)
| LogInject (text : string)
| LogSession (session_id : json)
| LogClosing
| LogSendingClose
| LogNoApiKey
| LogError (place : string) (e : exn).

Record world : Type := {
  (* the transport *)
  inbound : list message;      (* what the peer will deliver; exhausted: closed *)
  ws_closed : bool;
  n_send : nat;                (* ws.send calls made so far *)
  (* the clock *)
  n_clock : nat;               (* time.time() calls made so far *)
  (* the VoiceAgent *)
  is_running : bool;
  loop : option bool;          (* the event loop, with whether it is closed *)
  mic_audio_queue : list frame;
  scheduled : list frame;      (* puts handed to the event loop and not yet run *)
  speaker : Speaker;
  (* the playback thread and the output stream *)
  sched : list nat;            (* iterations of _play before each queue operation *)
  sink : list frame;           (* frames written to the output stream *)
  (* the local variables of receiver *)
  last_user_message : option Z;
  last_function_response_time : option Z;
  in_function_chain : bool;
  (* what can be observed *)
  trace : list event;
  logs : list log_record
}.

Definition set_inbound (v : list message) (w : world) : world :=
  {| inbound := v; ws_closed := ws_closed w; n_send := n_send w; n_clock := n_clock w;
     is_running := is_running w; loop := loop w; mic_audio_queue := mic_audio_queue w;
     scheduled := scheduled w; speaker := speaker w; sched := sched w; sink := sink w;
     last_user_message := last_user_message w;
     last_function_response_time := last_function_response_time w;
     in_function_chain := in_function_chain w; trace := trace w; logs := logs w |}.

Definition set_ws_closed (v : bool) (w : world) : world :=
  {| inbound := inbound w; ws_closed := v; n_send := n_send w; n_clock := n_clock w;
     is_running := is_running w; loop := loop w; mic_audio_queue := mic_audio_queue w;
     scheduled := scheduled w; speaker := speaker w; sched := sched w; sink := sink w;
     last_user_message := last_user_message w;
     last_function_response_time := last_function_response_time w;
     in_function_chain := in_function_chain w; trace := trace w; logs := logs w |}.

Definition set_n_send (v : nat) (w : world) : world :=
  {| inbound := inbound w; ws_closed := ws_closed w; n_send := v; n_clock := n_clock w;
     is_running := is_running w; loop := loop w; mic_audio_queue := mic_audio_queue w;
     scheduled := scheduled w; speaker := speaker w; sched := sched w; sink := sink w;
     last_user_message := last_user_message w;
     last_function_response_time := last_function_response_time w;
     in_function_chain := in_function_chain w; trace := trace w; logs := logs w |}.

Definition set_n_clock (v : nat) (w : world) : world :=
  {| inbound := inbound w; ws_closed := ws_closed w; n_send := n_send w; n_clock := v;
     is_running := is_running w; loop := loop w; mic_audio_queue := mic_audio_queue w;
     scheduled := scheduled w; speaker := speaker w; sched := sched w; sink := sink w;
     last_user_message := last_user_message w;
     last_function_response_time := last_function_response_time w;
     in_function_chain := in_function_chain w; trace := trace w; logs := logs w |}.

Definition set_is_running (v : bool) (w : world) : world :=
  {| inbound := inbound w; ws_closed := ws_closed w; n_send := n_send w;
     n_clock := n_clock w; is_running := v; loop := loop w;
     mic_audio_queue := mic_audio_queue w; scheduled := scheduled w;
     speaker := speaker w; sched := sched w; sink := sink w;
     last_user_message := last_user_message w;
     last_function_response_time := last_function_response_time w;
     in_function_chain := in_function_chain w; trace := trace w; logs := logs w |}.

Definition set_loop (v : option bool) (w : world) : world :=
  {| inbound := inbound w; ws_closed := ws_closed w; n_send := n_send w;
     n_clock := n_clock w; is_running := is_running w; loop := v;
     mic_audio_queue := mic_audio_queue w; scheduled := scheduled w;
     speaker := speaker w; sched := sched w; sink := sink w;
     last_user_message := last_user_message w;
     last_function_response_time := last_function_response_time w;
     in_function_chain := in_function_chain w; trace := trace w; logs := logs w |}.

Definition set_mic_audio_queue (v : list frame) (w : world) : world :=
  {| inbound := inbound w; ws_closed := ws_closed w; n_send := n_send w;
     n_clock := n_clock w; is_running := is_running w; loop := loop w;
     mic_audio_queue := v; scheduled := scheduled w; speaker := speaker w;
     sched := sched w; sink := sink w; last_user_message := last_user_message w;
     last_function_response_time := last_function_response_time w;
     in_function_chain := in_function_chain w; trace := trace w; logs := logs w |}.

Definition set_scheduled (v : list frame) (w : world) : world :=
  {| inbound := inbound w; ws_closed := ws_closed w; n_send := n_send w;
     n_clock := n_clock w; is_running := is_running w; loop := loop w;
     mic_audio_queue := mic_audio_queue w; scheduled := v; speaker := speaker w;
     sched := sched w; sink := sink w; last_user_message := last_user_message w;
     last_function_response_time := last_function_response_time w;
     in_function_chain := in_function_chain w; trace := trace w; logs := logs w |}.

Definition set_speaker (v : Speaker) (w : world) : world :=
  {| inbound := inbound w; ws_closed := ws_closed w; n_send := n_send w;
     n_clock := n_clock w; is_running := is_running w; loop := loop w;
     mic_audio_queue := mic_audio_queue w; scheduled := scheduled w; speaker := v;
     sched := sched w; sink := sink w; last_user_message := last_user_message w;
     last_function_response_time := last_function_response_time w;
     in_function_chain := in_function_chain w; trace := trace w; logs := logs w |}.

Definition set_sched (v : list nat) (w : world) : world :=
  {| inbound := inbound w; ws_closed := ws_closed w; n_send := n_send w;
     n_clock := n_clock w; is_running := is_running w; loop := loop w;
     mic_audio_queue := mic_audio_queue w; scheduled := scheduled w;
     speaker := speaker w; sched := v; sink := sink w;
     last_user_message := last_user_message w;
     last_function_response_time := last_function_response_time w;
     in_function_chain := in_function_chain w; trace := trace w; logs := logs w |}.

Definition set_sink (v : list frame) (w : world) : world :=
  {| inbound := inbound w; ws_closed := ws_closed w; n_send := n_send w;
     n_clock := n_clock w; is_running := is_running w; loop := loop w;
     mic_audio_queue := mic_audio_queue w; scheduled := scheduled w;
     speaker := speaker w; sched := sched w; sink := v;
     last_user_message := last_user_message w;
     last_function_response_time := last_function_response_time w;
     in_function_chain := in_function_chain w; trace := trace w; logs := logs w |}.

Definition set_last_user_message (v : option Z) (w : world) : world :=
  {| inbound := inbound w; ws_closed := ws_closed w; n_send := n_send w;
     n_clock := n_clock w; is_running := is_running w; loop := loop w;
     mic_audio_queue := mic_audio_queue w; scheduled := scheduled w;
     speaker := speaker w; sched := sched w; sink := sink w; last_user_message := v;
     last_function_response_time := last_function_response_time w;
     in_function_chain := in_function_chain w; trace := trace w; logs := logs w |}.

Definition set_last_function_response_time (v : option Z) (w : world) : world :=
  {| inbound := inbound w; ws_closed := ws_closed w; n_send := n_send w;
     n_clock := n_clock w; is_running := is_running w; loop := loop w;
     mic_audio_queue := mic_audio_queue w; scheduled := scheduled w;
     speaker := speaker w; sched := sched w; sink := sink w;
     last_user_message := last_user_message w; last_function_response_time := v;
     in_function_chain := in_function_chain w; trace := trace w; logs := logs w |}.

Definition set_in_function_chain (v : bool) (w : world) : world :=
  {| inbound := inbound w; ws_closed := ws_closed w; n_send := n_send w;
     n_clock := n_clock w; is_running := is_running w; loop := loop w;
     mic_audio_queue := mic_audio_queue w; scheduled := scheduled w;
     speaker := speaker w; sched := sched w; sink := sink w;
     last_user_message := last_user_message w;
     last_function_response_time := last_function_response_time w;
     in_function_chain := v; trace := trace w; logs := logs w |}.

Definition set_trace (v : list event) (w : world) : world :=
  {| inbound := inbound w; ws_closed := ws_closed w; n_send := n_send w;
     n_clock := n_clock w; is_running := is_running w; loop := loop w;
     mic_audio_queue := mic_audio_queue w; scheduled := scheduled w;
     speaker := speaker w; sched := sched w; sink := sink w;
     last_user_message := last_user_message w;
     last_function_response_time := last_function_response_time w;
     in_function_chain := in_function_chain w; trace := v; logs := logs w |}.

Definition set_logs (v : list log_record) (w : world) : world :=
  {| inbound := inbound w; ws_closed := ws_closed w; n_send := n_send w;
     n_clock := n_clock w; is_running := is_running w; loop := loop w;
     mic_audio_queue := mic_audio_queue w; scheduled := scheduled w;
     speaker := speaker w; sched := sched w; sink := sink w;
     last_user_message := last_user_message w;
     last_function_response_time := last_function_response_time w;
     in_function_chain := in_function_chain w; trace := trace w; logs := v |}.

Definition set_queue (q : option (list frame)) (w : world) : world :=
  set_speaker {| _queue := q; _stream := _stream (speaker w);
                 _thread := _thread (speaker w); _stop := _stop (speaker w) |} w.

(** ** Computations: state, exceptions, and loops that may run out of fuel *)

Inductive result (A : Type) : Type :=
| Ok (a : A)
| Raise (e : exn)
| Diverge.       (* no return: a loop out of rounds, a coroutine never woken *)
Arguments Ok {A} a.
Arguments Raise {A} e.
Arguments Diverge {A}.

Definition M (A : Type) : Type := world -> result A * world.

Definition ret {A} (a : A) : M A := fun w => (Ok a, w).

Definition bind {A B} (m : M A) (k : A -> M B) : M B :=
  fun w =>
    match m w with
    | (Ok a, w') => k a w'
    | (Raise e, w') => (Raise e, w')
    | (Diverge, w') => (Diverge, w')
    end.

Definition raise {A} (e : exn) : M A := fun w => (Raise e, w).

Definition diverge {A} : M A := fun w => (Diverge, w).

(** [try: body / except Exception as e: handle e]. *)
Definition try_except {A} (body : M A) (handle : exn -> M A) : M A :=
  fun w =>
    match body w with
    | (Raise e, w') => handle e w'
    | r => r
    end.

(** [try: body / except json.JSONDecodeError: handle]. *)
Definition try_decode {A} (body : M A) (handle : M A) : M A :=
  fun w =>
    match body w with
    | (Raise JSONDecodeError, w') => handle w'
    | r => r
    end.

(** [try: body / finally: final]. *)
Definition try_finally {A} (body : M A) (final : M unit) : M A :=
  fun w =>
    match body w with
    | (Diverge, w') => (Diverge, w')
    | (r, w') =>
        match final w' with
        | (Ok _, w'') => (r, w'')
        | (Raise e, w'') => (Raise e, w'')
        | (Diverge, w'') => (Diverge, w'')
        end
    end.

Declare Scope py_scope.
Delimit Scope py_scope with py.
Notation "'let*' x ':=' m 'in' k" := (bind m (fun x => k))
  (at level 10, x name, m at level 100, k at level 200) : py_scope.
Notation "m '>>' k" := (bind m (fun _ => k))
  (at level 90, right associativity) : py_scope.
Open Scope py_scope.

Definition update (f : world -> world) : M unit := fun w => (Ok tt, f w).

Definition log (r : log_record) : M unit :=
  update (fun w => set_logs (logs w ++ [r]) w).

Definition emit (e : event) : M unit :=
  update (fun w => set_trace (trace w ++ [e]) w).

(** ** The transport, the clock and the playback queue *)

Section Program.
Context (E : Env).

(** [time.time()]. *)
Definition now : M Z :=
  fun w => (Ok (time_time E (n_clock w)), set_n_clock (S (n_clock w)) w).

(** [await ws.send(json.dumps(payload))]: raises on a closed connection. *)
Definition ws_send (payload : json) : M unit :=
  fun w =>
    let w1 := set_n_send (S (n_send w)) w in
    if ws_closed w || negb (send_ok E (n_send w))
    then (Raise ConnectionClosed, w1)
    else (Ok tt, set_trace (trace w1 ++ [WsSend payload]) w1).

(** [await ws.recv()]: raises once the connection is closed. *)
Definition ws_recv : M message :=
  fun w =>
    match inbound w with
    | [] => (Raise ConnectionClosed, set_ws_closed true w)
    | m :: rest => (Ok m, set_trace (trace w ++ [WsRecv m]) (set_inbound rest w))
    end.

(** One step of [async for message in ws]: the iteration ends when the
    connection is closed. *)
Definition ws_next : M (option message) :=
  fun w =>
    match inbound w with
    | [] => (Ok None, set_ws_closed true w)
    | m :: rest => (Ok (Some m), set_trace (trace w ++ [WsRecv m]) (set_inbound rest w))
    end.

(** [await ws.close()]. *)
Definition ws_close (timeout : option Q) : M unit :=
  fun w => (Ok tt, set_ws_closed true (set_trace (trace w ++ [WsClose timeout]) w)).

(** One iteration of the loop of [_play], the playback thread: leave when the
    stop event is set, else pop a frame and write it to the stream, or find
    the queue empty after 50 ms and go round. *)
Definition _play_iter (w : world) : world :=
  match _stop (speaker w), _queue (speaker w) with
  | Some false, Some (data :: q) => set_sink (sink w ++ [data]) (set_queue (Some q) w)
  | _, _ => w
  end.

(** What the playback thread gets done before the next queue operation of the
    event-loop thread. *)
Definition thread_turn (w : world) : world :=
  match sched w with
  | [] => w
  | k :: rest => Nat.iter k _play_iter (set_sched rest w)
  end.

(** [Speaker()]. *)
Definition Speaker_init : Speaker :=
  {| _queue := None; _stream := None; _thread := None; _stop := None |}.

(** [Speaker.__enter__]. *)
Definition Speaker_enter : M unit :=
  fun w =>
    match audio_out_exn E with
    | Some e => (Raise e, w)
    | None =>
        (Ok tt, set_speaker {| _queue := Some []; _stream := Some tt;
                               _thread := Some tt; _stop := Some false |} w)
    end.

(** [Speaker.__exit__]: set the stop event, join the thread, close the stream. *)
Definition Speaker_exit : M unit :=
  fun w => (Ok tt, set_speaker Speaker_init w).

(** [Speaker.play]. *)
Definition Speaker_play (data : frame) : M unit :=
  fun w =>
    let w1 := thread_turn w in
    match _queue (speaker w1) with
    | None => (Raise (NoAttribute JNull "async_q"), w1)
    | Some q => (Ok tt, set_trace (trace w1 ++ [Play data]) (set_queue (Some (q ++ [data])) w1))
    end.

(** The loop of [Speaker.stop].  When the playback thread takes the last
    frame between [empty()] and [get_nowait()], [get_nowait] raises the
    queue's exception for an empty queue; the [except] clause then looks up
    [janus.QueueEmpty], a name the [janus] module does not have, and the
    lookup raises [AttributeError] in place of the [break]. *)
Fixpoint drain (fuel : nat) : M unit :=
  fun w =>
    match fuel with
    | 0 => (Diverge, w)
    | S fuel' =>
        let w1 := thread_turn w in               (* async_q.empty() *)
        match _queue (speaker w1) with
        | Some (_ :: _) =>
            let w2 := thread_turn w1 in          (* async_q.get_nowait() *)
            match _queue (speaker w2) with
            | Some (_ :: q) => drain fuel' (set_queue (Some q) w2)
            | _ => (Raise (NoModuleAttribute "janus" "QueueEmpty"), w2)
            end
        | _ => (Ok tt, w1)
        end
    end.

(** [Speaker.stop]. *)
Definition Speaker_stop : M unit :=
  fun w =>
    match _queue (speaker w) with
    | Some q => drain (S (length q)) w
    | None => (Ok tt, w)
    end.

(** ** Helpers of the module *)

Definition get : M world := fun w => (Ok w, w).

(** [json.loads(text)]. *)
Definition loads (text : string) : M json :=
  match json_loads E text with
  | Some v => ret v
  | None => raise JSONDecodeError
  end.

(** [v.get(key, dflt)]: only a dict has the method. *)
Definition py_get (v : json) (key : string) (dflt : json) : M json :=
  match v with
  | JObj fields => ret (dict_get fields key dflt)
  | _ => raise (NoAttribute v "get")
  end.

(** [v[key]]. *)
Definition subscript (v : json) (key : string) : M json :=
  match v with
  | JObj fields =>
      match assoc key fields with
      | Some x => ret x
      | None => raise (KeyError key)
      end
  | _ => raise (BadSubscript v key)
  end.

(** [inject_agent_message]. *)
Definition inject_agent_message (inject_message : json) : M unit :=
  log (LogInject (json_dumps E inject_message)) >>
  ws_send inject_message.

(** [close_websocket_with_timeout], with its default [timeout=5]. *)
Definition close_websocket_with_timeout : M unit :=
  try_except
    (emit (WsClose (Some (5 # 1)%Q)) >>
     if close_times_out E then raise TimeoutError
     else update (set_ws_closed true))
    (fun e => log (LogError "Error during websocket closure" e)).

(** The [try] block of the first loop of [wait_for_farewell_completion]:
    does this text start the farewell? *)
Definition speaking_started_by (inject_message : json) (text : string) : M bool :=
  try_decode
    (let* message_json := loads text in
     log (LogServer text) >>
     let* type1 := py_get message_json "type" JNull in
     if is_str type1 "AgentStartedSpeaking" then ret true
     else
       let* type2 := py_get message_json "type" JNull in
       if is_str type2 "ConversationText" then
         let* role := py_get message_json "role" JNull in
         if is_str role "assistant" then
           let* content := py_get message_json "content" JNull in
           let* farewell := subscript inject_message "message" in
           ret (py_equal E content farewell)
         else ret false
       else ret false)
    (ret false).

(** The [try] block of the second loop. *)
Definition audio_done_by (text : string) : M bool :=
  try_decode
    (let* message_json := loads text in
     log (LogServer text) >>
     let* type1 := py_get message_json "type" JNull in
     ret (is_str type1 "AgentAudioDone"))
    (ret false).

(** [while not speaking_started: ...]. *)
Fixpoint wait_speaking_started (fuel : nat) (inject_message : json) : M unit :=
  match fuel with
  | 0 => diverge
  | S fuel' =>
      let* message := ws_recv in
      match message with
      | Binary data =>
          Speaker_play data >> wait_speaking_started fuel' inject_message
      | Text text =>
          let* speaking_started := speaking_started_by inject_message text in
          if speaking_started then ret tt
          else wait_speaking_started fuel' inject_message
      end
  end.

(** [while not audio_done: ...]. *)
Fixpoint wait_audio_done (fuel : nat) : M unit :=
  match fuel with
  | 0 => diverge
  | S fuel' =>
      let* message := ws_recv in
      match message with
      | Binary data => Speaker_play data >> wait_audio_done fuel'
      | Text text =>
          let* audio_done := audio_done_by text in
          if audio_done then ret tt else wait_audio_done fuel'
      end
  end.

(** [wait_for_farewell_completion].  Each loop reads one message per round,
    so the messages still to come bound its rounds. *)
Definition wait_for_farewell_completion (inject_message : json) : M unit :=
  inject_agent_message inject_message >>
  (let* w := get in wait_speaking_started (S (length (inbound w))) inject_message) >>
  (let* w := get in wait_audio_done (S (length (inbound w)))) >>
  emit (Sleep (7 # 2)%Q).

(** ** The receiver *)

(** How the body of the receiving loop ends: next message, or [break]. *)
Inductive control : Type := Next | Brk.

Definition FunctionCallResponse (function_call_id : json) (output : string) : json :=
  JObj [("type", JStr "FunctionCallResponse");
        ("function_call_id", function_call_id);
        ("output", JStr output)].

(** [FUNCTION_MAP.get(function_name)]; the registry is keyed by names. *)
Definition FUNCTION_MAP_get (function_name : json) : M (option handler) :=
  match function_name with
  | JStr name => ret (FUNCTION_MAP E !! name)
  | JArr _ | JObj _ => raise (Unhashable function_name)
  | _ => ret None
  end.

(** [await func(...)]. *)
Definition call (func : handler) (parameters : json) : M json :=
  match func parameters with
  | Returned v => ret v
  | Failed e => raise e
  end.

(** The branch [message_type == "FunctionCallRequest"]. *)
Definition function_call_request (fields : list (string * json)) : M control :=
  let function_name := dict_get fields "function_name" JNull in
  let function_call_id := dict_get fields "function_call_id" JNull in
  let parameters := dict_get fields "input" (JObj []) in
  log (LogFunctionCall function_name) >>
  log (LogParameters parameters) >>
  let* start_time := now in
  (* lines 332-349: what follows the call of an ordinary handler *)
  let send_back (result : json) : M control :=
    let* finished := now in
    log (LogExecutionLatency (finished - start_time)) >>
    ws_send (FunctionCallResponse function_call_id (json_dumps E result)) >>
    log (LogResponseSent (json_dumps E result)) >>
    let* sent := now in
    update (set_last_function_response_time (Some sent)) >>
    ret Next in
  try_except
    (let* func := FUNCTION_MAP_get function_name in
     match func with
     | None =>
         raise (ValueError ("Function " +:+ py_str E function_name +:+ " not found"))
     | Some func =>
         if is_str function_name "agent_filler" || is_str function_name "end_call" then
           let* result := call func parameters in
           if is_str function_name "agent_filler" then
             let* inject_message := subscript result "inject_message" in
             let* function_response := subscript result "function_response" in
             ws_send (FunctionCallResponse function_call_id
                        (json_dumps E function_response)) >>
             log (LogResponseSent (json_dumps E function_response)) >>
             let* sent := now in
             update (set_last_function_response_time (Some sent)) >>
             inject_agent_message inject_message >>
             ret Next                                          (* continue *)
           else if is_str function_name "end_call" then
             let* inject_message := subscript result "inject_message" in
             let* function_response := subscript result "function_response" in
             let* close_message := subscript result "close_message" in
             ws_send (FunctionCallResponse function_call_id
                        (json_dumps E function_response)) >>
             log (LogResponseSent (json_dumps E function_response)) >>
             let* sent := now in
             update (set_last_function_response_time (Some sent)) >>
             wait_for_farewell_completion inject_message >>
             log LogSendingClose >>
             close_websocket_with_timeout >>
             update (set_is_running false) >>
             ret Brk                                           (* break *)
           else send_back result
         else
           let* result := call func parameters in
           send_back result
     end)
    (fun e =>
       log (LogError "Error executing function" e) >>
       ws_send (FunctionCallResponse function_call_id
                  (json_dumps E (JObj [("error", JStr (str_exn E e))]))) >>
       ret Next).

(** [now - t] for a variable [t] that holds a reading. *)
Definition since (t : option Z) (current_time : Z) : Z :=
  (current_time - default 0 t)%Z.

(** The body of the loop of [receiver], for one message. *)
Definition handle_message (message : message) : M control :=
  match message with
  | Text text =>
      log (LogServer text) >>
      let* message_json := loads text in
      let* message_type := py_get message_json "type" JNull in
      let* current_time := now in
      match message_json with
      | JObj fields =>
          if is_str message_type "UserStartedSpeaking" then
            Speaker_stop >> ret Next
          else if is_str message_type "ConversationText" then
            emit (Emit "conversation_update" message_json) >>
            if is_str (dict_get fields "role" JNull) "user" then
              update (set_last_user_message (Some current_time)) >>
              update (set_in_function_chain false) >>
              ret Next
            else if is_str (dict_get fields "role" JNull) "assistant" then
              update (set_in_function_chain false) >> ret Next
            else ret Next
          else if is_str message_type "FunctionCalling" then
            let* w := get in
            if in_function_chain w
               && timestamp_exists (last_function_response_time w) then
              log (LogChainLatency
                     (since (last_function_response_time w) current_time)) >>
              ret Next
            else if timestamp_exists (last_user_message w) then
              log (LogInitialLatency (since (last_user_message w) current_time)) >>
              update (set_in_function_chain true) >>
              ret Next
            else ret Next
          else if is_str message_type "FunctionCallRequest" then
            function_call_request fields
          else if is_str message_type "Welcome" then
            log (LogSession (dict_get fields "session_id" JNull)) >> ret Next
          else if is_str message_type "CloseConnection" then
            log LogClosing >> ws_close None >> ret Brk
          else ret Next
      | _ => raise (NoAttribute message_json "get")
      end
  | Binary data => Speaker_play data >> ret Next
  end.

(** [async for message in self.ws: ...]. *)
Fixpoint receiver_loop (fuel : nat) : M unit :=
  match fuel with
  | 0 => diverge
  | S fuel' =>
      let* next := ws_next in
      match next with
      | None => ret tt
      | Some message =>
          let* c := handle_message message in
          match c with
          | Next => receiver_loop fuel'
          | Brk => ret tt
          end
      end
  end.

(** [with self.speaker: body]. *)
Definition with_speaker {A} (body : M A) : M A :=
  Speaker_enter >> try_finally body Speaker_exit.

(** [VoiceAgent.receiver].  Each round of the loop reads a message, so the
    messages still to come bound its rounds. *)
Definition receiver : M unit :=
  try_except
    (update (set_speaker Speaker_init) >>
     update (set_last_user_message None) >>
     update (set_last_function_response_time None) >>
     update (set_in_function_chain false) >>
     with_speaker (let* w := get in receiver_loop (S (length (inbound w)))))
    (fun e => log (LogError "Error in receiver" e)).

(** ** Start-up *)

(** [settings["agent"]["think"]["instructions"] = prompt]. *)
Definition with_instructions (prompt : string) (settings : json) : json :=
  match settings with
  | JObj top =>
      match assoc "agent" top with
      | Some (JObj agent) =>
          match assoc "think" agent with
          | Some (JObj think) =>
              JObj (dict_set "agent"
                      (JObj (dict_set "think"
                               (JObj (dict_set "instructions" (JStr prompt) think))
                               agent))
                      top)
          | _ => settings
          end
      | _ => settings
      end
  | _ => settings
  end.

(** [websockets.connect(VOICE_AGENT_URL, extra_headers=...)]. *)
Definition ws_connect (authorization : string) : M unit :=
  match connect_exn E with
  | Some e => raise e
  | None => emit (WsConnect VOICE_AGENT_URL authorization)
  end.

(** [VoiceAgent.setup].  The template has no replacement field, so
    [PROMPT_TEMPLATE.format(...)] is the template itself. *)
Definition setup : M bool :=
  match DEEPGRAM_API_KEY E with
  | None => log LogNoApiKey >> ret false
  | Some dg_api_key =>
      let formatted_prompt := PROMPT_TEMPLATE in
      let settings := with_instructions formatted_prompt (SETTINGS E) in
      try_except
        (ws_connect ("Token " +:+ dg_api_key) >>
         ws_send settings >>
         ret true)
        (fun e => log (LogError "Failed to connect to Deepgram" e) >> ret false)
  end.

(** [VoiceAgent.start_microphone], by its outcome: the stream is started, or
    the error is logged and raised again. *)
Definition start_microphone : M unit :=
  match microphone_exn E with
  | Some e => log (LogError "Error starting microphone" e) >> raise e
  | None => emit MicrophoneStarted
  end.

(** ** The capture callback *)

Definition paContinue : Z := 0.

(** [self.loop and not self.loop.is_closed()]. *)
Definition loop_usable (l : option bool) : bool :=
  match l with
  | Some closed => negb closed
  | None => false
  end.

(** Lines 138-141: hand the put to the event loop and wait at most a second
    for it.  A put that was not run in time stays with the loop, since
    [future.result] gives up waiting without cancelling it; the loop runs what
    it was handed in order. *)
Definition hand_over (input_data : frame) (h : handoff) : M unit :=
  match h with
  | HandoffDone =>
      update (fun w => set_scheduled []
                (set_mic_audio_queue
                   (mic_audio_queue w ++ scheduled w ++ [input_data]) w))
  | HandoffTimeout =>
      update (fun w => set_scheduled (scheduled w ++ [input_data]) w) >>
      raise TimeoutError
  | HandoffFailed e => raise e
  end.

(** [VoiceAgent.audio_callback]; [h] is what the hand-over of this call meets. *)
Definition audio_callback (input_data : frame) (frame_count : Z)
    (time_info : json) (status_flag : Z) (h : handoff) : M (frame * Z) :=
  (let* w := get in
   if is_running w && loop_usable (loop w) then
     try_except
       (hand_over input_data h)
       (fun e => log (LogError "Error in audio callback" e))
   else ret tt) >>
  ret (input_data, paContinue).

(** The event loop gets to run the puts it was handed. *)
Definition loop_turn (w : world) : world :=
  set_scheduled [] (set_mic_audio_queue (mic_audio_queue w ++ scheduled w) w).

End Program.

(** ** The sender *)

(** How a run of the sender stands: suspended in [mic_audio_queue.get()] on
    the empty queue, or returned. *)
Inductive sender_end : Type := SenderWaiting | SenderReturned.

Section Sender.
Context (E : Env).

(** [await self.ws.send(data)] for a binary frame. *)
Definition ws_send_bytes (data : frame) : M unit :=
  fun w =>
    let w1 := set_n_send (S (n_send w)) w in
    if ws_closed w || negb (send_ok E (n_send w))
    then (Raise ConnectionClosed, w1)
    else (Ok tt, w1).

(** The loop of [VoiceAgent.sender] on the frames queued, with the [except]
    that surrounds it: [sent] collects the frames written to the websocket.
    An empty [bytes] is false, so [if self.ws and data] passes it over. *)
Fixpoint sender_loop (queue : list frame) (sent : list frame) (w : world)
  : sender_end * list frame * world :=
  match queue with
  | [] =>
      if is_running w then (SenderWaiting, sent, set_mic_audio_queue [] w)
      else (SenderReturned, sent, set_mic_audio_queue [] w)
  | data :: rest =>
      if is_running w then
        let w1 := set_mic_audio_queue rest w in          (* mic_audio_queue.get() *)
        match data with
        | [] => sender_loop rest sent w1
        | _ :: _ =>
            match ws_send_bytes data w1 with
            | (Ok _, w2) => sender_loop rest (sent ++ [data]) w2
            | (Raise e, w2) =>
                (SenderReturned, sent,
                 set_logs (logs w2 ++ [LogError "Error in sender" e]) w2)
            | (Diverge, w2) => (SenderReturned, sent, w2)
            end
        end
      else (SenderReturned, sent, set_mic_audio_queue (data :: rest) w)
  end.

(** [VoiceAgent.sender], run until it returns or has to wait for a frame. *)
Definition sender (w : world) : sender_end * list frame * world :=
  sender_loop (mic_audio_queue w) [] w.

(** The capture callback called once for each captured frame, each call
    meeting its own outcome of the hand-over. *)
Definition capture (calls : list (frame * handoff)) : M unit :=
  foldr (fun c rest => audio_callback (fst c) 2400 JNull 0 (snd c) >> rest)
        (ret tt) calls.

End Sender.

(** ** The run of a session *)

Section Session.
Context (E : Env).

(** The sender woken inside [mic_audio_queue.get()], where it was suspended
    on the empty queue: the frame is taken and sent with no look at
    [is_running], which the loop reads again only before the next [get()].
    With no frame to wake it the sender stays suspended. *)
Definition sender_resumed (w : world) : sender_end * list frame * world :=
  match mic_audio_queue w with
  | [] => (SenderWaiting, [], w)
  | data :: rest =>
      let w1 := set_mic_audio_queue rest w in
      match data with
      | [] => sender_loop E rest [] w1
      | _ :: _ =>
          match ws_send_bytes E data w1 with
          | (Ok _, w2) => sender_loop E rest [data] w2
          | (Raise e, w2) =>
              (SenderReturned, [],
               set_logs (logs w2 ++ [LogError "Error in sender" e]) w2)
          | (Diverge, w2) => (SenderReturned, [], w2)
          end
      end
  end.

(** A stretch of the sender as a step of the session: how it stands at the
    end of the stretch. *)
Definition sender_task (stretch : world -> sender_end * list frame * world)
  : M sender_end :=
  fun w => let '(standing, _, w') := stretch w in (Ok standing, w').

(** [await asyncio.gather(self.sender(), self.receiver())], which returns
    when both have returned; neither raises, each has its own [except].  The
    two are run in this order: the sender, which [gather] starts first, on
    the frames queued, up to its return or to its [get()] on the empty queue;
    then the receiver, to its end; then the event loop runs the puts still
    pending and the sender, if it was suspended, is woken by them.  A sender
    that is suspended on the empty queue once no put is pending is never
    woken, and [gather] does not return. *)
Definition gather_sender_receiver : M unit :=
  emit SenderStarted >>
  let* first := sender_task (sender E) in
  emit ReceiverStarted >>
  receiver E >>
  match first with
  | SenderReturned => ret tt
  | SenderWaiting =>
      update loop_turn >>
      let* last := sender_task sender_resumed in
      match last with
      | SenderReturned => ret tt
      | SenderWaiting => diverge
      end
  end.

(** [VoiceAgent.run].  When [gather] does not return, neither does [run]:
    the [finally] clause is not reached. *)
Definition run : M unit :=
  let* ready := setup E in
  if negb ready then ret tt
  else
    update (set_is_running true) >>
    try_finally
      (try_except
         (start_microphone E >>
          gather_sender_receiver)
         (fun e => log (LogError "Error in run" e)))
      (update (set_is_running false) >>
       emit Cleanup >>
       ws_close None).

End Session.

(** ** The microphone *)

Module Microphone.

(** What PyAudio tells of a device, as far as the program reads it. *)
Record device_info : Type := {
  maxInputChannels : Z;
  name : string;
  deviceId : json          (* [device_info.get("deviceId")], [None] when absent *)
}.

(** The audio hardware, as the program meets it. *)
Record Hardware : Type := {
  pyaudio_exn : option exn;      (* what pyaudio.PyAudio() raises *)
  host_exn : option exn;         (* what reading the host API raises *)
  devices : list device_info;    (* the devices of host API 0, by index *)
  open_exn : option exn;         (* what audio.open raises *)
  start_exn : option exn;        (* what stream.start_stream raises *)
  stop_exn : option exn;         (* what stream.stop_stream raises *)
  close_exn : option exn;        (* what stream.close raises *)
  terminate_exn : option exn     (* what audio.terminate raises *)
}.

(** The calls made on the hardware, in order, whether they returned or
    raised. *)
Inductive action : Type :=
| Created                               (* pyaudio.PyAudio() *)
| Opened (input_device_index : nat)     (* audio.open(..., input_device_index=...) *)
| Started                               (* stream.start_stream() *)
| Stopped                               (* stream.stop_stream() *)
| Closed                                (* stream.close() *)
| Terminated.                           (* audio.terminate() *)

(** What was logged. *)
Inductive note : Type :=
| InputDevice (i : nat) (device_name : string)
| StartedSuccessfully
| ErrorStarting (e : exn)
| ErrorClosing (e : exn)
| ErrorTerminating (e : exn).

(** The fields of the [VoiceAgent] the microphone code uses, with what it did
    and logged. *)
Record mic : Type := {
  audio : bool;                  (* [self.audio] is set *)
  stream : bool;                 (* [self.stream] is set *)
  input_device_id : json;        (* [self.input_device_id] *)
  done : list action;
  notes : list note
}.

Definition did (a : action) (m : mic) : mic :=
  {| audio := audio m; stream := stream m; input_device_id := input_device_id m;
     done := done m ++ [a]; notes := notes m |}.

Definition noted (n : note) (m : mic) : mic :=
  {| audio := audio m; stream := stream m; input_device_id := input_device_id m;
     done := done m; notes := notes m ++ [n] |}.

Definition noted_all (ns : list note) (m : mic) : mic :=
  {| audio := audio m; stream := stream m; input_device_id := input_device_id m;
     done := done m; notes := notes m ++ ns |}.

Definition with_audio (m : mic) : mic :=
  {| audio := true; stream := stream m; input_device_id := input_device_id m;
     done := done m; notes := notes m |}.

Definition with_stream (m : mic) : mic :=
  {| audio := audio m; stream := true; input_device_id := input_device_id m;
     done := done m; notes := notes m |}.

Section Selection.
Context (E : Env).

(** [device_info.get("maxInputChannels") > 0]. *)
Definition has_input (device : device_info) : bool :=
  (0 <? maxInputChannels device)%Z.

(** [self.input_device_id and str(device_info.get("deviceId")) ==
    self.input_device_id]: a [str] equals only a [str], and the empty string
    and [None] are false. *)
Definition requested (wanted : json) (device : device_info) : bool :=
  match wanted with
  | JStr id => negb (String.eqb id "") && String.eqb (py_str E (deviceId device)) id
  | _ => false
  end.

(** The loop over the devices (lines 155-168), from index [i] on, with
    [input_device_index] as it stands: the index chosen and the devices
    logged. *)
Fixpoint scan_devices (wanted : json) (i : nat) (ds : list device_info)
    (input_device_index : option nat) : option nat * list note :=
  match ds with
  | [] => (input_device_index, [])
  | device :: rest =>
      if has_input device then
        if requested wanted device then
          (Some i, [InputDevice i (name device)])                     (* break *)
        else
          let '(chosen, logged) :=
            scan_devices wanted (S i) rest
              (match input_device_index with
               | None => Some i
               | Some _ => input_device_index
               end) in
          (chosen, InputDevice i (name device) :: logged)
      else scan_devices wanted (S i) rest input_device_index
  end.

Definition select_input_device (wanted : json) (ds : list device_info) : option nat :=
  fst (scan_devices wanted 0 ds None).

(** The body of the [try] of [start_microphone] (lines 148-184). *)
Definition try_start (H : Hardware) (m : mic) : option exn * mic :=
  match pyaudio_exn H with
  | Some e => (Some e, did Created m)
  | None =>
      let m1 := with_audio (did Created m) in
      match host_exn H with
      | Some e => (Some e, m1)
      | None =>
          let '(chosen, logged) :=
            scan_devices (input_device_id m1) 0 (devices H) None in
          let m2 := noted_all logged m1 in
          match chosen with
          | None => (Some (Raised "Exception" "No input device found"), m2)
          | Some input_device_index =>
              match open_exn H with
              | Some e => (Some e, did (Opened input_device_index) m2)
              | None =>
                  let m3 := with_stream (did (Opened input_device_index) m2) in
                  match start_exn H with
                  | Some e => (Some e, did Started m3)
                  | None => (None, noted StartedSuccessfully (did Started m3))
                  end
              end
          end
      end
  end.

(** [VoiceAgent.start_microphone]: what it raises, if anything. *)
Definition start_microphone (H : Hardware) (m : mic) : option exn * mic :=
  match try_start H m with
  | (None, m') => (None, m')
  | (Some e, m') =>
      let m1 := noted (ErrorStarting e) m' in
      if audio m1 then
        match terminate_exn H with
        | Some e' => (Some e', did Terminated m1)
        | None => (Some e, did Terminated m1)
        end
      else (Some e, m1)
  end.

End Selection.

(** [VoiceAgent.cleanup]. *)
Definition cleanup (H : Hardware) (m : mic) : mic :=
  let m1 :=
    if stream m then
      match stop_exn H with
      | Some e => noted (ErrorClosing e) (did Stopped m)
      | None =>
          match close_exn H with
          | Some e => noted (ErrorClosing e) (did Closed (did Stopped m))
          | None => did Closed (did Stopped m)
          end
      end
    else m in
  if audio m1 then
    match terminate_exn H with
    | Some e => noted (ErrorTerminating e) (did Terminated m1)
    | None => did Terminated m1
    end
  else m1.

End Microphone.

(** ** The handlers of the start and stop events *)

Module Server.

(** The fields of a [VoiceAgent] the handlers read and write. *)
Record agent : Type := {
  input_device_id : json;
  output_device_id : json;
  is_running : bool;
  loop : option bool           (* the event loop, with whether it is closed *)
}.

(** The module: the global [voice_agent], the agents it has let go of, the
    background tasks started, the rounds of cancellation and the errors
    logged. *)
Record server : Type := {
  voice_agent : option agent;
  released : list agent;
  background_tasks : nat;
  cancellations : nat;
  errors : list exn
}.

(** [VoiceAgent()]. *)
Definition VoiceAgent_init : agent :=
  {| input_device_id := JNull; output_device_id := JNull;
     is_running := false; loop := None |}.

(** [handle_start_voice_agent(data)]; [data] is [None] or the dict of the
    event. *)
Definition handle_start_voice_agent (data : option (list (string * json)))
    (s : server) : server :=
  match voice_agent s with
  | Some _ => s
  | None =>
      let fresh :=
        match data with
        | Some (field :: fields) =>
            {| input_device_id := dict_get (field :: fields) "inputDeviceId" JNull;
               output_device_id := dict_get (field :: fields) "outputDeviceId" JNull;
               is_running := is_running VoiceAgent_init;
               loop := loop VoiceAgent_init |}
        | _ => VoiceAgent_init
        end in
      {| voice_agent := Some fresh; released := released s;
         background_tasks := S (background_tasks s);
         cancellations := cancellations s; errors := errors s |}
  end.

(** [handle_stop_voice_agent()]; [cancel_exn] is what cancelling the tasks
    raises, if anything. *)
Definition handle_stop_voice_agent (cancel_exn : option exn) (s : server) : server :=
  match voice_agent s with
  | None => s
  | Some a =>
      let stopped :=
        {| input_device_id := input_device_id a; output_device_id := output_device_id a;
           is_running := false; loop := loop a |} in
      if loop_usable (loop a) then
        match cancel_exn with
        | Some e =>
            {| voice_agent := None; released := released s ++ [stopped];
               background_tasks := background_tasks s;
               cancellations := cancellations s; errors := errors s ++ [e] |}
        | None =>
            {| voice_agent := None; released := released s ++ [stopped];
               background_tasks := background_tasks s;
               cancellations := S (cancellations s); errors := errors s |}
        end
      else
        {| voice_agent := None; released := released s ++ [stopped];
           background_tasks := background_tasks s;
           cancellations := cancellations s; errors := errors s |}
  end.

End Server.

(** ** A concrete session, for examples *)

Module Demo.

Definition dquote : string := String (Ascii.ascii_of_nat 34) EmptyString.

(** The text of a value, in the layout of [json.dumps], for strings that need
    no escape. *)
Fixpoint wire (v : json) : string :=
  match v with
  | JNull => "null"
  | JBool true => "true"
  | JBool false => "false"
  | JNum literal => literal
  | JStr s => dquote +:+ s +:+ dquote
  | JArr items =>
      "[" +:+
      (fix go (l : list json) : string :=
         match l with
         | [] => ""
         | [x] => wire x
         | x :: rest => wire x +:+ ", " +:+ go rest
         end) items +:+ "]"
  | JObj fields =>
      "{" +:+
      (fix go (l : list (string * json)) : string :=
         match l with
         | [] => ""
         | [(k, x)] => dquote +:+ k +:+ dquote +:+ ": " +:+ wire x
         | (k, x) :: rest => dquote +:+ k +:+ dquote +:+ ": " +:+ wire x +:+ ", " +:+ go rest
         end) fields +:+ "}"
  end.

(** The messages of the examples. *)
Definition end_call_request : json :=
  JObj [("type", JStr "FunctionCallRequest");
        ("function_name", JStr "end_call");
        ("function_call_id", JStr "1");
        ("input", JObj [("farewell_type", JStr "general")])].

Definition unknown_request : json :=
  JObj [("type", JStr "FunctionCallRequest");
        ("function_name", JStr "get_weather");
        ("function_call_id", JStr "7");
        ("input", JObj [])].

Definition user_started_speaking : json := JObj [("type", JStr "UserStartedSpeaking")].
Definition function_calling : json := JObj [("type", JStr "FunctionCalling")].
Definition agent_started_speaking : json := JObj [("type", JStr "AgentStartedSpeaking")].
Definition agent_audio_done : json := JObj [("type", JStr "AgentAudioDone")].
Definition prompt_updated : json := JObj [("type", JStr "PromptUpdated")].

Definition vocabulary : list json :=
  [end_call_request; unknown_request; user_started_speaking; function_calling;
   agent_started_speaking; agent_audio_done; prompt_updated; JArr []].

(** [json.loads] on the texts of the vocabulary; any other text of the
    examples is no JSON. *)
Definition loads_text (text : string) : option json :=
  find (fun v => String.eqb (wire v) text) vocabulary.

(** The farewell of the examples, as [end_call] prepares it. *)
Definition farewell : json :=
  JObj [("type", JStr "InjectAgentMessage");
        ("message", JStr "Thank you for calling! Have a great day!")].

Definition end_call (parameters : json) : outcome :=
  Returned (JObj [("function_response",
                   JObj [("status", JStr "closing");
                         ("message", JStr "Thank you for calling! Have a great day!")]);
                  ("inject_message", farewell);
                  ("close_message", JObj [("type", JStr "close")])]).

Definition env : Env :=
  {| json_loads := loads_text;
     json_dumps := wire;
     py_repr := wire;
     py_eq := fun a b => String.eqb (wire a) (wire b);
     lib_text := fun e =>
       match e with
       | NoAttribute (JArr _) attr => "'list' object has no attribute '" +:+ attr +:+ "'"
       | JSONDecodeError => "Expecting value: line 1 column 1 (char 0)"
       | _ => ""
       end;
     FUNCTION_MAP := {[ "end_call" := end_call ]};
     FUNCTION_DEFINITIONS := JArr [];
     time_time := fun n => (1000 + Z.of_nat n)%Z;
     send_ok := fun _ => true;
     close_times_out := false;
     DEEPGRAM_API_KEY := Some "key";
     connect_exn := None;
     audio_out_exn := None;
     microphone_exn := None |}.

(** A session about to start: nothing received, nothing sent. *)
Definition start (messages : list message) : world :=
  {| inbound := messages; ws_closed := false; n_send := 0; n_clock := 0;
     is_running := true; loop := Some false; mic_audio_queue := []; scheduled := [];
     speaker := Speaker_init; sched := []; sink := [];
     last_user_message := None; last_function_response_time := None;
     in_function_chain := false; trace := []; logs := [] |}.

Definition frame1 : frame := [Byte.x01; Byte.x00].
Definition frame2 : frame := [Byte.x02; Byte.x00].
Definition frame3 : frame := [Byte.x03; Byte.x00].

(** A session inside the loop of the receiver: the speaker is up, [backlog]
    waits on the playback queue, the playback thread gets its turns as in
    [turns], the user spoke at 990 and a function answered at 995. *)
Definition listening (messages : list message) (backlog : list frame)
    (turns : list nat) (chain : bool) : world :=
  {| inbound := messages; ws_closed := false; n_send := 0; n_clock := 0;
     is_running := true; loop := Some false; mic_audio_queue := []; scheduled := [];
     speaker := {| _queue := Some backlog; _stream := Some tt;
                   _thread := Some tt; _stop := Some false |};
     sched := turns; sink := [];
     last_user_message := Some 990%Z; last_function_response_time := Some 995%Z;
     in_function_chain := chain; trace := []; logs := [] |}.

(** A session whose microphone queue holds two frames. *)
Definition capturing : world :=
  {| inbound := []; ws_closed := false; n_send := 0; n_clock := 0;
     is_running := true; loop := Some false;
     mic_audio_queue := [frame1; frame2]; scheduled := [];
     speaker := Speaker_init; sched := []; sink := [];
     last_user_message := None; last_function_response_time := None;
     in_function_chain := false; trace := []; logs := [] |}.

(** The surroundings without the API key. *)
Definition env_without_key : Env :=
  {| json_loads := loads_text;
     json_dumps := wire;
     py_repr := wire;
     py_eq := fun a b => String.eqb (wire a) (wire b);
     lib_text := fun _ => "";
     FUNCTION_MAP := {[ "end_call" := end_call ]};
     FUNCTION_DEFINITIONS := JArr [];
     time_time := fun n => (1000 + Z.of_nat n)%Z;
     send_ok := fun _ => true;
     close_times_out := false;
     DEEPGRAM_API_KEY := None;
     connect_exn := None;
     audio_out_exn := None;
     microphone_exn := None |}.

End Demo.

(** ** More sessions, for the examples of the other paths *)

Module Scenes.

(** The messages. *)
Definition user_text : json :=
  JObj [("type", JStr "ConversationText");
        ("role", JStr "user");
        ("content", JStr "Where is my order?")].

Definition close_connection : json := JObj [("type", JStr "CloseConnection")].

Definition order_request : json :=
  JObj [("type", JStr "FunctionCallRequest");
        ("function_name", JStr "get_order");
        ("function_call_id", JStr "3");
        ("input", JObj [("order_id", JStr "A17")])].

Definition filler_request : json :=
  JObj [("type", JStr "FunctionCallRequest");
        ("function_name", JStr "agent_filler");
        ("function_call_id", JStr "4");
        ("input", JObj [("message_type", JStr "lookup")])].

Definition nameless_request : json :=
  JObj [("type", JStr "FunctionCallRequest");
        ("function_call_id", JStr "5")].

(** The fields of a message that is an object. *)
Definition fields_of (v : json) : list (string * json) :=
  match v with
  | JObj fields => fields
  | _ => []
  end.

Definition vocabulary : list json :=
  Demo.vocabulary
  ++ [user_text; close_connection; order_request; filler_request; nameless_request].

Definition loads_text (text : string) : option json :=
  find (fun v => String.eqb (Demo.wire v) text) vocabulary.

(** The handlers. *)
Definition get_order (parameters : json) : outcome :=
  Returned (JObj [("status", JStr "shipped")]).

Definition one_moment : json :=
  JObj [("type", JStr "InjectAgentMessage"); ("message", JStr "One moment.")].

Definition agent_filler (parameters : json) : outcome :=
  Returned (JObj [("function_response", JObj [("status", JStr "queued")]);
                  ("inject_message", one_moment)]).

(** A filler whose result lacks the response to the call. *)
Definition half_filler (parameters : json) : outcome :=
  Returned (JObj [("inject_message", one_moment)]).

Definition handlers : gmap string handler :=
  <["get_order" := get_order]>
    (<["agent_filler" := agent_filler]> {[ "end_call" := Demo.end_call ]}).

Definition half_handlers : gmap string handler := {[ "agent_filler" := half_filler ]}.

(** The surroundings, by the registry, the sends the transport takes and the
    state of the audio devices. *)
Definition env_of (registry : gmap string handler) (takes : nat -> bool)
    (audio_out microphone : option exn) : Env :=
  {| json_loads := loads_text;
     json_dumps := Demo.wire;
     py_repr := Demo.wire;
     py_eq := fun a b => String.eqb (Demo.wire a) (Demo.wire b);
     lib_text := fun _ => "";
     FUNCTION_MAP := registry;
     FUNCTION_DEFINITIONS := JArr [];
     time_time := fun n => (1000 + Z.of_nat n)%Z;
     send_ok := takes;
     close_times_out := false;
     DEEPGRAM_API_KEY := Some "key";
     connect_exn := None;
     audio_out_exn := audio_out;
     microphone_exn := microphone |}.

Definition env : Env := env_of handlers (fun _ => true) None None.

Definition no_device : exn := Raised "OSError" "No Default Input Device Available".

(** A session that captures: [queue] waits for the sender, [pending] was
    handed to the event loop and not run yet. *)
Definition capturing (queue pending : list frame) (running : bool) : world :=
  {| inbound := []; ws_closed := false; n_send := 0; n_clock := 0;
     is_running := running; loop := Some false;
     mic_audio_queue := queue; scheduled := pending;
     speaker := Speaker_init; sched := []; sink := [];
     last_user_message := None; last_function_response_time := None;
     in_function_chain := false; trace := []; logs := [] |}.

(** The audio hardware: an output device, the built-in microphone and a USB
    microphone. *)
Definition devices : list Microphone.device_info :=
  [ {| Microphone.maxInputChannels := 0; Microphone.name := "Speakers";
       Microphone.deviceId := JStr "out" |};
    {| Microphone.maxInputChannels := 2; Microphone.name := "Built-in Microphone";
       Microphone.deviceId := JStr "builtin" |};
    {| Microphone.maxInputChannels := 1; Microphone.name := "USB Microphone";
       Microphone.deviceId := JStr "usb" |} ].

Definition hardware (ds : list Microphone.device_info) (start : option exn)
  : Microphone.Hardware :=
  {| Microphone.pyaudio_exn := None; Microphone.host_exn := None;
     Microphone.devices := ds;
     Microphone.open_exn := None; Microphone.start_exn := start;
     Microphone.stop_exn := None; Microphone.close_exn := None;
     Microphone.terminate_exn := None |}.

(** An agent before [start_microphone], asked for the device [wanted]. *)
Definition fresh_mic (wanted : json) : Microphone.mic :=
  {| Microphone.audio := false; Microphone.stream := false;
     Microphone.input_device_id := wanted;
     Microphone.done := []; Microphone.notes := [] |}.

(** A server whose agent runs on an open event loop. *)
Definition serving : Server.server :=
  {| Server.voice_agent :=
       Some {| Server.input_device_id := JStr "usb"; Server.output_device_id := JNull;
               Server.is_running := true; Server.loop := Some false |};
     Server.released := []; Server.background_tasks := 1;
     Server.cancellations := 0; Server.errors := [] |}.

End Scenes.

(** * The vocabulary of the properties *)

(** The tags the loop of the receiver has a branch for. *)
Definition recognized_tags : list string :=
  ["UserStartedSpeaking"; "ConversationText"; "FunctionCalling";
   "FunctionCallRequest"; "Welcome"; "CloseConnection"].

(** What is left of the world after a text with an unknown tag: the text was
    logged and the clock was read. *)
Definition ignored (text : string) (w : world) : world :=
  set_n_clock (S (n_clock w)) (set_logs (logs w ++ [LogServer text]) w).

(** The world after the loop has taken the first pending message. *)
Definition taken (m : message) (rest : list message) (w : world) : world :=
  set_trace (trace w ++ [WsRecv m]) (set_inbound rest w).

(** What is left of the world after a text that is no JSON: it was logged. *)
Definition rejected (text : string) (w : world) : world :=
  set_logs (logs w ++ [LogServer text]) w.

(** The world in which [receiver] ends after the error [e] left its loop in
    the world [w]: the speaker is torn down and the error is logged. *)
Definition given_up (e : exn) (w : world) : world :=
  set_logs (logs w ++ [LogError "Error in receiver" e]) (set_speaker Speaker_init w).

(** The world in which the loop of [receiver] starts. *)
Definition prepared (w : world) : world :=
  set_speaker {| _queue := Some []; _stream := Some tt;
                 _thread := Some tt; _stop := Some false |}
    (set_in_function_chain false
       (set_last_function_response_time None
          (set_last_user_message None w))).

(** [needle] occurs in [hay]. *)
Definition occurs_in (needle hay : string) : Prop :=
  exists before after, hay = before +:+ needle +:+ after.

(** Put the frames on the playback queue, one after the other. *)
Definition play_all (frames : list frame) : M unit :=
  foldr (fun data rest => Speaker_play data >> rest) (ret tt) frames.

(** From [w] to [w'] the playback thread has written the first [k] queued
    frames to the stream and nothing else has touched the speaker. *)
Definition advanced (k : nat) (w w' : world) : Prop :=
  (forall q, _queue (speaker w) = Some q ->
             _queue (speaker w') = Some (drop k q) /\ sink w' = sink w ++ take k q)
  /\ (_queue (speaker w) = None -> _queue (speaker w') = None /\ sink w' = sink w)
  /\ _stop (speaker w') = _stop (speaker w)
  /\ _thread (speaker w') = _thread (speaker w)
  /\ _stream (speaker w') = _stream (speaker w).

(** The thread and the two threads' queue operations leave every other part
    of the world alone. *)
Definition same_session (w w' : world) : Prop :=
  inbound w' = inbound w /\ ws_closed w' = ws_closed w /\ n_send w' = n_send w
  /\ n_clock w' = n_clock w /\ is_running w' = is_running w /\ loop w' = loop w
  /\ mic_audio_queue w' = mic_audio_queue w /\ scheduled w' = scheduled w
  /\ last_user_message w' = last_user_message w
  /\ last_function_response_time w' = last_function_response_time w
  /\ in_function_chain w' = in_function_chain w
  /\ trace w' = trace w /\ logs w' = logs w.

(** The innermost term a [match] of [t] waits for. *)
Ltac innermost t :=
  lazymatch t with
  | context [match ?x with _ => _ end] => innermost x
  | _ => t
  end.

(** Bring appended lists to one right-nested form. *)
Ltac list_normal :=
  repeat (rewrite <- app_assoc || rewrite <- app_comm_cons); cbn [app].

(** What the waiting loops do with the messages they take: each is received,
    and a binary one is put on the playback queue. *)
Definition consumed (ms : list message) : list event :=
  flat_map (fun m => match m with
                     | Binary data => [WsRecv m; Play data]
                     | Text _ => [WsRecv m]
                     end) ms.

(** The test of the first waiting loop, on the fields of a message:
    [AgentStartedSpeaking], or the assistant's [ConversationText] with the
    farewell as its content. *)
Definition announces_farewell (E : Env) (farewell : json)
    (fields : list (string * json)) : bool :=
  is_str (dict_get fields "type" JNull) "AgentStartedSpeaking"
  || (is_str (dict_get fields "type" JNull) "ConversationText"
      && is_str (dict_get fields "role" JNull) "assistant"
      && py_equal E (dict_get fields "content" JNull) farewell).


(** The test of the second waiting loop. *)
Definition audio_is_done (fields : list (string * json)) : bool :=
  is_str (dict_get fields "type" JNull) "AgentAudioDone".


(** A message a waiting loop passes over: a binary frame, a text that is no
    JSON, or an object that fails the test of the loop. *)
Definition passed_over (E : Env) (test : list (string * json) -> bool)
    (m : message) : Prop :=
  match m with
  | Binary _ => True
  | Text text =>
      json_loads E text = None
      \/ exists fields, json_loads E text = Some (JObj fields) /\ test fields = false
  end.

(** What a waiting loop keeps: the queue is there, the transport is as it
    was. *)
Definition waiting_kept (w w' : world) : Prop :=
  (exists q', _queue (speaker w') = Some q')
  /\ ws_closed w' = ws_closed w
  /\ n_send w' = n_send w.

(** The error a hand-over ends with, if any. *)
Definition handoff_error (h : handoff) : option exn :=
  match h with
  | HandoffDone => None
  | HandoffTimeout => Some TimeoutError
  | HandoffFailed e => Some e
  end.

(** Dropping the oldest frame on a timeout: the oldest queued frame makes room
    for the new one. *)
Definition drops_oldest_on_timeout : Prop :=
  forall (input_data : frame) (frame_count : Z) (time_info : json) (status_flag : Z)
         (w : world),
    is_running w = true ->
    loop_usable (loop w) = true ->
    mic_audio_queue
      (snd (audio_callback input_data frame_count time_info status_flag HandoffTimeout w))
    = tail (mic_audio_queue w) ++ [input_data].

(** The [FunctionCallResponse] messages sent for a call id. *)
Definition responses_to (function_call_id : string) (events : list event) : list json :=
  flat_map (fun ev =>
              match ev with
              | WsSend (JObj fields) =>
                  if is_str (dict_get fields "type" JNull) "FunctionCallResponse"
                     && is_str (dict_get fields "function_call_id" JNull) function_call_id
                  then [JObj fields] else []
              | _ => []
              end) events.

(** [m], run in [w], ends (with a value or an exception) and hands no
    message back to the websocket. *)
Definition terminates {A} (m : M A) (w : world) : Prop :=
  fst (m w) <> Diverge /\ length (inbound (snd (m w))) <= length (inbound w).

Definition total {A} (m : M A) : Prop := forall w, terminates m w.

(** The keys that the dispatcher reads in the result of a handler that is
    given the connection. *)
Definition extracted_keys (function_name : string) : list string :=
  if String.eqb function_name "agent_filler" then
    ["inject_message"; "function_response"]
  else if String.eqb function_name "end_call" then
    ["inject_message"; "function_response"; "close_message"]
  else [].

(** The peer closes the connection before the farewell is complete: every
    message still to come is passed over by the first waiting loop, or the
    farewell is announced and the second loop passes over what follows. *)
Definition farewell_cut_short (E : Env) (farewell : json) (ms : list message) : Prop :=
  Forall (passed_over E (announces_farewell E farewell)) ms
  \/ exists before started fields during,
       ms = before ++ Text started :: during
       /\ Forall (passed_over E (announces_farewell E farewell)) before
       /\ json_loads E started = Some (JObj fields)
       /\ announces_farewell E farewell fields = true
       /\ Forall (passed_over E audio_is_done) during.

(** The frames the sender writes to the websocket: an empty [bytes] is false
    and is passed over. *)
Definition audible (frames : list frame) : list frame :=
  List.filter (fun data => match data with [] => false | _ :: _ => true end) frames.

(** The frames of a run of callbacks that the event loop was handed: a
    hand-over that failed never reached it. *)
Definition handed_over (calls : list (frame * handoff)) : list frame :=
  map fst (List.filter (fun c => match snd c with
                                 | HandoffFailed _ => false
                                 | _ => true
                                 end) calls).

(** The index, counted from [i], of the first element that passes [p]. *)
Fixpoint first_index {A : Type} (p : A -> bool) (i : nat) (l : list A) : option nat :=
  match l with
  | [] => None
  | x :: rest => if p x then Some i else first_index p (S i) rest
  end.



(** * Properties *)

(** ** Reading the dispatch *)

(** [m] gives [a] in the world [w] and leaves [w']: the rest runs from there. *)
Lemma bind_ok {A B} (m : M A) (k : A -> M B) (w w' : world) (a : A) :
  m w = (Ok a, w') -> bind m k w = k a w'.
Proof. intros H. unfold bind. rewrite H. reflexivity. Qed.


Lemma try_decode_inv {A} (body handle : M A) (w w' : world) (a : A) :
  try_decode body handle w = (Ok a, w') ->
  body w = (Ok a, w')
  \/ exists w1, body w = (Raise JSONDecodeError, w1) /\ handle w1 = (Ok a, w').
Proof.
  unfold try_decode. destruct (body w) as [[a0 | e |] w1]; try discriminate.
  - intros H. left. exact H.
  - destruct e; try discriminate. intros H. right. exists w1. split; [reflexivity | exact H].
Qed.

Lemma is_str_true v lit : v = JStr lit -> is_str v lit = true.
Proof. intros ->. simpl. apply String.eqb_refl. Qed.

Lemma is_str_false v lit : v <> JStr lit -> is_str v lit = false.
Proof.
  destruct v; simpl; try reflexivity.
  intros Hne. apply String.eqb_neq. congruence.
Qed.

Lemma is_str_spec v lit : is_str v lit = true <-> v = JStr lit.
Proof.
  split; [| apply is_str_true].
  destruct v; simpl; try discriminate.
  intros H. apply String.eqb_eq in H. congruence.
Qed.

Section Receiver_facts.
Context (E : Env).

(** C9: a text that parses to an object whose type tag has no branch in the
    loop of the receiver is logged and ignored: nothing is raised, the world
    is unchanged but for the log record and the clock reading, and the loop
    goes on with the messages that follow. *)
Theorem unknown_tag_ignored (text : string) (fields : list (string * json)) (w : world) :
  json_loads E text = Some (JObj fields) ->
  (forall tag, In tag recognized_tags -> dict_get fields "type" JNull <> JStr tag) ->
  handle_message E (Text text) w = (Ok Next, ignored text w)
  /\ forall rest fuel,
       inbound w = Text text :: rest ->
       receiver_loop E (S fuel) w
       = receiver_loop E fuel (ignored text (taken (Text text) rest w)).
Proof.
  intros Hparse Htag.
  assert (Hstep : forall w0, handle_message E (Text text) w0 = (Ok Next, ignored text w0)).
  { intros w0. unfold handle_message, loads, bind, log, update, py_get, now, ret.
    rewrite Hparse. cbn.
    rewrite !is_str_false by (apply Htag; simpl; tauto).
    reflexivity. }
  split; [apply Hstep |].
  intros rest fuel Hin.
  cbn [receiver_loop]. unfold bind at 1. unfold ws_next. rewrite Hin.
  unfold bind at 1. fold (taken (Text text) rest w). rewrite Hstep. reflexivity.
Qed.

(** [receiver] is its loop, run in the prepared world, with the speaker torn
    down afterwards and whatever the loop raised logged. *)
Lemma receiver_unfold (w : world) :
  audio_out_exn E = None ->
  receiver E w
  = match receiver_loop E (S (length (inbound w))) (prepared w) with
    | (Ok _, w1) => (Ok tt, set_speaker Speaker_init w1)
    | (Raise e, w1) => (Ok tt, given_up e w1)
    | (Diverge, w1) => (Diverge, w1)
    end.
Proof.
  intros Hout.
  unfold receiver, try_except, with_speaker, Speaker_enter, try_finally, Speaker_exit.
  unfold bind, update, get. rewrite Hout. cbn beta iota.
  match goal with
  | |- context [receiver_loop E ?n ?x] =>
      change (receiver_loop E n x)
        with (receiver_loop E (S (length (inbound w))) (prepared w))
  end.
  destruct (receiver_loop E (S (length (inbound w))) (prepared w)) as [[[]| e |] w1];
    reflexivity.
Qed.

(** C10: a text that is no JSON makes the body of the loop raise
    [JSONDecodeError]; the loop hands the error on with every later message
    still unread, and [receiver] catches it in its outermost handler and
    returns, so that no later message is ever taken from the websocket. *)
Theorem invalid_json_ends_receiver (text : string) (w : world) :
  json_loads E text = None ->
  handle_message E (Text text) w = (Raise JSONDecodeError, rejected text w)
  /\ (forall rest fuel,
        inbound w = Text text :: rest ->
        receiver_loop E (S fuel) w
        = (Raise JSONDecodeError, rejected text (taken (Text text) rest w)))
  /\ (forall rest,
        inbound w = Text text :: rest ->
        audio_out_exn E = None ->
        receiver E w
        = (Ok tt, given_up JSONDecodeError
                    (rejected text (taken (Text text) rest (prepared w))))).
Proof.
  intros Hparse.
  assert (Hstep : forall w0,
             handle_message E (Text text) w0 = (Raise JSONDecodeError, rejected text w0)).
  { intros w0. unfold handle_message, loads, bind, log, update, raise.
    rewrite Hparse. reflexivity. }
  assert (Hloop : forall w0 rest fuel,
             inbound w0 = Text text :: rest ->
             receiver_loop E (S fuel) w0
             = (Raise JSONDecodeError, rejected text (taken (Text text) rest w0))).
  { intros w0 rest fuel Hin.
    cbn [receiver_loop]. unfold bind at 1. unfold ws_next. rewrite Hin.
    unfold bind at 1. fold (taken (Text text) rest w0). rewrite Hstep. reflexivity. }
  split; [apply Hstep |]. split; [apply Hloop |].
  intros rest Hin Hout.
  rewrite (receiver_unfold w Hout).
  rewrite (Hloop (prepared w) rest _ Hin). reflexivity.
Qed.

(** C4: when a [FunctionCalling] message arrives at [t1], then, if the chain
    flag is set and a time [t2] of a function response exists, the latency
    logged is [t1 - t2], as a chain latency; otherwise, if a time [t0] of a
    user utterance exists, the latency logged is [t1 - t0], as an initial
    latency, and the chain flag becomes true.  Nothing else changes. *)
Theorem decision_latency (text : string) (fields : list (string * json)) (w : world) :
  json_loads E text = Some (JObj fields) ->
  dict_get fields "type" JNull = JStr "FunctionCalling" ->
  let t1 := time_time E (n_clock w) in
  (forall t2,
      in_function_chain w = true ->
      last_function_response_time w = Some t2 ->
      timestamp_exists (Some t2) = true ->
      handle_message E (Text text) w
      = (Ok Next,
         set_n_clock (S (n_clock w))
           (set_logs (logs w ++ [LogServer text; LogChainLatency (t1 - t2)]) w)))
  /\ (forall t0,
        in_function_chain w = false
        \/ timestamp_exists (last_function_response_time w) = false ->
        last_user_message w = Some t0 ->
        timestamp_exists (Some t0) = true ->
        handle_message E (Text text) w
        = (Ok Next,
           set_in_function_chain true
             (set_n_clock (S (n_clock w))
                (set_logs (logs w ++ [LogServer text; LogInitialLatency (t1 - t0)]) w)))).
Proof.
  intros Hparse Htag t1.
  assert (Hrun : handle_message E (Text text) w
                 = (let w1 := set_n_clock (S (n_clock w)) (rejected text w) in
                    if in_function_chain w
                       && timestamp_exists (last_function_response_time w)
                    then (Ok Next,
                          set_logs (logs w1 ++ [LogChainLatency
                                      (since (last_function_response_time w) t1)]) w1)
                    else if timestamp_exists (last_user_message w)
                    then (Ok Next,
                          set_in_function_chain true
                            (set_logs (logs w1 ++ [LogInitialLatency
                                        (since (last_user_message w) t1)]) w1))
                    else (Ok Next, w1))).
  { unfold handle_message, loads, bind, log, update, py_get, now, ret, get.
    rewrite Hparse. cbn. rewrite Htag. cbn.
    destruct (in_function_chain w && timestamp_exists (last_function_response_time w));
      [reflexivity |].
    destruct (timestamp_exists (last_user_message w)); reflexivity. }
  split.
  - intros t2 Hchain Hlast Hex. rewrite Hrun, Hchain, Hlast, Hex. cbn.
    rewrite <- app_assoc. reflexivity.
  - intros t0 Hother Hlast Hex. rewrite Hrun.
    assert (Hno : in_function_chain w
                  && timestamp_exists (last_function_response_time w) = false).
    { destruct Hother as [-> | ->]; [reflexivity | apply andb_false_r]. }
    rewrite Hno, Hlast, Hex. cbn.
    rewrite <- app_assoc. reflexivity.
Qed.

(** C5: a [FunctionCallRequest] for a name that is not in the registry raises
    nothing out of the dispatcher: while the transport takes the message, one
    [FunctionCallResponse] is sent, with the call id of the request, whose
    output is the error object with the message "Function <name> not found",
    and the loop goes on. *)
Theorem unknown_function_answered (text : string) (fields : list (string * json))
    (name : string) (w : world) :
  json_loads E text = Some (JObj fields) ->
  dict_get fields "type" JNull = JStr "FunctionCallRequest" ->
  dict_get fields "function_name" JNull = JStr name ->
  FUNCTION_MAP E !! name = None ->
  ws_closed w = false ->
  send_ok E (n_send w) = true ->
  let complaint := "Function " +:+ name +:+ " not found" in
  exists w',
    handle_message E (Text text) w = (Ok Next, w')
    /\ trace w'
       = trace w ++ [WsSend (FunctionCallResponse
                               (dict_get fields "function_call_id" JNull)
                               (json_dumps E (JObj [("error", JStr complaint)])))]
    /\ occurs_in name complaint
    /\ inbound w' = inbound w
    /\ is_running w' = is_running w
    /\ speaker w' = speaker w.
Proof.
  intros Hparse Htag Hname Hmap Hopen Hsend complaint.
  eexists. split.
  - unfold handle_message, loads, bind, log, update, py_get, now, ret, get.
    rewrite Hparse. cbn. rewrite Htag. cbn.
    unfold function_call_request, try_except, bind, log, update, now, FUNCTION_MAP_get.
    rewrite Hname. cbn. rewrite Hmap. cbn.
    unfold ws_send. cbn. rewrite Hopen, Hsend. cbn. reflexivity.
  - cbn. repeat split; try reflexivity.
    exists "Function ", " not found". reflexivity.
Qed.

(** Where one response per call does hold: a request for a registered
    function other than [agent_filler] and [end_call] is answered exactly
    once, with the result of the handler or, when the handler raises, with the
    error object. *)
Lemma ordinary_call_answered_once (text : string) (fields : list (string * json))
    (name : string) (func : handler) (w : world) :
  json_loads E text = Some (JObj fields) ->
  dict_get fields "type" JNull = JStr "FunctionCallRequest" ->
  dict_get fields "function_name" JNull = JStr name ->
  name <> "agent_filler" ->
  name <> "end_call" ->
  FUNCTION_MAP E !! name = Some func ->
  ws_closed w = false ->
  send_ok E (n_send w) = true ->
  exists w',
    handle_message E (Text text) w = (Ok Next, w')
    /\ trace w'
       = trace w
         ++ [WsSend (FunctionCallResponse
                       (dict_get fields "function_call_id" JNull)
                       (match func (dict_get fields "input" (JObj [])) with
                        | Returned v => json_dumps E v
                        | Failed e => json_dumps E (JObj [("error", JStr (str_exn E e))])
                        end))].
Proof.
  intros Hparse Htag Hname Hfiller Hend Hmap Hopen Hsend.
  unfold handle_message, loads, bind, log, update, py_get, now, ret, get.
  rewrite Hparse. cbn. rewrite Htag. cbn.
  unfold function_call_request, try_except, bind, log, update, now, FUNCTION_MAP_get, call.
  rewrite Hname. cbn. rewrite Hmap.
  apply String.eqb_neq in Hfiller, Hend. rewrite Hfiller, Hend. cbn.
  destruct (func (dict_get fields "input" (JObj []))) as [v | e]; cbn;
    unfold ws_send; cbn; rewrite Hopen, Hsend; cbn;
    eexists; (split; [reflexivity |]); reflexivity.
Qed.

End Receiver_facts.

(** ** The playback queue *)

Section Playback_facts.

Lemma advanced_refl (w w' : world) :
  speaker w' = speaker w -> sink w' = sink w -> advanced 0 w w'.
Proof.
  intros Hs Hk. unfold advanced. rewrite Hs, Hk.
  split; [| split; [| repeat split]].
  - intros q Hq. rewrite drop_0, take_0, app_nil_r. split; [assumption | reflexivity].
  - intros Hq. split; [assumption | reflexivity].
Qed.

Lemma advanced_trans (k1 k2 : nat) (w1 w2 w3 : world) :
  advanced k1 w1 w2 -> advanced k2 w2 w3 -> advanced (k1 + k2) w1 w3.
Proof.
  intros (Hq1 & Hn1 & Hs1 & Ht1 & Hm1) (Hq2 & Hn2 & Hs2 & Ht2 & Hm2).
  unfold advanced. split; [| split; [| repeat split; congruence]].
  - intros q H. destruct (Hq1 q H) as [Hq Hk]. destruct (Hq2 _ Hq) as [-> ->].
    rewrite drop_drop, Hk, <- app_assoc, take_take_drop. split; reflexivity.
  - intros H. destruct (Hn1 H) as [Hq Hk]. destruct (Hn2 Hq) as [-> ->].
    split; [reflexivity | assumption].
Qed.

Lemma _play_iter_advanced (w : world) : exists k, advanced k w (_play_iter w).
Proof.
  unfold _play_iter.
  destruct (_stop (speaker w)) as [[|]|] eqn:Hstop;
    try (exists 0; apply advanced_refl; reflexivity).
  destruct (_queue (speaker w)) as [[|data q]|] eqn:Hq;
    try (exists 0; apply advanced_refl; reflexivity).
  exists 1. unfold advanced. cbn. rewrite Hq.
  split; [| split; [discriminate | repeat split]].
  intros q0 [= <-]. split; reflexivity.
Qed.

Lemma iter_advanced (n : nat) (w : world) :
  exists k, advanced k w (Nat.iter n _play_iter w).
Proof.
  induction n as [| n [k IH]]; cbn.
  - exists 0. apply advanced_refl; reflexivity.
  - destruct (_play_iter_advanced (Nat.iter n _play_iter w)) as [k' Hk'].
    exists (k + k'). eapply advanced_trans; eassumption.
Qed.

Lemma thread_turn_advanced (w : world) : exists k, advanced k w (thread_turn w).
Proof.
  unfold thread_turn. destruct (sched w) as [| n rest].
  - exists 0. apply advanced_refl; reflexivity.
  - destruct (iter_advanced n (set_sched rest w)) as [k Hk].
    exists (0 + k). eapply advanced_trans; [| exact Hk].
    apply advanced_refl; reflexivity.
Qed.

Lemma same_session_refl (w : world) : same_session w w.
Proof. unfold same_session. repeat split. Qed.

Lemma same_session_trans (w1 w2 w3 : world) :
  same_session w1 w2 -> same_session w2 w3 -> same_session w1 w3.
Proof. unfold same_session. intuition congruence. Qed.

Lemma _play_iter_same (w : world) : same_session w (_play_iter w).
Proof.
  unfold _play_iter.
  destruct (_stop (speaker w)) as [[|]|]; try apply same_session_refl.
  destruct (_queue (speaker w)) as [[|data q]|]; try apply same_session_refl.
  unfold same_session. repeat split.
Qed.

Lemma iter_same (n : nat) (w : world) : same_session w (Nat.iter n _play_iter w).
Proof.
  induction n as [| n IH]; cbn; [apply same_session_refl |].
  eapply same_session_trans; [exact IH | apply _play_iter_same].
Qed.

Lemma thread_turn_same (w : world) : same_session w (thread_turn w).
Proof.
  unfold thread_turn. destruct (sched w) as [| n rest]; [apply same_session_refl |].
  eapply same_session_trans; [| apply iter_same].
  unfold same_session. repeat split.
Qed.

(** The loop of [Speaker.stop] ends with the queue empty, whatever the
    playback thread does meanwhile, and what reached the stream during the
    loop are frames of the old queue, in their order; but it ends by the
    [AttributeError] of the [except] clause when the thread took the last
    frame between [empty()] and [get_nowait()]. *)
Lemma drain_spec (fuel : nat) (w : world) (q : list frame) :
  _queue (speaker w) = Some q ->
  length q < fuel ->
  exists w' played r,
    drain fuel w = (r, w')
    /\ (r = Ok tt \/ r = Raise (NoModuleAttribute "janus" "QueueEmpty"))
    /\ _queue (speaker w') = Some []
    /\ played `sublist_of` q
    /\ sink w' = sink w ++ played
    /\ _stop (speaker w') = _stop (speaker w)
    /\ _thread (speaker w') = _thread (speaker w)
    /\ _stream (speaker w') = _stream (speaker w)
    /\ same_session w w'.
Proof.
  revert w q. induction fuel as [| fuel IH]; intros w q Hq Hlen; [lia |].
  cbn [drain].
  destruct (thread_turn_advanced w) as [k1 (Hq1 & _ & Hs1 & Ht1 & Hm1)].
  destruct (Hq1 q Hq) as [Hq1' Hk1].
  pose proof (thread_turn_same w) as Hsame1.
  rewrite Hq1'.
  destruct (drop k1 q) as [| x1 q1] eqn:Hd1.
  { exists (thread_turn w), (take k1 q), (Ok tt).
    split_and!; try assumption; try reflexivity; [left; reflexivity |].
    apply sublist_take. }
  destruct (thread_turn_advanced (thread_turn w)) as [k2 (Hq2 & _ & Hs2 & Ht2 & Hm2)].
  destruct (Hq2 _ Hq1') as [Hq2' Hk2].
  pose proof (thread_turn_same (thread_turn w)) as Hsame2.
  rewrite Hq2'. rewrite <- Hd1 in Hq2', Hk2 |- *.
  rewrite drop_drop in Hq2' |- *.
  rewrite Hk1, <- app_assoc, take_take_drop in Hk2.
  destruct (drop (k1 + k2) q) as [| x2 q2] eqn:Hd2.
  { exists (thread_turn (thread_turn w)), (take (k1 + k2) q),
      (Raise (NoModuleAttribute "janus" "QueueEmpty")).
    split_and!; try congruence; [right; reflexivity | apply sublist_take |].
    eapply same_session_trans; eassumption. }
  assert (Hlen2 : length q2 < fuel).
  { assert (Hl : length (x2 :: q2) <= length q)
      by (rewrite <- Hd2, length_drop; lia).
    cbn in Hl. lia. }
  destruct (IH (set_queue (Some q2) (thread_turn (thread_turn w))) q2 eq_refl Hlen2)
    as (w' & played & r & Hrun & Hr & Hempty & Hsub & Hsink & Hs3 & Ht3 & Hm3 & Hsame3).
  exists w', (take (k1 + k2) q ++ played), r.
  split_and!; try assumption.
  - rewrite <- (take_drop (k1 + k2) q) at 2. rewrite Hd2.
    apply sublist_app; [reflexivity |]. apply sublist_cons. assumption.
  - rewrite Hsink. cbn. rewrite Hk2, <- app_assoc. reflexivity.
  - rewrite Hs3. cbn. congruence.
  - rewrite Ht3. cbn. congruence.
  - rewrite Hm3. cbn. congruence.
  - eapply same_session_trans; [| exact Hsame3].
    eapply same_session_trans; [exact Hsame1 |].
    eapply same_session_trans; [exact Hsame2 |].
    unfold same_session. repeat split.
Qed.

(** While the playback thread gets no turn, the loop takes every frame off
    the queue and breaks where [empty()] tells it to. *)
Lemma drain_undisturbed (fuel : nat) (w : world) (q : list frame) :
  _queue (speaker w) = Some q ->
  sched w = [] ->
  length q < fuel ->
  exists w',
    drain fuel w = (Ok tt, w')
    /\ _queue (speaker w') = Some []
    /\ sink w' = sink w.
Proof.
  revert w q. induction fuel as [| fuel IH]; intros w q Hq Hsched Hlen; [lia |].
  cbn [drain]. unfold thread_turn. rewrite Hsched. cbn. rewrite Hsched. cbn.
  rewrite Hq. destruct q as [| x q].
  - exists w. split_and!; [reflexivity | exact Hq | reflexivity].
  - destruct (IH (set_queue (Some q) w) q eq_refl Hsched) as (w' & Hrun & Hempty & Hsink);
      [cbn in Hlen; lia |].
    exists w'. split_and!; assumption.
Qed.

(** A frame put on the queue goes behind what is queued; nothing is lost
    between the queue and the stream. *)
Lemma Speaker_play_spec (data : frame) (w : world) (q : list frame) :
  _queue (speaker w) = Some q ->
  exists w' q',
    Speaker_play data w = (Ok tt, w')
    /\ _queue (speaker w') = Some q'
    /\ sink w' ++ q' = sink w ++ q ++ [data]
    /\ _stop (speaker w') = _stop (speaker w)
    /\ _thread (speaker w') = _thread (speaker w)
    /\ _stream (speaker w') = _stream (speaker w)
    /\ trace w' = trace w ++ [Play data]
    /\ inbound w' = inbound w
    /\ ws_closed w' = ws_closed w
    /\ n_send w' = n_send w.
Proof.
  intros Hq. unfold Speaker_play.
  destruct (thread_turn_advanced w) as [k (Hq1 & _ & Hs1 & Ht1 & Hm1)].
  destruct (Hq1 q Hq) as [Hq1' Hk1].
  destruct (thread_turn_same w) as (Hin & Hcl & Hns & _ & _ & _ & _ & _ & _ & _ & _ & Htr & _).
  rewrite Hq1'. eexists _, (drop k q ++ [data]). split; [reflexivity |]. cbn.
  split_and!; try congruence.
  rewrite Hk1, <- !app_assoc. f_equal.
  rewrite app_assoc, take_drop. reflexivity.
Qed.

Lemma play_all_spec (frames : list frame) (w : world) (q : list frame) :
  _queue (speaker w) = Some q ->
  exists w' q',
    play_all frames w = (Ok tt, w')
    /\ _queue (speaker w') = Some q'
    /\ sink w' ++ q' = sink w ++ q ++ frames
    /\ _stop (speaker w') = _stop (speaker w)
    /\ _thread (speaker w') = _thread (speaker w).
Proof.
  revert w q. induction frames as [| data frames IH]; intros w q Hq.
  - exists w, q. cbn. rewrite app_nil_r. split_and!; reflexivity || assumption.
  - destruct (Speaker_play_spec data w q Hq)
      as (w1 & q1 & Hrun & Hq1 & Hk1 & Hs1 & Ht1 & _).
    destruct (IH w1 q1 Hq1) as (w2 & q2 & Hrun2 & Hq2 & Hk2 & Hs2 & Ht2).
    exists w2, q2. cbn [play_all foldr]. unfold bind at 1. rewrite Hrun.
    split_and!; try congruence.
    + exact Hrun2.
    + rewrite Hk2, app_assoc, Hk1, <- !app_assoc. reflexivity.
Qed.

(** While the stop event is not set, the playback thread writes the whole
    queue to the stream, in order. *)
Lemma _play_finishes (n : nat) (w : world) (q : list frame) :
  _stop (speaker w) = Some false ->
  _queue (speaker w) = Some q ->
  length q <= n ->
  _queue (speaker (Nat.iter n _play_iter w)) = Some []
  /\ sink (Nat.iter n _play_iter w) = sink w ++ q
  /\ _stop (speaker (Nat.iter n _play_iter w)) = Some false.
Proof.
  revert w q. induction n as [| n IH]; intros w q Hstop Hq Hlen.
  - destruct q; [| cbn in Hlen; lia]. cbn. rewrite app_nil_r. auto.
  - rewrite Nat.iter_succ_r.
    destruct q as [| data q].
    + assert (Hsame : _play_iter w = w) by (unfold _play_iter; rewrite Hstop, Hq; reflexivity).
      rewrite Hsame. apply IH; [assumption .. | cbn; lia].
    + assert (Hone : _play_iter w = set_sink (sink w ++ [data]) (set_queue (Some q) w))
        by (unfold _play_iter; rewrite Hstop, Hq; reflexivity).
      rewrite Hone.
      destruct (IH (set_sink (sink w ++ [data]) (set_queue (Some q) w)) q)
        as (H1 & H2 & H3); [exact Hstop | reflexivity | cbn in Hlen; lia |].
      split_and!; [exact H1 | | exact H3].
      rewrite H2. cbn. rewrite <- app_assoc. reflexivity.
Qed.

(** A [UserStartedSpeaking] message, in any state of the playback queue and
    whatever the playback thread does meanwhile, leaves the queue empty and
    the rest of the speaker as it was; but the dispatch goes on to the next
    message only when [Speaker.stop] left its loop at [empty()]: when the
    thread took the last frame from under it, the [AttributeError] of the
    [except] clause leaves the body of the loop. *)
Lemma barge_in_outcomes (E : Env) (text : string)
    (fields : list (string * json)) (q : list frame) (w : world) :
  json_loads E text = Some (JObj fields) ->
  dict_get fields "type" JNull = JStr "UserStartedSpeaking" ->
  _queue (speaker w) = Some q ->
  exists w' r,
    handle_message E (Text text) w = (r, w')
    /\ (r = Ok Next \/ r = Raise (NoModuleAttribute "janus" "QueueEmpty"))
    /\ _queue (speaker w') = Some []
    /\ _stop (speaker w') = _stop (speaker w)
    /\ _thread (speaker w') = _thread (speaker w)
    /\ _stream (speaker w') = _stream (speaker w)
    /\ (exists played, played `sublist_of` q /\ sink w' = sink w ++ played).
Proof.
  intros Hparse Htag Hq.
  set (w1 := set_n_clock (S (n_clock w)) (rejected text w)).
  destruct (drain_spec (S (length q)) w1 q Hq (Nat.lt_succ_diag_r _))
    as (w' & played & r & Hrun & Hr & Hempty & Hsub & Hsink & Hs & Ht & Hm & _).
  assert (Hstep : handle_message E (Text text) w
                  = match Speaker_stop w1 with
                    | (Ok _, w2) => (Ok Next, w2)
                    | (Raise e, w2) => (Raise e, w2)
                    | (Diverge, w2) => (Diverge, w2)
                    end).
  { unfold handle_message, loads, bind, log, update, py_get, now, ret, get.
    rewrite Hparse. cbn -[Speaker_stop]. rewrite Htag. reflexivity. }
  unfold w1 in Hsink, Hs, Ht, Hm. cbn in Hsink, Hs, Ht, Hm.
  exists w', (match r with
              | Ok _ => Ok Next
              | Raise e => Raise e
              | Diverge => Diverge
              end).
  split.
  { rewrite Hstep. unfold Speaker_stop.
    change (_queue (speaker w1)) with (_queue (speaker w)).
    rewrite Hq, Hrun. destruct Hr as [-> | ->]; reflexivity. }
  split_and!; try assumption.
  - destruct Hr as [-> | ->]; [left | right]; reflexivity.
  - exists played. split; assumption.
Qed.

(** C3, at an input on which the code breaks it.  One frame waits on the
    playback queue when [UserStartedSpeaking] arrives; [Speaker.stop] finds
    the queue not empty, and the playback thread takes the frame before
    [get_nowait()] is called.  [get_nowait] raises for the empty queue, the
    [except] clause names [janus.QueueEmpty], which the module does not have,
    and [AttributeError] leaves [Speaker.stop] and the body of the loop.  In
    the session, the barge-in so ends the receiver: the speaker is torn down,
    with its stop event set and its thread joined, the error is logged, and
    the frame that follows is never read, so nothing can be played after the
    barge-in. *)
Theorem barge_in_race_ends_receiver :
  let barge_in := Text (Demo.wire Demo.user_started_speaking) in
  let step := handle_message Demo.env barge_in
                (Demo.listening [] [Demo.frame1] [0; 1] false) in
  let session := receiver Demo.env
                   (Demo.listening [Binary Demo.frame1; barge_in; Binary Demo.frame2]
                      [] [0; 0; 1] false) in
  fst step = Raise (NoModuleAttribute "janus" "QueueEmpty")
  /\ _queue (speaker (snd step)) = Some []
  /\ fst session = Ok tt
  /\ speaker (snd session) = Speaker_init
  /\ inbound (snd session) = [Binary Demo.frame2]
  /\ sink (snd session) = [Demo.frame1]
  /\ logs (snd session)
     = [LogServer (Demo.wire Demo.user_started_speaking);
        LogError "Error in receiver" (NoModuleAttribute "janus" "QueueEmpty")].
Proof. vm_compute. split_and!; reflexivity. Qed.

End Playback_facts.

(** ** The call-termination sequence *)

Section Farewell_facts.
Context (E : Env).

Lemma speaking_started_by_object (inject : list (string * json)) (farewell : json)
    (text : string) (fields : list (string * json)) (w : world) :
  assoc "message" inject = Some farewell ->
  json_loads E text = Some (JObj fields) ->
  speaking_started_by E (JObj inject) text w
  = (Ok (announces_farewell E farewell fields), rejected text w).
Proof.
  intros Hmsg Hparse.
  unfold speaking_started_by, try_decode, loads, bind, log, update, py_get, subscript, ret.
  rewrite Hparse. cbn. unfold announces_farewell.
  destruct (is_str (dict_get fields "type" JNull) "AgentStartedSpeaking"); [reflexivity |].
  destruct (is_str (dict_get fields "type" JNull) "ConversationText"); [| reflexivity].
  destruct (is_str (dict_get fields "role" JNull) "assistant"); [| reflexivity].
  rewrite Hmsg. reflexivity.
Qed.

Lemma speaking_started_by_junk (inject_message : json) (text : string) (w : world) :
  json_loads E text = None ->
  speaking_started_by E inject_message text w = (Ok false, w).
Proof.
  intros Hparse.
  unfold speaking_started_by, try_decode, loads, bind, raise, ret.
  rewrite Hparse. reflexivity.
Qed.

Lemma audio_done_by_object (text : string) (fields : list (string * json)) (w : world) :
  json_loads E text = Some (JObj fields) ->
  audio_done_by E text w = (Ok (audio_is_done fields), rejected text w).
Proof.
  intros Hparse.
  unfold audio_done_by, try_decode, loads, bind, log, update, py_get, ret.
  rewrite Hparse. reflexivity.
Qed.

Lemma audio_done_by_junk (text : string) (w : world) :
  json_loads E text = None -> audio_done_by E text w = (Ok false, w).
Proof.
  intros Hparse.
  unfold audio_done_by, try_decode, loads, bind, raise, ret.
  rewrite Hparse. reflexivity.
Qed.

(** The first waiting loop passes over [before] and stops at the text that
    announces the farewell. *)
Lemma wait_speaking_started_spec (inject : list (string * json)) (farewell : json)
    (started : string) (fields : list (string * json)) (rest : list message)
    (before : list message) :
  assoc "message" inject = Some farewell ->
  json_loads E started = Some (JObj fields) ->
  announces_farewell E farewell fields = true ->
  Forall (passed_over E (announces_farewell E farewell)) before ->
  forall (fuel : nat) (w : world) (q : list frame),
    length before < fuel ->
    inbound w = before ++ Text started :: rest ->
    _queue (speaker w) = Some q ->
    exists w',
      wait_speaking_started E fuel (JObj inject) w = (Ok tt, w')
      /\ inbound w' = rest
      /\ trace w' = trace w ++ consumed before ++ [WsRecv (Text started)]
      /\ waiting_kept w w'.
Proof.
  intros Hmsg Hparse Hyes Hbefore.
  induction Hbefore as [| m before Hm _ IH]; intros fuel w q Hfuel Hin Hq.
  - destruct fuel as [| fuel]; [cbn in Hfuel; lia |].
    cbn [wait_speaking_started]. unfold bind at 1. unfold ws_recv.
    rewrite Hin. cbn [app]. unfold bind at 1.
    rewrite (speaking_started_by_object inject farewell started fields _ Hmsg Hparse).
    rewrite Hyes. eexists. split; [reflexivity |].
    cbn. unfold waiting_kept. cbn. split_and!; eauto.
  - destruct fuel as [| fuel]; [cbn in Hfuel; lia |].
    cbn in Hfuel. apply Nat.succ_lt_mono in Hfuel.
    cbn [wait_speaking_started]. unfold bind at 1. unfold ws_recv.
    rewrite Hin. cbn [app].
    set (w1 := set_trace (trace w ++ [WsRecv m]) (set_inbound (before ++ Text started :: rest) w)).
    destruct m as [text | data].
    + assert (Hskip : exists w2,
                 speaking_started_by E (JObj inject) text w1 = (Ok false, w2)
                 /\ inbound w2 = inbound w1 /\ trace w2 = trace w1
                 /\ speaker w2 = speaker w1 /\ ws_closed w2 = ws_closed w1
                 /\ n_send w2 = n_send w1).
      { destruct Hm as [Hjunk | (fields' & Hobj & Hno)].
        - exists w1. rewrite (speaking_started_by_junk _ _ _ Hjunk). auto 10.
        - exists (rejected text w1).
          rewrite (speaking_started_by_object inject farewell text fields' _ Hmsg Hobj), Hno.
          auto 10. }
      destruct Hskip as (w2 & Hrun & Hin2 & Htr2 & Hsp2 & Hcl2 & Hns2).
      unfold bind at 1. rewrite Hrun.
      unfold w1 in Hin2, Htr2, Hsp2, Hcl2, Hns2. cbn in Hin2, Htr2, Hsp2, Hcl2, Hns2.
      destruct (IH fuel w2 q Hfuel) as (w' & Hrun' & Hin' & Htr' & (Hq' & Hcl' & Hns'));
        [exact Hin2 | rewrite Hsp2; exact Hq |].
      exists w'. split; [exact Hrun' |]. split; [exact Hin' |].
      split; [rewrite Htr', Htr2; cbn; rewrite <- app_assoc; reflexivity |].
      unfold waiting_kept. split_and!; [exact Hq' | congruence | congruence].
    + destruct (Speaker_play_spec data w1 q Hq)
        as (w2 & q2 & Hrun & Hq2 & _ & _ & _ & _ & Htr2 & Hin2 & Hcl2 & Hns2).
      unfold bind at 1. rewrite Hrun.
      unfold w1 in Hin2, Htr2, Hcl2, Hns2. cbn in Hin2, Htr2, Hcl2, Hns2.
      destruct (IH fuel w2 q2 Hfuel) as (w' & Hrun' & Hin' & Htr' & (Hq' & Hcl' & Hns'));
        [exact Hin2 | exact Hq2 |].
      exists w'. split; [exact Hrun' |]. split; [exact Hin' |].
      split; [rewrite Htr', Htr2; cbn; rewrite <- !app_assoc; reflexivity |].
      unfold waiting_kept. split_and!; [exact Hq' | congruence | congruence].
Qed.



(** The converse direction: what must have happened when a computation
    ended well. *)













End Farewell_facts.

(** ** The capture callback *)

Section Capture_facts.

(** C7: whatever the frame and whatever the hand-over to the event loop
    meets (done, timed out, or any other exception), the callback raises
    nothing and returns [(input_data, paContinue)]; an error of the hand-over
    is logged, and nothing else is. *)
Theorem audio_callback_never_raises (input_data : frame) (frame_count : Z)
    (time_info : json) (status_flag : Z) (h : handoff) (w : world) :
  exists w',
    audio_callback input_data frame_count time_info status_flag h w
    = (Ok (input_data, paContinue), w')
    /\ logs w'
       = logs w ++ (if is_running w && loop_usable (loop w)
                    then match handoff_error h with
                         | Some e => [LogError "Error in audio callback" e]
                         | None => []
                         end
                    else []).
Proof.
  unfold audio_callback, bind, get, try_except, hand_over, update, raise, log, ret.
  destruct (is_running w && loop_usable (loop w)).
  - destruct h as [| | e]; eexists; (split; [reflexivity |]); cbn;
      rewrite ?app_nil_r; reflexivity.
  - eexists. split; [reflexivity |]. rewrite app_nil_r. reflexivity.
Qed.

(** C6, as the code has it: when the hand-over times out, the callback logs
    the error and returns [(input_data, paContinue)] at once; no queued frame
    is dropped, the queue is as it was; the captured frame stays with the
    event loop, which puts it behind all earlier frames when it gets to run. *)
Theorem handoff_timeout_keeps_queue (input_data : frame) (frame_count : Z)
    (time_info : json) (status_flag : Z) (w : world) :
  is_running w = true ->
  loop_usable (loop w) = true ->
  exists w',
    audio_callback input_data frame_count time_info status_flag HandoffTimeout w
    = (Ok (input_data, paContinue), w')
    /\ logs w' = logs w ++ [LogError "Error in audio callback" TimeoutError]
    /\ mic_audio_queue w' = mic_audio_queue w
    /\ scheduled w' = scheduled w ++ [input_data]
    /\ mic_audio_queue (loop_turn w')
       = mic_audio_queue w ++ scheduled w ++ [input_data].
Proof.
  intros Hrun Hloop.
  unfold audio_callback, bind, get, try_except, hand_over, update, raise, log, ret.
  rewrite Hrun, Hloop. cbn.
  eexists. split; [reflexivity |]. cbn. split_and!; reflexivity.
Qed.

End Capture_facts.

(** ** Start-up *)

Section Setup_facts.
Context (E : Env).

Lemma setup_returns (w : world) : exists ready w', setup E w = (Ok ready, w').
Proof.
  unfold setup, try_except, bind, ws_connect, ws_send, raise, emit, update, log, ret.
  destruct (DEEPGRAM_API_KEY E); [| eauto].
  destruct (connect_exn E); [eauto |]. cbn.
  destruct (ws_closed w || negb (send_ok E (n_send w))); eauto.
Qed.

(** C8: [setup] raises nothing and returns a boolean: [False] when the key
    is absent, when connecting fails, and when the settings cannot be sent;
    and when it returns [False], [run] returns at once, in the world [setup]
    left: the session is not marked running, the microphone, the sender and
    the receiver are not started, the speaker is not created; the only event
    there can be is the connection. *)
Theorem setup_failure_starts_nothing (w : world) :
  exists ready w',
    setup E w = (Ok ready, w')
    /\ (DEEPGRAM_API_KEY E = None -> ready = false)
    /\ (connect_exn E <> None -> ready = false)
    /\ (ws_closed w = true \/ send_ok E (n_send w) = false -> ready = false)
    /\ (ready = false ->
        run E w = (Ok tt, w')
        /\ is_running w' = is_running w
        /\ speaker w' = speaker w
        /\ mic_audio_queue w' = mic_audio_queue w
        /\ (trace w' = trace w
            \/ exists authorization,
                 trace w' = trace w ++ [WsConnect VOICE_AGENT_URL authorization])).
Proof.
  assert (Hrun : forall w', setup E w = (Ok false, w') -> run E w = (Ok tt, w')).
  { intros w' H. unfold run. rewrite (bind_ok _ _ _ _ _ H). reflexivity. }
  unfold setup in *.
  destruct (DEEPGRAM_API_KEY E) as [dg_api_key |] eqn:Hkey.
  - unfold try_except, bind, ws_connect, ws_send, raise, emit, update, log, ret in *.
    destruct (connect_exn E) as [e |] eqn:Hconn.
    + eexists _, _. split; [reflexivity |].
      split_and!; try reflexivity.
      intros _. split; [apply Hrun; reflexivity |]. cbn. auto.
    + cbn in *. destruct (ws_closed w) eqn:Hclosed; cbn in *.
      * eexists _, _. split; [reflexivity |].
        split_and!; try reflexivity.
        intros _. split; [apply Hrun; reflexivity |]. cbn. eauto 6.
      * destruct (send_ok E (n_send w)) eqn:Hsend; cbn in *.
        -- eexists _, _. split; [reflexivity |].
           split_and!; try discriminate; try congruence.
           intros [? | ?]; discriminate.
        -- eexists _, _. split; [reflexivity |].
           split_and!; try reflexivity.
           intros _. split; [apply Hrun; reflexivity |]. cbn. eauto 6.
  - unfold bind, log, update, ret in *.
    eexists _, _. split; [reflexivity |].
    split_and!; try reflexivity.
    intros _. split; [apply Hrun; reflexivity |]. cbn. auto.
Qed.

End Setup_facts.

(** ** No loop runs out of rounds *)

Section Totality.
Context (E : Env).

Lemma terminates_bind {A B} (m : M A) (k : A -> M B) (w : world) :
  terminates m w ->
  (forall a w', m w = (Ok a, w') -> terminates (k a) w') ->
  terminates (bind m k) w.
Proof.
  unfold terminates, bind. intros [Hm Hlen] Hk.
  destruct (m w) as [[a | e |] w1] eqn:Hrun; cbn in *.
  - destruct (Hk a w1 eq_refl) as [Hk1 Hk2]. split; [exact Hk1 | lia].
  - split; [discriminate | exact Hlen].
  - contradiction.
Qed.

Lemma total_bind {A B} (m : M A) (k : A -> M B) :
  total m -> (forall a, total (k a)) -> total (bind m k).
Proof. intros Hm Hk w. apply terminates_bind; [apply Hm | intros a w' _; apply Hk]. Qed.

Lemma total_ret {A} (a : A) : total (ret a).
Proof. intros w. split; [discriminate | reflexivity]. Qed.

Lemma total_raise {A} (e : exn) : total (@raise A e).
Proof. intros w. split; [discriminate | reflexivity]. Qed.

Lemma total_get : total get.
Proof. intros w. split; [discriminate | reflexivity]. Qed.

Lemma total_update (f : world -> world) :
  (forall w, inbound (f w) = inbound w) -> total (update f).
Proof. intros Hf w. split; [discriminate | cbn; rewrite Hf; reflexivity]. Qed.

Lemma total_log (r : log_record) : total (log r).
Proof. apply total_update. reflexivity. Qed.

Lemma total_emit (e : event) : total (emit e).
Proof. apply total_update. reflexivity. Qed.

Lemma total_now : total (now E).
Proof. intros w. split; [discriminate | reflexivity]. Qed.

Lemma total_try_except {A} (body : M A) (handle : exn -> M A) :
  total body -> (forall e, total (handle e)) -> total (try_except body handle).
Proof.
  intros Hb Hh w. unfold terminates, try_except.
  destruct (Hb w) as [Hb1 Hb2].
  destruct (body w) as [[a | e |] w1]; cbn in *.
  - split; [discriminate | exact Hb2].
  - destruct (Hh e w1) as [Hh1 Hh2]. split; [exact Hh1 | lia].
  - contradiction.
Qed.

Lemma total_try_decode {A} (body handle : M A) :
  total body -> total handle -> total (try_decode body handle).
Proof.
  intros Hb Hh w. unfold terminates, try_decode.
  destruct (Hb w) as [Hb1 Hb2].
  destruct (body w) as [[a | e |] w1]; cbn in *.
  - split; [discriminate | exact Hb2].
  - destruct (Hh w1) as [Hh1 Hh2].
    destruct e; cbn; try (split; [discriminate | exact Hb2]).
    split; [exact Hh1 | lia].
  - contradiction.
Qed.

Lemma total_try_finally {A} (body : M A) (final : M unit) :
  total body -> total final -> total (try_finally body final).
Proof.
  intros Hb Hf w. unfold terminates, try_finally.
  destruct (Hb w) as [Hb1 Hb2].
  destruct (body w) as [[a | e |] w1]; cbn in *; try contradiction;
    destruct (Hf w1) as [Hf1 Hf2];
    destruct (final w1) as [[[] | e' |] w2]; cbn in *; try contradiction;
    (split; [discriminate | lia]).
Qed.

Lemma total_ws_send (payload : json) : total (ws_send E payload).
Proof.
  intros w. unfold terminates, ws_send.
  destruct (ws_closed w || negb (send_ok E (n_send w))); cbn;
    (split; [discriminate | reflexivity]).
Qed.

Lemma total_ws_close (timeout : option Q) : total (ws_close timeout).
Proof. intros w. split; [discriminate | reflexivity]. Qed.

Lemma total_ws_recv : total ws_recv.
Proof.
  intros w.
  unfold terminates, ws_recv. destruct (inbound w) as [| m rest] eqn:Hin; cbn;
    rewrite ?Hin; cbn; (split; [discriminate | lia]).
Qed.

Lemma total_ws_next : total ws_next.
Proof.
  intros w.
  unfold terminates, ws_next. destruct (inbound w) as [| m rest] eqn:Hin; cbn;
    rewrite ?Hin; cbn; (split; [discriminate | lia]).
Qed.

Lemma total_Speaker_play (data : frame) : total (Speaker_play data).
Proof.
  intros w. unfold terminates, Speaker_play.
  destruct (thread_turn_same w) as (Hin & _).
  destruct (_queue (speaker (thread_turn w))); cbn; rewrite Hin;
    (split; [discriminate | reflexivity]).
Qed.

Lemma total_Speaker_stop : total Speaker_stop.
Proof.
  intros w. unfold terminates, Speaker_stop.
  destruct (_queue (speaker w)) as [q |] eqn:Hq.
  - destruct (drain_spec (S (length q)) w q Hq (Nat.lt_succ_diag_r _))
      as (w' & played & r & Hrun & Hr & _ & _ & _ & _ & _ & _ & (Hin & _)).
    rewrite Hrun. cbn. rewrite Hin.
    split; [destruct Hr as [-> | ->]; discriminate | reflexivity].
  - split; [discriminate | reflexivity].
Qed.

Lemma total_loads (text : string) : total (loads E text).
Proof. unfold loads. destruct (json_loads E text); [apply total_ret | apply total_raise]. Qed.

Lemma total_py_get (v : json) (key : string) (dflt : json) : total (py_get v key dflt).
Proof. destruct v; first [apply total_ret | apply total_raise]. Qed.

Lemma total_subscript (v : json) (key : string) : total (subscript v key).
Proof.
  destruct v; try apply total_raise. cbn.
  destruct (assoc key fields); [apply total_ret | apply total_raise].
Qed.

Lemma total_call (func : handler) (parameters : json) : total (call func parameters).
Proof. unfold call. destruct (func parameters); [apply total_ret | apply total_raise]. Qed.

Lemma total_FUNCTION_MAP_get (function_name : json) : total (FUNCTION_MAP_get E function_name).
Proof. destruct function_name; first [apply total_ret | apply total_raise]. Qed.

Lemma total_shrinks {A} (m : M A) (w w' : world) (r : result A) :
  total m -> m w = (r, w') -> length (inbound w') <= length (inbound w).
Proof. intros Hm Hrun. destruct (Hm w) as [_ H]. rewrite Hrun in H. exact H. Qed.

Lemma ws_recv_ok (w w' : world) (m : message) :
  ws_recv w = (Ok m, w') -> inbound w = m :: inbound w'.
Proof.
  unfold ws_recv. destruct (inbound w) as [| m0 rest]; [discriminate |].
  intros [= <- <-]. reflexivity.
Qed.

Lemma ws_next_ok (w w' : world) (m : message) :
  ws_next w = (Ok (Some m), w') -> inbound w = m :: inbound w'.
Proof.
  unfold ws_next. destruct (inbound w) as [| m0 rest]; [discriminate |].
  intros [= <- <-]. reflexivity.
Qed.

(** Split a computation into its steps, each of which ends. *)
Ltac totality :=
  repeat match goal with
    | |- forall _ : _, total _ => intro
    | |- total (bind _ _) => apply total_bind
    | |- total (try_decode _ _) => apply total_try_decode
    | |- total (try_except _ _) => apply total_try_except
    | |- total (try_finally _ _) => apply total_try_finally
    | |- total (ret _) => apply total_ret
    | |- total (raise _) => apply total_raise
    | |- total get => apply total_get
    | |- total (log _) => apply total_log
    | |- total (emit _) => apply total_emit
    | |- total (update _) => apply total_update; reflexivity
    | |- total (now _) => apply total_now
    | |- total (ws_send _ _) => apply total_ws_send
    | |- total (ws_close _) => apply total_ws_close
    | |- total ws_recv => apply total_ws_recv
    | |- total ws_next => apply total_ws_next
    | |- total (Speaker_play _) => apply total_Speaker_play
    | |- total Speaker_stop => apply total_Speaker_stop
    | |- total (loads _ _) => apply total_loads
    | |- total (py_get _ _ _) => apply total_py_get
    | |- total (subscript _ _) => apply total_subscript
    | |- total (call _ _) => apply total_call
    | |- total (FUNCTION_MAP_get _ _) => apply total_FUNCTION_MAP_get
    | |- total (match ?x with _ => _ end) => destruct x
    | |- total (if ?b then _ else _) => destruct b
    end.

Lemma total_inject_agent_message (inject_message : json) :
  total (inject_agent_message E inject_message).
Proof. unfold inject_agent_message. totality. Qed.

Lemma total_close_websocket_with_timeout : total (close_websocket_with_timeout E).
Proof. unfold close_websocket_with_timeout. totality. Qed.

Lemma total_speaking_started_by (inject_message : json) (text : string) :
  total (speaking_started_by E inject_message text).
Proof. unfold speaking_started_by. totality. Qed.

Lemma total_audio_done_by (text : string) : total (audio_done_by E text).
Proof. unfold audio_done_by. totality. Qed.

(** A waiting loop that is given more rounds than there are messages to
    come ends: by its test, or by the exception of [ws.recv] on the closed
    connection. *)
Lemma wait_speaking_started_terminates (inject_message : json) (fuel : nat) (w : world) :
  length (inbound w) < fuel ->
  terminates (wait_speaking_started E fuel inject_message) w.
Proof.
  revert w. induction fuel as [| fuel IH]; intros w Hlt; [lia |].
  cbn [wait_speaking_started].
  apply terminates_bind; [apply total_ws_recv |].
  intros m w1 Hrecv. apply ws_recv_ok in Hrecv.
  assert (Hlt1 : length (inbound w1) < fuel) by (rewrite Hrecv in Hlt; cbn in Hlt; lia).
  destruct m as [text | data].
  - apply terminates_bind; [apply total_speaking_started_by |].
    intros started w2 Hrun. destruct started; [apply total_ret |].
    apply IH. pose proof (total_shrinks _ _ _ _ (total_speaking_started_by _ _) Hrun). lia.
  - apply terminates_bind; [apply total_Speaker_play |].
    intros [] w2 Hrun.
    apply IH. pose proof (total_shrinks _ _ _ _ (total_Speaker_play _) Hrun). lia.
Qed.

Lemma wait_audio_done_terminates (fuel : nat) (w : world) :
  length (inbound w) < fuel -> terminates (wait_audio_done E fuel) w.
Proof.
  revert w. induction fuel as [| fuel IH]; intros w Hlt; [lia |].
  cbn [wait_audio_done].
  apply terminates_bind; [apply total_ws_recv |].
  intros m w1 Hrecv. apply ws_recv_ok in Hrecv.
  assert (Hlt1 : length (inbound w1) < fuel) by (rewrite Hrecv in Hlt; cbn in Hlt; lia).
  destruct m as [text | data].
  - apply terminates_bind; [apply total_audio_done_by |].
    intros done w2 Hrun. destruct done; [apply total_ret |].
    apply IH. pose proof (total_shrinks _ _ _ _ (total_audio_done_by _) Hrun). lia.
  - apply terminates_bind; [apply total_Speaker_play |].
    intros [] w2 Hrun.
    apply IH. pose proof (total_shrinks _ _ _ _ (total_Speaker_play _) Hrun). lia.
Qed.

Lemma total_wait_for_farewell_completion (inject_message : json) :
  total (wait_for_farewell_completion E inject_message).
Proof.
  unfold wait_for_farewell_completion.
  apply total_bind; [apply total_inject_agent_message | intros _].
  apply total_bind; [| intros _].
  { intros w. apply terminates_bind; [apply total_get |].
    intros w0 w' [= <- <-]. apply wait_speaking_started_terminates. lia. }
  apply total_bind; [| intros _; apply total_emit].
  intros w. apply terminates_bind; [apply total_get |].
  intros w0 w' [= <- <-]. apply wait_audio_done_terminates. lia.
Qed.

Lemma total_function_call_request (fields : list (string * json)) :
  total (function_call_request E fields).
Proof.
  unfold function_call_request.
  repeat first [ apply total_wait_for_farewell_completion
               | apply total_close_websocket_with_timeout
               | apply total_inject_agent_message
               | progress totality ].
Qed.

Lemma total_handle_message (m : message) : total (handle_message E m).
Proof.
  unfold handle_message. destruct m as [text | data]; [| totality].
  repeat first [ apply total_function_call_request | progress totality ].
Qed.

(** The loop of the receiver, given more rounds than there are messages to
    come, ends. *)
Lemma receiver_loop_terminates (fuel : nat) (w : world) :
  length (inbound w) < fuel -> terminates (receiver_loop E fuel) w.
Proof.
  revert w. induction fuel as [| fuel IH]; intros w Hlt; [lia |].
  cbn [receiver_loop].
  apply terminates_bind; [apply total_ws_next |].
  intros [m |] w1 Hnext; [| apply total_ret].
  apply ws_next_ok in Hnext.
  assert (Hlt1 : length (inbound w1) < fuel) by (rewrite Hnext in Hlt; cbn in Hlt; lia).
  apply terminates_bind; [apply total_handle_message |].
  intros c w2 Hrun. destruct c; [| apply total_ret].
  apply IH. pose proof (total_shrinks _ _ _ _ (total_handle_message _) Hrun). lia.
Qed.



End Totality.

(** ** The invariant of one response per call *)

(** C1, at the input on which the code breaks it: the request for [end_call]
    with call id 1 is answered; during the wait for the farewell the peer sends
    the text [[]], JSON but no object, whose [.get] raises inside the [try] of
    the dispatcher; the handler of that [try] then sends a second response
    for the same call id, with the error as its output. *)
Theorem end_call_answered_twice :
  let session := receiver Demo.env
                   (Demo.start [Text (Demo.wire Demo.end_call_request); Text "[]"]) in
  fst session = Ok tt
  /\ responses_to "1" (trace (snd session))
     = [FunctionCallResponse (JStr "1")
          (Demo.wire (JObj [("status", JStr "closing");
                            ("message", JStr "Thank you for calling! Have a great day!")]));
        FunctionCallResponse (JStr "1")
          (Demo.wire (JObj [("error", JStr "'list' object has no attribute 'get'")]))]
  /\ length (responses_to "1" (trace (snd session))) = 2.
Proof. vm_compute. split_and!; reflexivity. Qed.

(** ** The properties on the concrete session *)

(** With the key, a peer that accepts the settings and a microphone, [run]
    does start the pipelines; here the peer closes the connection at once and
    a captured frame is still pending, which wakes the sender: its send finds
    the connection closed, the sender returns, and [run] gets to clean up. *)
Example run_starts_pipelines :
  let session := run Demo.env (Scenes.capturing [] [Demo.frame1] false) in
  fst session = Ok tt
  /\ trace (snd session)
     = [WsConnect VOICE_AGENT_URL "Token key";
        WsSend (with_instructions PROMPT_TEMPLATE (SETTINGS Demo.env));
        MicrophoneStarted; SenderStarted; ReceiverStarted; Cleanup; WsClose None]
  /\ logs (snd session) = [LogError "Error in sender" ConnectionClosed].
Proof. vm_compute. split_and!; reflexivity. Qed.

(** An ordinary session: the request for an unknown function is answered
    once, and the receiver goes on to play the frame that follows. *)
Example unknown_function_session :
  trace (snd (receiver Demo.env
                (Demo.start [Text (Demo.wire Demo.unknown_request); Binary Demo.frame1])))
  = [WsRecv (Text (Demo.wire Demo.unknown_request));
     WsSend (FunctionCallResponse (JStr "7")
               (Demo.wire (JObj [("error", JStr "Function get_weather not found")])));
     WsRecv (Binary Demo.frame1); Play Demo.frame1].
Proof. vm_compute. reflexivity. Qed.

Lemma unknown_tag_ignored_witness :
  handle_message Demo.env (Text (Demo.wire Demo.prompt_updated))
    (Demo.listening [] [] [] false)
  = (Ok Next, ignored (Demo.wire Demo.prompt_updated) (Demo.listening [] [] [] false)).
Proof.
  refine (proj1 (unknown_tag_ignored Demo.env (Demo.wire Demo.prompt_updated)
                   [("type", JStr "PromptUpdated")] (Demo.listening [] [] [] false) _ _)).
  - vm_compute. reflexivity.
  - intros tag Hin Heq. cbn in Heq. injection Heq as <-.
    cbn in Hin. intuition discriminate.
Defined.

Lemma invalid_json_ends_receiver_witness :
  receiver Demo.env (Demo.start [Text "junk"; Binary Demo.frame1])
  = (Ok tt, given_up JSONDecodeError
              (rejected "junk"
                 (taken (Text "junk") [Binary Demo.frame1]
                    (prepared (Demo.start [Text "junk"; Binary Demo.frame1]))))).
Proof.
  refine (proj2 (proj2 (invalid_json_ends_receiver Demo.env "junk"
                          (Demo.start [Text "junk"; Binary Demo.frame1]) _))
            [Binary Demo.frame1] _ _).
  - vm_compute. reflexivity.
  - reflexivity.
  - reflexivity.
Defined.

Lemma decision_latency_witness :
  handle_message Demo.env (Text (Demo.wire Demo.function_calling))
    (Demo.listening [] [] [] true)
  = (Ok Next,
     set_n_clock 1
       (set_logs [LogServer (Demo.wire Demo.function_calling); LogChainLatency 5]
          (Demo.listening [] [] [] true))).
Proof.
  refine (proj1 (decision_latency Demo.env (Demo.wire Demo.function_calling)
                   [("type", JStr "FunctionCalling")] (Demo.listening [] [] [] true) _ _)
            995%Z _ _ _).
  - vm_compute. reflexivity.
  - reflexivity.
  - reflexivity.
  - reflexivity.
  - reflexivity.
Defined.

Lemma unknown_function_answered_witness :
  exists w',
    handle_message Demo.env (Text (Demo.wire Demo.unknown_request))
      (Demo.listening [] [] [] false) = (Ok Next, w')
    /\ trace w'
       = [WsSend (FunctionCallResponse (JStr "7")
                    (Demo.wire (JObj [("error", JStr "Function get_weather not found")])))]
    /\ occurs_in "get_weather" "Function get_weather not found".
Proof.
  destruct (unknown_function_answered Demo.env (Demo.wire Demo.unknown_request)
              [("type", JStr "FunctionCallRequest");
               ("function_name", JStr "get_weather");
               ("function_call_id", JStr "7");
               ("input", JObj [])]
              "get_weather" (Demo.listening [] [] [] false))
    as (w' & Hrun & Htrace & Hoccurs & _).
  - vm_compute. reflexivity.
  - reflexivity.
  - reflexivity.
  - vm_compute. reflexivity.
  - reflexivity.
  - reflexivity.
  - exists w'. split_and!; assumption.
Defined.


Lemma handoff_timeout_keeps_queue_witness :
  exists w',
    audio_callback Demo.frame3 2400 JNull 0 HandoffTimeout Demo.capturing
    = (Ok (Demo.frame3, paContinue), w')
    /\ mic_audio_queue w' = [Demo.frame1; Demo.frame2]
    /\ mic_audio_queue (loop_turn w') = [Demo.frame1; Demo.frame2; Demo.frame3].
Proof.
  destruct (handoff_timeout_keeps_queue Demo.frame3 2400 JNull 0 Demo.capturing)
    as (w' & Hrun & _ & Hqueue & _ & Hlater).
  - reflexivity.
  - reflexivity.
  - exists w'. split_and!; assumption.
Defined.

(** No frame is dropped for a newer one: with two frames queued, a hand-over
    that times out leaves both in the queue, the oldest first, and the new
    frame comes behind them once the event loop runs. *)
Lemma handoff_timeout_drops_nothing :
  let w' := snd (audio_callback Demo.frame3 2400 JNull 0 HandoffTimeout Demo.capturing) in
  mic_audio_queue w' = [Demo.frame1; Demo.frame2]
  /\ mic_audio_queue (loop_turn w') = [Demo.frame1; Demo.frame2; Demo.frame3]
  /\ ~ drops_oldest_on_timeout.
Proof.
  split_and!; [reflexivity | reflexivity |].
  intros Hdrops.
  specialize (Hdrops Demo.frame3 2400%Z JNull 0%Z Demo.capturing eq_refl eq_refl).
  vm_compute in Hdrops. discriminate Hdrops.
Qed.

Lemma setup_failure_starts_nothing_witness :
  run Demo.env_without_key (Demo.start []) = (Ok tt, set_logs [LogNoApiKey] (Demo.start [])).
Proof.
  destruct (setup_failure_starts_nothing Demo.env_without_key (Demo.start []))
    as (ready & w' & Hsetup & Hkey & _ & _ & Hrun).
  rewrite (proj1 (Hrun (Hkey eq_refl))).
  vm_compute in Hsetup. injection Hsetup as _ <-. reflexivity.
Defined.

(** * More of the program *)

(** ** The other branches of the receiver *)

Section Branch_facts.
Context (E : Env).

(** One round of the loop of the receiver, by how its body ends. *)
Lemma receiver_loop_next (m : message) (rest : list message) (fuel : nat)
    (w w1 : world) :
  inbound w = m :: rest ->
  handle_message E m (taken m rest w) = (Ok Next, w1) ->
  receiver_loop E (S fuel) w = receiver_loop E fuel w1.
Proof.
  intros Hin Hstep. cbn [receiver_loop]. unfold bind at 1. unfold ws_next. rewrite Hin.
  unfold bind at 1. fold (taken m rest w). rewrite Hstep. reflexivity.
Qed.

Lemma receiver_loop_break (m : message) (rest : list message) (fuel : nat)
    (w w1 : world) :
  inbound w = m :: rest ->
  handle_message E m (taken m rest w) = (Ok Brk, w1) ->
  receiver_loop E (S fuel) w = (Ok tt, w1).
Proof.
  intros Hin Hstep. cbn [receiver_loop]. unfold bind at 1. unfold ws_next. rewrite Hin.
  unfold bind at 1. fold (taken m rest w). rewrite Hstep. reflexivity.
Qed.

Lemma receiver_loop_raise (m : message) (rest : list message) (fuel : nat)
    (w w1 : world) (e : exn) :
  inbound w = m :: rest ->
  handle_message E m (taken m rest w) = (Raise e, w1) ->
  receiver_loop E (S fuel) w = (Raise e, w1).
Proof.
  intros Hin Hstep. cbn [receiver_loop]. unfold bind at 1. unfold ws_next. rewrite Hin.
  unfold bind at 1. fold (taken m rest w). rewrite Hstep. reflexivity.
Qed.

(** The branch of [FunctionCalling], as a function of the world it meets. *)
Lemma handle_function_calling (text : string) (fields : list (string * json))
    (w : world) :
  json_loads E text = Some (JObj fields) ->
  dict_get fields "type" JNull = JStr "FunctionCalling" ->
  handle_message E (Text text) w
  = (let t1 := time_time E (n_clock w) in
     let w1 := set_n_clock (S (n_clock w)) (rejected text w) in
     if in_function_chain w && timestamp_exists (last_function_response_time w)
     then (Ok Next,
           set_logs (logs w1 ++ [LogChainLatency
                                   (since (last_function_response_time w) t1)]) w1)
     else if timestamp_exists (last_user_message w)
     then (Ok Next,
           set_in_function_chain true
             (set_logs (logs w1 ++ [LogInitialLatency
                                      (since (last_user_message w) t1)]) w1))
     else (Ok Next, w1)).
Proof.
  intros Hparse Htag.
  unfold handle_message, loads, bind, log, update, py_get, now, ret, get.
  rewrite Hparse. cbn. rewrite Htag. cbn.
  destruct (in_function_chain w && timestamp_exists (last_function_response_time w));
    [reflexivity |].
  destruct (timestamp_exists (last_user_message w)); reflexivity.
Qed.

(** The branch of [ConversationText] for a text of the user. *)
Lemma handle_user_text (text : string) (fields : list (string * json)) (w : world) :
  json_loads E text = Some (JObj fields) ->
  dict_get fields "type" JNull = JStr "ConversationText" ->
  dict_get fields "role" JNull = JStr "user" ->
  handle_message E (Text text) w
  = (Ok Next,
     set_in_function_chain false
       (set_last_user_message (Some (time_time E (n_clock w)))
          (set_trace (trace w ++ [Emit "conversation_update" (JObj fields)])
             (set_n_clock (S (n_clock w)) (rejected text w))))).
Proof.
  intros Hparse Htag Hrole.
  unfold handle_message, loads, bind, log, update, py_get, now, ret, get, emit.
  rewrite Hparse. cbn. rewrite Htag. cbn. rewrite Hrole. reflexivity.
Qed.

(** X1: Every [ConversationText] is forwarded as it is to the notification
    channel; the time of the last user utterance moves only on a text of the
    user, to the reading taken for this message; the chain flag is reset by a
    text of the user or of the assistant and by no other role; nothing else
    of the session changes. *)
Theorem conversation_text_bookkeeping (text : string) (fields : list (string * json))
    (w : world) :
  json_loads E text = Some (JObj fields) ->
  dict_get fields "type" JNull = JStr "ConversationText" ->
  let role := dict_get fields "role" JNull in
  exists w',
    handle_message E (Text text) w = (Ok Next, w')
    /\ trace w' = trace w ++ [Emit "conversation_update" (JObj fields)]
    /\ last_user_message w'
       = (if is_str role "user" then Some (time_time E (n_clock w))
          else last_user_message w)
    /\ in_function_chain w'
       = (if is_str role "user" || is_str role "assistant" then false
          else in_function_chain w)
    /\ last_function_response_time w' = last_function_response_time w
    /\ logs w' = logs w ++ [LogServer text]
    /\ speaker w' = speaker w /\ inbound w' = inbound w
    /\ is_running w' = is_running w.
Proof.
  intros Hparse Htag role.
  unfold handle_message, loads, bind, log, update, py_get, now, ret, get, emit.
  rewrite Hparse. cbn. rewrite Htag. cbn. fold role.
  destruct (is_str role "user"); [eexists; split; [reflexivity |]; cbn; split_and!; reflexivity |].
  destruct (is_str role "assistant"); eexists; (split; [reflexivity |]); cbn;
    split_and!; reflexivity.
Qed.

(** X2: A text of the user followed by [FunctionCalling]: whatever the chain
    flag and the timestamps were before, the latency logged is the initial
    one, the difference of the clock readings taken for the two messages, and
    the chain flag is set; the loop goes on with the messages that follow. *)
Theorem utterance_then_function_calling (utterance calling : string)
    (said announced : list (string * json)) (rest : list message)
    (fuel : nat) (w : world) :
  json_loads E utterance = Some (JObj said) ->
  dict_get said "type" JNull = JStr "ConversationText" ->
  dict_get said "role" JNull = JStr "user" ->
  json_loads E calling = Some (JObj announced) ->
  dict_get announced "type" JNull = JStr "FunctionCalling" ->
  inbound w = Text utterance :: Text calling :: rest ->
  time_time E (n_clock w) <> 0%Z ->
  exists w',
    receiver_loop E (S (S fuel)) w = receiver_loop E fuel w'
    /\ logs w'
       = logs w ++ [LogServer utterance; LogServer calling;
                    LogInitialLatency (time_time E (S (n_clock w)) - time_time E (n_clock w))]
    /\ in_function_chain w' = true
    /\ last_user_message w' = Some (time_time E (n_clock w))
    /\ inbound w' = rest.
Proof.
  intros Hp1 Ht1 Hrole Hp2 Ht2 Hin Hclock.
  assert (Hex : negb (time_time E (n_clock w) =? 0)%Z = true)
    by (apply negb_true_iff, Z.eqb_neq; exact Hclock).
  eexists. split.
  - rewrite (receiver_loop_next _ _ _ _ _ Hin
               (handle_user_text utterance said _ Hp1 Ht1 Hrole)).
    apply receiver_loop_next with (m := Text calling) (rest := rest); [reflexivity |].
    rewrite (handle_function_calling calling announced _ Hp2 Ht2).
    cbn. rewrite Hex. cbn. reflexivity.
  - cbn. split_and!; try reflexivity.
    unfold since. cbn. list_normal. reflexivity.
Qed.

(** X3: [CloseConnection] ends the loop: the websocket is closed, the messages
    that follow stay unread, and [receiver] returns with the speaker torn
    down. *)
Theorem close_connection_ends_receiver (text : string) (fields : list (string * json))
    (rest : list message) (w : world) :
  json_loads E text = Some (JObj fields) ->
  dict_get fields "type" JNull = JStr "CloseConnection" ->
  inbound w = Text text :: rest ->
  (forall fuel,
      exists w',
        receiver_loop E (S fuel) w = (Ok tt, w')
        /\ trace w' = trace w ++ [WsRecv (Text text); WsClose None]
        /\ ws_closed w' = true
        /\ inbound w' = rest
        /\ logs w' = logs w ++ [LogServer text; LogClosing])
  /\ (audio_out_exn E = None ->
      exists w',
        receiver E w = (Ok tt, w')
        /\ trace w' = trace w ++ [WsRecv (Text text); WsClose None]
        /\ inbound w' = rest
        /\ speaker w' = Speaker_init).
Proof.
  intros Hparse Htag Hin.
  assert (Hloop : forall w0 fuel,
             inbound w0 = Text text :: rest ->
             exists w',
               receiver_loop E (S fuel) w0 = (Ok tt, w')
               /\ trace w' = trace w0 ++ [WsRecv (Text text); WsClose None]
               /\ ws_closed w' = true
               /\ inbound w' = rest
               /\ logs w' = logs w0 ++ [LogServer text; LogClosing]).
  { intros w0 fuel Hin0. eexists. split.
    - cbn [receiver_loop]. unfold bind at 1. unfold ws_next at 1. rewrite Hin0.
      unfold handle_message, loads, bind, log, update, py_get, now, ret, get, ws_close.
      rewrite Hparse. cbn. rewrite Htag. cbn. reflexivity.
    - cbn. split_and!; try reflexivity; list_normal; reflexivity. }
  split; [intros fuel; apply Hloop; exact Hin |].
  intros Hout. rewrite (receiver_unfold E w Hout).
  destruct (Hloop (prepared w) (length (inbound w)) Hin)
    as (w' & Hrun & Htr & _ & Hin' & _).
  rewrite Hrun. eexists. split; [reflexivity |]. cbn.
  split_and!; [exact Htr | exact Hin' | reflexivity].
Qed.

(** X4: A text that is JSON but no object (a list, a string, a number, [null])
    makes the body of the loop raise [AttributeError] on [.get]; the loop
    hands it on and [receiver] returns, with every later message unread. *)
Theorem non_object_json_ends_receiver (text : string) (v : json) (w : world) :
  json_loads E text = Some v ->
  (forall fields, v <> JObj fields) ->
  handle_message E (Text text) w = (Raise (NoAttribute v "get"), rejected text w)
  /\ (forall rest,
        inbound w = Text text :: rest ->
        audio_out_exn E = None ->
        receiver E w
        = (Ok tt, given_up (NoAttribute v "get")
                    (rejected text (taken (Text text) rest (prepared w))))).
Proof.
  intros Hparse Hshape.
  assert (Hstep : forall w0,
             handle_message E (Text text) w0
             = (Raise (NoAttribute v "get"), rejected text w0)).
  { intros w0. unfold handle_message, loads, bind, log, update, py_get, raise, ret.
    rewrite Hparse. destruct v; try reflexivity. destruct (Hshape fields eq_refl). }
  split; [apply Hstep |].
  intros rest Hin Hout. rewrite (receiver_unfold E w Hout).
  assert (Hloop : receiver_loop E (S (length (inbound w))) (prepared w)
                  = (Raise (NoAttribute v "get"),
                     rejected text (taken (Text text) rest (prepared w)))).
  { cbn [receiver_loop]. unfold bind at 1. unfold ws_next.
    change (inbound (prepared w)) with (inbound w). rewrite Hin.
    unfold bind at 1. fold (taken (Text text) rest (prepared w)).
    rewrite Hstep. reflexivity. }
  rewrite Hloop. reflexivity.
Qed.

End Branch_facts.

(** ** The other paths of the dispatcher *)

Section Dispatch_facts.
Context (E : Env).

(** A request for a registered function other than [agent_filler] and
    [end_call], in full. *)
Lemma handle_ordinary_call (text : string) (fields : list (string * json))
    (name : string) (func : handler) (w : world) :
  json_loads E text = Some (JObj fields) ->
  dict_get fields "type" JNull = JStr "FunctionCallRequest" ->
  dict_get fields "function_name" JNull = JStr name ->
  name <> "agent_filler" ->
  name <> "end_call" ->
  FUNCTION_MAP E !! name = Some func ->
  ws_closed w = false ->
  send_ok E (n_send w) = true ->
  exists w',
    handle_message E (Text text) w = (Ok Next, w')
    /\ trace w'
       = trace w
         ++ [WsSend (FunctionCallResponse
                       (dict_get fields "function_call_id" JNull)
                       (match func (dict_get fields "input" (JObj [])) with
                        | Returned v => json_dumps E v
                        | Failed e => json_dumps E (JObj [("error", JStr (str_exn E e))])
                        end))]
    /\ last_function_response_time w'
       = match func (dict_get fields "input" (JObj [])) with
         | Returned _ => Some (time_time E (3 + n_clock w))
         | Failed _ => last_function_response_time w
         end
    /\ n_clock w'
       = match func (dict_get fields "input" (JObj [])) with
         | Returned _ => 4 + n_clock w
         | Failed _ => 2 + n_clock w
         end
    /\ (exists added, logs w' = logs w ++ added)
    /\ in_function_chain w' = in_function_chain w
    /\ last_user_message w' = last_user_message w
    /\ inbound w' = inbound w
    /\ ws_closed w' = false
    /\ is_running w' = is_running w.
Proof.
  intros Hparse Htag Hname Hfiller Hend Hmap Hopen Hsend.
  unfold handle_message, loads, bind, log, update, py_get, now, ret, get.
  rewrite Hparse. cbn. rewrite Htag. cbn.
  unfold function_call_request, try_except, bind, log, update, now, FUNCTION_MAP_get, call.
  rewrite Hname. cbn. rewrite Hmap.
  apply String.eqb_neq in Hfiller, Hend. rewrite Hfiller, Hend. cbn.
  destruct (func (dict_get fields "input" (JObj []))) as [v | e]; cbn;
    unfold ws_send; cbn; rewrite Hopen, Hsend; cbn;
    eexists; (split; [reflexivity |]); cbn;
    (split_and!; try reflexivity; try assumption);
    eexists; list_normal; reflexivity.
Qed.

(** X5: An ordinary handler is answered once, by its result or by its error;
    only an answer that carries a result moves the time of the last function
    response, to the clock reading taken after the response went out; an
    error answer leaves it where it was. *)
Theorem ordinary_call_outcome (text : string) (fields : list (string * json))
    (name : string) (func : handler) (w : world) :
  json_loads E text = Some (JObj fields) ->
  dict_get fields "type" JNull = JStr "FunctionCallRequest" ->
  dict_get fields "function_name" JNull = JStr name ->
  name <> "agent_filler" ->
  name <> "end_call" ->
  FUNCTION_MAP E !! name = Some func ->
  ws_closed w = false ->
  send_ok E (n_send w) = true ->
  exists w',
    handle_message E (Text text) w = (Ok Next, w')
    /\ trace w'
       = trace w
         ++ [WsSend (FunctionCallResponse
                       (dict_get fields "function_call_id" JNull)
                       (match func (dict_get fields "input" (JObj [])) with
                        | Returned v => json_dumps E v
                        | Failed e => json_dumps E (JObj [("error", JStr (str_exn E e))])
                        end))]
    /\ last_function_response_time w'
       = match func (dict_get fields "input" (JObj [])) with
         | Returned _ => Some (time_time E (3 + n_clock w))
         | Failed _ => last_function_response_time w
         end
    /\ in_function_chain w' = in_function_chain w
    /\ is_running w' = is_running w.
Proof.
  intros Hparse Htag Hname Hfiller Hend Hmap Hopen Hsend.
  destruct (handle_ordinary_call text fields name func w
              Hparse Htag Hname Hfiller Hend Hmap Hopen Hsend)
    as (w' & Hrun & Htr & Hlast & _ & _ & Hchain & _ & _ & _ & Hrunning).
  exists w'. split_and!; assumption.
Qed.

(** X6: Inside a chain, a function call that is answered followed by
    [FunctionCalling]: the latency logged is the chain latency, measured from
    the clock reading taken right after the response went out. *)
Theorem chained_call_latency (request calling : string)
    (fields announced : list (string * json)) (name : string) (func : handler)
    (v : json) (rest : list message) (fuel : nat) (w : world) :
  json_loads E request = Some (JObj fields) ->
  dict_get fields "type" JNull = JStr "FunctionCallRequest" ->
  dict_get fields "function_name" JNull = JStr name ->
  name <> "agent_filler" ->
  name <> "end_call" ->
  FUNCTION_MAP E !! name = Some func ->
  func (dict_get fields "input" (JObj [])) = Returned v ->
  json_loads E calling = Some (JObj announced) ->
  dict_get announced "type" JNull = JStr "FunctionCalling" ->
  inbound w = Text request :: Text calling :: rest ->
  in_function_chain w = true ->
  ws_closed w = false ->
  send_ok E (n_send w) = true ->
  time_time E (3 + n_clock w) <> 0%Z ->
  exists w' earlier,
    receiver_loop E (S (S fuel)) w = receiver_loop E fuel w'
    /\ logs w'
       = earlier ++ [LogChainLatency
                       (time_time E (4 + n_clock w) - time_time E (3 + n_clock w))]
    /\ in_function_chain w' = true
    /\ inbound w' = rest.
Proof.
  intros Hp1 Ht1 Hname Hfiller Hend Hmap Hcall Hp2 Ht2 Hin Hchain Hopen Hsend Hclock.
  destruct (handle_ordinary_call request fields name func
              (taken (Text request) (Text calling :: rest) w)
              Hp1 Ht1 Hname Hfiller Hend Hmap Hopen Hsend)
    as (w1 & Hrun & _ & Hlast & Hn & (added & Hlogs) & Hchain1 & _ & Hin1 & _ & _).
  rewrite Hcall in Hlast, Hn. cbn in Hlast, Hn, Hchain1, Hin1.
  assert (Hex : timestamp_exists (last_function_response_time w1) = true).
  { rewrite Hlast. apply negb_true_iff, Z.eqb_neq. exact Hclock. }
  eexists. exists (logs w1 ++ [LogServer calling]). split.
  - rewrite (receiver_loop_next E _ _ _ _ _ Hin Hrun).
    apply receiver_loop_next with (m := Text calling) (rest := rest); [exact Hin1 |].
    rewrite (handle_function_calling E calling announced _ Hp2 Ht2).
    cbn. rewrite Hchain1, Hchain, Hlast. rewrite Hlast in Hex. rewrite Hex.
    cbn. reflexivity.
  - cbn. split_and!; [| congruence | reflexivity].
    unfold since. rewrite Hn. cbn. reflexivity.
Qed.

(** X7: [agent_filler]: the response to the call goes out first, the message to
    inject second, and the time of the last function response is the clock
    reading taken between the two. *)
Theorem agent_filler_answered_then_injected (text : string)
    (fields result : list (string * json)) (func : handler)
    (inject_message function_response : json) (w : world) :
  json_loads E text = Some (JObj fields) ->
  dict_get fields "type" JNull = JStr "FunctionCallRequest" ->
  dict_get fields "function_name" JNull = JStr "agent_filler" ->
  FUNCTION_MAP E !! "agent_filler" = Some func ->
  func (dict_get fields "input" (JObj [])) = Returned (JObj result) ->
  assoc "inject_message" result = Some inject_message ->
  assoc "function_response" result = Some function_response ->
  ws_closed w = false ->
  send_ok E (n_send w) = true ->
  send_ok E (S (n_send w)) = true ->
  exists w',
    handle_message E (Text text) w = (Ok Next, w')
    /\ trace w'
       = trace w
         ++ [WsSend (FunctionCallResponse
                       (dict_get fields "function_call_id" JNull)
                       (json_dumps E function_response));
             WsSend inject_message]
    /\ last_function_response_time w' = Some (time_time E (2 + n_clock w))
    /\ in_function_chain w' = in_function_chain w
    /\ is_running w' = is_running w
    /\ ws_closed w' = false.
Proof.
  intros Hparse Htag Hname Hmap Hcall Hinject Hresponse Hopen Hsend1 Hsend2.
  eexists. split.
  - unfold handle_message, loads, bind, log, update, py_get, now, ret, get.
    rewrite Hparse. cbn. rewrite Htag. cbn.
    unfold function_call_request, try_except, bind, log, update, now, FUNCTION_MAP_get, call.
    rewrite Hname. cbn. rewrite Hmap. cbn. rewrite Hcall. cbn.
    unfold subscript, bind. rewrite Hinject, Hresponse. cbn.
    unfold ws_send. cbn. rewrite Hopen, Hsend1. cbn.
    unfold inject_agent_message, bind, log, update, ws_send. cbn.
    rewrite Hopen, Hsend2. cbn. reflexivity.
  - cbn. split_and!; try reflexivity; try assumption.
    list_normal. reflexivity.
Qed.

(** The run of the dispatcher up to the result of the handler. *)
Ltac enter_dispatch Hparse Htag Hname Hmap Hcall :=
  unfold handle_message, loads, bind, log, update, py_get, now, ret, get;
  rewrite Hparse; cbn; rewrite Htag; cbn;
  unfold function_call_request, try_except, bind, log, update, now,
    FUNCTION_MAP_get, call;
  rewrite Hname; cbn; rewrite Hmap; cbn; rewrite Hcall; cbn;
  unfold subscript, bind.

(** X8: A handler that is given the connection and whose result lacks one of the
    keys the dispatcher reads: the call is answered once, by the error that
    names a missing key; nothing is injected, no farewell is waited for, the
    connection stays open and the session goes on. *)
Theorem missing_key_answered_with_error (text : string)
    (fields result : list (string * json)) (name : string) (func : handler)
    (w : world) :
  json_loads E text = Some (JObj fields) ->
  dict_get fields "type" JNull = JStr "FunctionCallRequest" ->
  dict_get fields "function_name" JNull = JStr name ->
  FUNCTION_MAP E !! name = Some func ->
  func (dict_get fields "input" (JObj [])) = Returned (JObj result) ->
  (exists key, In key (extracted_keys name) /\ assoc key result = None) ->
  ws_closed w = false ->
  send_ok E (n_send w) = true ->
  exists w' key,
    In key (extracted_keys name)
    /\ assoc key result = None
    /\ handle_message E (Text text) w = (Ok Next, w')
    /\ trace w'
       = trace w
         ++ [WsSend (FunctionCallResponse
                       (dict_get fields "function_call_id" JNull)
                       (json_dumps E (JObj [("error", JStr ("'" +:+ key +:+ "'"))])))]
    /\ last_function_response_time w' = last_function_response_time w
    /\ is_running w' = is_running w
    /\ ws_closed w' = false
    /\ inbound w' = inbound w.
Proof.
  intros Hparse Htag Hname Hmap Hcall (key & Hkey & Hmissing) Hopen Hsend.
  unfold extracted_keys in Hkey.
  destruct (String.eqb name "agent_filler") eqn:Hfiller.
  - apply String.eqb_eq in Hfiller. subst name.
    destruct (assoc "inject_message" result) as [inject |] eqn:Hinject.
    + assert (Hresponse : assoc "function_response" result = None).
      { destruct Hkey as [<- | [<- | []]]; congruence. }
      eexists. exists "function_response". split; [cbn; tauto |].
      split; [exact Hresponse |]. split.
      * enter_dispatch Hparse Htag Hname Hmap Hcall. rewrite Hinject, Hresponse. cbn.
        unfold ws_send. cbn. rewrite Hopen, Hsend. cbn. reflexivity.
      * cbn. split_and!; try reflexivity; assumption.
    + eexists. exists "inject_message". split; [cbn; tauto |].
      split; [exact Hinject |]. split.
      * enter_dispatch Hparse Htag Hname Hmap Hcall. rewrite Hinject. cbn.
        unfold ws_send. cbn. rewrite Hopen, Hsend. cbn. reflexivity.
      * cbn. split_and!; try reflexivity; assumption.
  - destruct (String.eqb name "end_call") eqn:Hend; [| destruct Hkey].
    apply String.eqb_eq in Hend. subst name.
    destruct (assoc "inject_message" result) as [inject |] eqn:Hinject;
      [destruct (assoc "function_response" result) as [response |] eqn:Hresponse;
       [assert (Hclose : assoc "close_message" result = None)
          by (destruct Hkey as [<- | [<- | [<- | []]]]; congruence) |] |].
    + eexists. exists "close_message". split; [cbn; tauto |].
      split; [exact Hclose |]. split.
      * enter_dispatch Hparse Htag Hname Hmap Hcall. rewrite Hinject, Hresponse, Hclose. cbn.
        unfold ws_send. cbn. rewrite Hopen, Hsend. cbn. reflexivity.
      * cbn. split_and!; try reflexivity; assumption.
    + eexists. exists "function_response". split; [cbn; tauto |].
      split; [exact Hresponse |]. split.
      * enter_dispatch Hparse Htag Hname Hmap Hcall. rewrite Hinject, Hresponse. cbn.
        unfold ws_send. cbn. rewrite Hopen, Hsend. cbn. reflexivity.
      * cbn. split_and!; try reflexivity; assumption.
    + eexists. exists "inject_message". split; [cbn; tauto |].
      split; [exact Hinject |]. split.
      * enter_dispatch Hparse Htag Hname Hmap Hcall. rewrite Hinject. cbn.
        unfold ws_send. cbn. rewrite Hopen, Hsend. cbn. reflexivity.
      * cbn. split_and!; try reflexivity; assumption.
Qed.

(** X9: A request whose [function_name] is no string, or is absent: no handler
    runs and the call is answered once, by an error.  A list or an object
    cannot be looked up at all, and the error is that of the lookup; anything
    else is formatted into "Function ... not found", an absent name as
    [None]. *)
Theorem call_without_name_answered (text : string) (fields : list (string * json))
    (w : world) :
  json_loads E text = Some (JObj fields) ->
  dict_get fields "type" JNull = JStr "FunctionCallRequest" ->
  (forall name, dict_get fields "function_name" JNull <> JStr name) ->
  ws_closed w = false ->
  send_ok E (n_send w) = true ->
  let function_name := dict_get fields "function_name" JNull in
  let e := match function_name with
           | JArr _ | JObj _ => Unhashable function_name
           | _ => ValueError ("Function " +:+ py_str E function_name +:+ " not found")
           end in
  exists w',
    handle_message E (Text text) w = (Ok Next, w')
    /\ trace w'
       = trace w ++ [WsSend (FunctionCallResponse
                               (dict_get fields "function_call_id" JNull)
                               (json_dumps E (JObj [("error", JStr (str_exn E e))])))]
    /\ (assoc "function_name" fields = None ->
        str_exn E e = "Function None not found")
    /\ last_function_response_time w' = last_function_response_time w
    /\ is_running w' = is_running w
    /\ inbound w' = inbound w.
Proof.
  intros Hparse Htag Hname Hopen Hsend function_name e.
  assert (Habsent : assoc "function_name" fields = None ->
                    str_exn E e = "Function None not found").
  { intros Hnone. unfold e, function_name, dict_get. rewrite Hnone. reflexivity. }
  unfold handle_message, loads, bind, log, update, py_get, now, ret, get.
  rewrite Hparse. cbn. rewrite Htag. cbn.
  unfold function_call_request, try_except, bind, log, update, now, FUNCTION_MAP_get.
  unfold e, function_name in *. clear e function_name.
  destruct (dict_get fields "function_name" JNull) as [| b | n | name | items | members];
    try (exfalso; apply (Hname name); reflexivity);
    cbn; unfold ws_send; cbn; rewrite Hopen, Hsend; cbn;
    (eexists; split; [reflexivity |]); cbn;
    (split_and!; try reflexivity; assumption).
Qed.

(** X10: When the transport refuses the error response too, the error leaves the
    dispatcher: the loop ends with every later message unread, and [receiver]
    logs the error and returns. *)
Theorem refused_error_response_ends_receiver (text : string)
    (fields : list (string * json)) (name : string) (w : world) :
  json_loads E text = Some (JObj fields) ->
  dict_get fields "type" JNull = JStr "FunctionCallRequest" ->
  dict_get fields "function_name" JNull = JStr name ->
  FUNCTION_MAP E !! name = None ->
  send_ok E (n_send w) = false ->
  (exists w', handle_message E (Text text) w = (Raise ConnectionClosed, w')
              /\ trace w' = trace w)
  /\ (forall rest fuel,
        inbound w = Text text :: rest ->
        exists w',
          receiver_loop E (S fuel) w = (Raise ConnectionClosed, w')
          /\ inbound w' = rest
          /\ trace w' = trace w ++ [WsRecv (Text text)])
  /\ (forall rest,
        inbound w = Text text :: rest ->
        audio_out_exn E = None ->
        exists w' earlier,
          receiver E w = (Ok tt, w')
          /\ inbound w' = rest
          /\ trace w' = trace w ++ [WsRecv (Text text)]
          /\ logs w' = earlier ++ [LogError "Error in receiver" ConnectionClosed]
          /\ speaker w' = Speaker_init).
Proof.
  intros Hparse Htag Hname Hmap Hsend.
  assert (Hstep : forall w0, n_send w0 = n_send w ->
             exists w', handle_message E (Text text) w0 = (Raise ConnectionClosed, w')
                        /\ trace w' = trace w0 /\ inbound w' = inbound w0).
  { intros w0 Hn. eexists. split.
    - unfold handle_message, loads, bind, log, update, py_get, now, ret, get.
      rewrite Hparse. cbn. rewrite Htag. cbn.
      unfold function_call_request, try_except, bind, log, update, now, FUNCTION_MAP_get.
      rewrite Hname. cbn. rewrite Hmap. cbn.
      unfold ws_send. cbn. rewrite Hn, Hsend, orb_true_r. cbn. reflexivity.
    - cbn. split; reflexivity. }
  split; [| split].
  - destruct (Hstep w eq_refl) as (w' & Hrun & Htr & _). exists w'. split; assumption.
  - intros rest fuel Hin.
    destruct (Hstep (taken (Text text) rest w) eq_refl) as (w' & Hrun & Htr & Hrest).
    exists w'. split; [| split; assumption].
    apply receiver_loop_raise with (m := Text text) (rest := rest); assumption.
  - intros rest Hin Hout.
    destruct (Hstep (taken (Text text) rest (prepared w)) eq_refl)
      as (w' & Hrun & Htr & Hrest).
    exists (given_up ConnectionClosed w'), (logs w'). rewrite (receiver_unfold E w Hout).
    rewrite (receiver_loop_raise E (Text text) rest _ (prepared w) w' ConnectionClosed
               Hin Hrun).
    split_and!; try reflexivity; assumption.
Qed.

End Dispatch_facts.

(** ** The peer closes the connection during the farewell *)

Section Cut_facts.
Context (E : Env).

Lemma bind_raise {A B} (m : M A) (k : A -> M B) (w w' : world) (e : exn) :
  m w = (Raise e, w') -> bind m k w = (Raise e, w').
Proof. intros H. unfold bind. rewrite H. reflexivity. Qed.

Lemma Speaker_play_running (data : frame) (w w' : world) (r : result unit) :
  Speaker_play data w = (r, w') -> is_running w' = is_running w.
Proof.
  unfold Speaker_play.
  destruct (thread_turn_same w) as (_ & _ & _ & _ & Hrunning & _).
  destruct (_queue (speaker (thread_turn w))); intros [= <- <-]; exact Hrunning.
Qed.

Lemma speaking_started_by_running (inject_message : json) (text : string)
    (w w' : world) (r : result bool) :
  speaking_started_by E inject_message text w = (r, w') ->
  is_running w' = is_running w.
Proof.
  unfold speaking_started_by, try_decode, loads, bind, log, update, py_get, subscript,
    ret, raise.
  repeat match goal with
         | |- context [match ?x with _ => _ end] =>
             let y := innermost x in destruct y; cbn
         end;
    intros [= <- <-]; reflexivity.
Qed.

Lemma audio_done_by_running (text : string) (w w' : world) (r : result bool) :
  audio_done_by E text w = (r, w') -> is_running w' = is_running w.
Proof.
  unfold audio_done_by, try_decode, loads, bind, log, update, py_get, ret, raise.
  repeat match goal with
         | |- context [match ?x with _ => _ end] =>
             let y := innermost x in destruct y; cbn
         end;
    intros [= <- <-]; reflexivity.
Qed.

Lemma wait_speaking_started_running (inject_message : json) (fuel : nat) :
  forall (w w' : world) (r : result unit),
    wait_speaking_started E fuel inject_message w = (r, w') ->
    is_running w' = is_running w.
Proof.
  induction fuel as [| fuel IH]; intros w w' r; [intros [= <- <-]; reflexivity |].
  cbn [wait_speaking_started]. unfold bind at 1. unfold ws_recv.
  destruct (inbound w) as [| m rest]; [intros [= <- <-]; reflexivity |].
  destruct m as [text | data]; unfold bind at 1.
  - destruct (speaking_started_by E inject_message text _) as [[[] | e |] w1] eqn:Hrun;
      apply speaking_started_by_running in Hrun; cbn in Hrun.
    + intros [= <- <-]. exact Hrun.
    + intros Hrest. apply IH in Hrest. congruence.
    + intros [= <- <-]. exact Hrun.
    + intros [= <- <-]. exact Hrun.
  - destruct (Speaker_play data _) as [[[] | e |] w1] eqn:Hrun;
      apply Speaker_play_running in Hrun; cbn in Hrun.
    + intros Hrest. apply IH in Hrest. congruence.
    + intros [= <- <-]. exact Hrun.
    + intros [= <- <-]. exact Hrun.
Qed.

Lemma wait_audio_done_running (fuel : nat) :
  forall (w w' : world) (r : result unit),
    wait_audio_done E fuel w = (r, w') -> is_running w' = is_running w.
Proof.
  induction fuel as [| fuel IH]; intros w w' r; [intros [= <- <-]; reflexivity |].
  cbn [wait_audio_done]. unfold bind at 1. unfold ws_recv.
  destruct (inbound w) as [| m rest]; [intros [= <- <-]; reflexivity |].
  destruct m as [text | data]; unfold bind at 1.
  - destruct (audio_done_by E text _) as [[[] | e |] w1] eqn:Hrun;
      apply audio_done_by_running in Hrun; cbn in Hrun.
    + intros [= <- <-]. exact Hrun.
    + intros Hrest. apply IH in Hrest. congruence.
    + intros [= <- <-]. exact Hrun.
    + intros [= <- <-]. exact Hrun.
  - destruct (Speaker_play data _) as [[[] | e |] w1] eqn:Hrun;
      apply Speaker_play_running in Hrun; cbn in Hrun.
    + intros Hrest. apply IH in Hrest. congruence.
    + intros [= <- <-]. exact Hrun.
    + intros [= <- <-]. exact Hrun.
Qed.

(** The first waiting loop finds the connection closed once it has passed
    over every message. *)
Lemma wait_speaking_started_cut (inject : list (string * json)) (farewell : json)
    (before : list message) :
  assoc "message" inject = Some farewell ->
  Forall (passed_over E (announces_farewell E farewell)) before ->
  forall (fuel : nat) (w : world) (q : list frame),
    length before < fuel ->
    inbound w = before ->
    _queue (speaker w) = Some q ->
    exists w',
      wait_speaking_started E fuel (JObj inject) w = (Raise ConnectionClosed, w')
      /\ inbound w' = []
      /\ trace w' = trace w ++ consumed before
      /\ ws_closed w' = true
      /\ n_send w' = n_send w.
Proof.
  intros Hmsg Hbefore.
  induction Hbefore as [| m before Hm _ IH]; intros fuel w q Hfuel Hin Hq.
  - destruct fuel as [| fuel]; [cbn in Hfuel; lia |].
    cbn [wait_speaking_started]. unfold bind at 1. unfold ws_recv. rewrite Hin.
    eexists. split; [reflexivity |]. cbn. rewrite app_nil_r. auto.
  - destruct fuel as [| fuel]; [cbn in Hfuel; lia |].
    cbn in Hfuel. apply Nat.succ_lt_mono in Hfuel.
    cbn [wait_speaking_started]. unfold bind at 1. unfold ws_recv. rewrite Hin.
    set (w1 := set_trace (trace w ++ [WsRecv m]) (set_inbound before w)).
    destruct m as [text | data].
    + assert (Hskip : exists w2,
                 speaking_started_by E (JObj inject) text w1 = (Ok false, w2)
                 /\ inbound w2 = inbound w1 /\ trace w2 = trace w1
                 /\ speaker w2 = speaker w1 /\ n_send w2 = n_send w1).
      { destruct Hm as [Hjunk | (fields' & Hobj & Hno)].
        - exists w1. rewrite (speaking_started_by_junk _ _ _ _ Hjunk). auto 10.
        - exists (rejected text w1).
          rewrite (speaking_started_by_object _ inject farewell text fields' _ Hmsg Hobj), Hno.
          auto 10. }
      destruct Hskip as (w2 & Hrun & Hin2 & Htr2 & Hsp2 & Hns2).
      unfold bind at 1. rewrite Hrun.
      unfold w1 in Hin2, Htr2, Hsp2, Hns2. cbn in Hin2, Htr2, Hsp2, Hns2.
      destruct (IH fuel w2 q Hfuel) as (w' & Hrun' & Hin' & Htr' & Hcl' & Hns');
        [exact Hin2 | rewrite Hsp2; exact Hq |].
      exists w'. split; [exact Hrun' |]. split; [exact Hin' |].
      split; [rewrite Htr', Htr2; cbn; rewrite <- app_assoc; reflexivity |].
      split; congruence.
    + destruct (Speaker_play_spec data w1 q Hq)
        as (w2 & q2 & Hrun & Hq2 & _ & _ & _ & _ & Htr2 & Hin2 & _ & Hns2).
      unfold bind at 1. rewrite Hrun.
      unfold w1 in Hin2, Htr2, Hns2. cbn in Hin2, Htr2, Hns2.
      destruct (IH fuel w2 q2 Hfuel) as (w' & Hrun' & Hin' & Htr' & Hcl' & Hns');
        [exact Hin2 | exact Hq2 |].
      exists w'. split; [exact Hrun' |]. split; [exact Hin' |].
      split; [rewrite Htr', Htr2; cbn; rewrite <- !app_assoc; reflexivity |].
      split; congruence.
Qed.

(** So does the second. *)
Lemma wait_audio_done_cut (during : list message) :
  Forall (passed_over E audio_is_done) during ->
  forall (fuel : nat) (w : world) (q : list frame),
    length during < fuel ->
    inbound w = during ->
    _queue (speaker w) = Some q ->
    exists w',
      wait_audio_done E fuel w = (Raise ConnectionClosed, w')
      /\ inbound w' = []
      /\ trace w' = trace w ++ consumed during
      /\ ws_closed w' = true
      /\ n_send w' = n_send w.
Proof.
  intros Hduring.
  induction Hduring as [| m during Hm _ IH]; intros fuel w q Hfuel Hin Hq.
  - destruct fuel as [| fuel]; [cbn in Hfuel; lia |].
    cbn [wait_audio_done]. unfold bind at 1. unfold ws_recv. rewrite Hin.
    eexists. split; [reflexivity |]. cbn. rewrite app_nil_r. auto.
  - destruct fuel as [| fuel]; [cbn in Hfuel; lia |].
    cbn in Hfuel. apply Nat.succ_lt_mono in Hfuel.
    cbn [wait_audio_done]. unfold bind at 1. unfold ws_recv. rewrite Hin.
    set (w1 := set_trace (trace w ++ [WsRecv m]) (set_inbound during w)).
    destruct m as [text | data].
    + assert (Hskip : exists w2,
                 audio_done_by E text w1 = (Ok false, w2)
                 /\ inbound w2 = inbound w1 /\ trace w2 = trace w1
                 /\ speaker w2 = speaker w1 /\ n_send w2 = n_send w1).
      { destruct Hm as [Hjunk | (fields' & Hobj & Hno)].
        - exists w1. rewrite (audio_done_by_junk _ _ _ Hjunk). auto 10.
        - exists (rejected text w1).
          rewrite (audio_done_by_object _ text fields' _ Hobj), Hno. auto 10. }
      destruct Hskip as (w2 & Hrun & Hin2 & Htr2 & Hsp2 & Hns2).
      unfold bind at 1. rewrite Hrun.
      unfold w1 in Hin2, Htr2, Hsp2, Hns2. cbn in Hin2, Htr2, Hsp2, Hns2.
      destruct (IH fuel w2 q Hfuel) as (w' & Hrun' & Hin' & Htr' & Hcl' & Hns');
        [exact Hin2 | rewrite Hsp2; exact Hq |].
      exists w'. split; [exact Hrun' |]. split; [exact Hin' |].
      split; [rewrite Htr', Htr2; cbn; rewrite <- app_assoc; reflexivity |].
      split; congruence.
    + destruct (Speaker_play_spec data w1 q Hq)
        as (w2 & q2 & Hrun & Hq2 & _ & _ & _ & _ & Htr2 & Hin2 & _ & Hns2).
      unfold bind at 1. rewrite Hrun.
      unfold w1 in Hin2, Htr2, Hns2. cbn in Hin2, Htr2, Hns2.
      destruct (IH fuel w2 q2 Hfuel) as (w' & Hrun' & Hin' & Htr' & Hcl' & Hns');
        [exact Hin2 | exact Hq2 |].
      exists w'. split; [exact Hrun' |]. split; [exact Hin' |].
      split; [rewrite Htr', Htr2; cbn; rewrite <- !app_assoc; reflexivity |].
      split; congruence.
Qed.

(** [wait_for_farewell_completion] when the peer closes the connection: the
    closed connection is raised from the loop that meets it, with the tail
    delay not taken. *)
Lemma wait_for_farewell_completion_cut (inject : list (string * json))
    (farewell : json) (w : world) (q : list frame) :
  assoc "message" inject = Some farewell ->
  farewell_cut_short E farewell (inbound w) ->
  _queue (speaker w) = Some q ->
  ws_closed w = false ->
  send_ok E (n_send w) = true ->
  exists w',
    wait_for_farewell_completion E (JObj inject) w = (Raise ConnectionClosed, w')
    /\ inbound w' = []
    /\ trace w' = trace w ++ [WsSend (JObj inject)] ++ consumed (inbound w)
    /\ ws_closed w' = true
    /\ is_running w' = is_running w.
Proof.
  intros Hmsg Hcut Hq Hopen Hsend.
  unfold wait_for_farewell_completion, inject_agent_message.
  set (w1 := set_trace (trace w ++ [WsSend (JObj inject)])
               (set_n_send (S (n_send w))
                  (set_logs (logs w ++ [LogInject (json_dumps E (JObj inject))]) w))).
  assert (Hinject : (log (LogInject (json_dumps E (JObj inject))) >> ws_send E (JObj inject)) w
                    = (Ok tt, w1)).
  { unfold bind, log, update, ws_send. cbn. rewrite Hopen, Hsend. reflexivity. }
  rewrite (bind_ok _ _ _ _ _ Hinject).
  destruct Hcut as [Hall | (before & started & fields & during & Hin & Hbefore & Hs1 & Hs2
                            & Hduring)].
  - destruct (wait_speaking_started_cut inject farewell (inbound w) Hmsg Hall
                (S (length (inbound w1))) w1 q)
      as (w2 & Hrun2 & Hin2 & Htr2 & Hcl2 & _);
      [cbn; lia | reflexivity | exact Hq |].
    pose proof (wait_speaking_started_running _ _ _ _ _ Hrun2) as Hrunning.
    assert (Hloop1 : (let* w0 := get in
                      wait_speaking_started E (S (length (inbound w0))) (JObj inject)) w1
                     = (Raise ConnectionClosed, w2)) by exact Hrun2.
    rewrite (bind_raise _ _ _ _ _ Hloop1).
    exists w2. split; [reflexivity |].
    split_and!; [exact Hin2 | | exact Hcl2 | exact Hrunning].
    rewrite Htr2. cbn. list_normal. reflexivity.
  - destruct (wait_speaking_started_spec E inject farewell started fields during before
                Hmsg Hs1 Hs2 Hbefore (S (length (inbound w1))) w1 q)
      as (w2 & Hrun2 & Hin2 & Htr2 & ((q2 & Hq2) & _ & _)).
    { change (inbound w1) with (inbound w). rewrite Hin, length_app. lia. }
    { exact Hin. }
    { exact Hq. }
    pose proof (wait_speaking_started_running _ _ _ _ _ Hrun2) as Hrunning2.
    assert (Hloop1 : (let* w0 := get in
                      wait_speaking_started E (S (length (inbound w0))) (JObj inject)) w1
                     = (Ok tt, w2)) by exact Hrun2.
    rewrite (bind_ok _ _ _ _ _ Hloop1).
    destruct (wait_audio_done_cut during Hduring (S (length (inbound w2))) w2 q2)
      as (w3 & Hrun3 & Hin3 & Htr3 & Hcl3 & _);
      [rewrite Hin2; lia | exact Hin2 | exact Hq2 |].
    pose proof (wait_audio_done_running _ _ _ _ Hrun3) as Hrunning3.
    assert (Hloop2 : (let* w0 := get in wait_audio_done E (S (length (inbound w0)))) w2
                     = (Raise ConnectionClosed, w3)) by exact Hrun3.
    rewrite (bind_raise _ _ _ _ _ Hloop2).
    exists w3. split; [reflexivity |].
    split_and!; [exact Hin3 | | exact Hcl3 | rewrite Hrunning3; exact Hrunning2].
    rewrite Htr3, Htr2, Hin. unfold consumed. rewrite flat_map_app. cbn.
    list_normal. reflexivity.
Qed.

(** X11: [end_call] when the peer closes the connection before the farewell is
    complete: the response to the call and the farewell have gone out and the
    messages that came were taken, but the tail delay is not waited, the
    connection is not closed from this side, [is_running] stays as it was, no
    second response goes out since the connection is closed, and the closed
    connection is raised out of the dispatcher. *)
Theorem peer_closes_during_farewell (text : string) (fields : list (string * json))
    (func : handler) (result inject : list (string * json))
    (function_response close_message farewell : json)
    (q : list frame) (w : world) :
  json_loads E text = Some (JObj fields) ->
  dict_get fields "type" JNull = JStr "FunctionCallRequest" ->
  dict_get fields "function_name" JNull = JStr "end_call" ->
  FUNCTION_MAP E !! "end_call" = Some func ->
  func (dict_get fields "input" (JObj [])) = Returned (JObj result) ->
  assoc "inject_message" result = Some (JObj inject) ->
  assoc "function_response" result = Some function_response ->
  assoc "close_message" result = Some close_message ->
  assoc "message" inject = Some farewell ->
  farewell_cut_short E farewell (inbound w) ->
  _queue (speaker w) = Some q ->
  ws_closed w = false ->
  send_ok E (n_send w) = true ->
  send_ok E (S (n_send w)) = true ->
  exists w',
    handle_message E (Text text) w = (Raise ConnectionClosed, w')
    /\ trace w'
       = trace w
         ++ [WsSend (FunctionCallResponse (dict_get fields "function_call_id" JNull)
                       (json_dumps E function_response));
             WsSend (JObj inject)]
         ++ consumed (inbound w)
    /\ inbound w' = []
    /\ ws_closed w' = true
    /\ is_running w' = is_running w.
Proof.
  intros Hparse Htag Hname Hmap Hcall Hinj Hresp Hclose Hmsg Hcut Hq Hopen Hsend1 Hsend2.
  unfold handle_message, loads, bind, log, update, py_get, now, ret, get.
  rewrite Hparse. cbn -[function_call_request]. rewrite Htag.
  cbn -[function_call_request].
  unfold function_call_request, try_except, bind, log, update, now, FUNCTION_MAP_get,
    call, subscript, ret.
  rewrite Hname. cbn -[wait_for_farewell_completion close_websocket_with_timeout].
  rewrite Hmap, Hcall, Hinj, Hresp, Hclose.
  unfold ws_send. cbn -[wait_for_farewell_completion close_websocket_with_timeout].
  rewrite Hopen, Hsend1. cbn -[wait_for_farewell_completion close_websocket_with_timeout].
  match goal with
  | |- context [wait_for_farewell_completion E _ ?x] =>
      destruct (wait_for_farewell_completion_cut inject farewell x q
                  Hmsg Hcut Hq Hopen Hsend2)
        as (w3 & Hrun & Hin3 & Htr3 & Hcl3 & Hrunning3)
  end.
  rewrite Hrun. cbn. rewrite Hcl3. cbn.
  eexists. split; [reflexivity |]. cbn.
  split_and!; [| exact Hin3 | exact Hcl3 | exact Hrunning3].
  rewrite Htr3. cbn. list_normal. reflexivity.
Qed.

End Cut_facts.

(** ** Start-up, the run of a session, and closing *)

Section Run_facts.
Context (E : Env).

(** The template has no replacement field and the settings already hold it
    as their instructions: the settings sent are [SETTINGS] itself. *)
Lemma settings_unchanged : with_instructions PROMPT_TEMPLATE (SETTINGS E) = SETTINGS E.
Proof. reflexivity. Qed.

(** X12: With the key present, the peer reachable and the transport taking the
    message, [setup] returns [True] after exactly two steps: the connection to
    the agent's address, authorised by "Token " followed by the key, and the
    settings sent as the first message. *)
Theorem setup_handshake (dg_api_key : string) (w : world) :
  DEEPGRAM_API_KEY E = Some dg_api_key ->
  connect_exn E = None ->
  ws_closed w = false ->
  send_ok E (n_send w) = true ->
  exists w',
    setup E w = (Ok true, w')
    /\ trace w'
       = trace w ++ [WsConnect "wss://agent.deepgram.com/agent" ("Token " +:+ dg_api_key);
                     WsSend (SETTINGS E)]
    /\ logs w' = logs w
    /\ is_running w' = is_running w
    /\ ws_closed w' = false.
Proof.
  intros Hkey Hconnect Hopen Hsend.
  unfold setup. rewrite Hkey, settings_unchanged.
  unfold try_except, bind, ws_connect, ws_send, raise, emit, update, log, ret.
  rewrite Hconnect. cbn -[SETTINGS]. rewrite Hopen, Hsend. cbn -[SETTINGS].
  eexists. split; [reflexivity |]. cbn -[SETTINGS].
  split_and!; try reflexivity; try assumption.
  list_normal. reflexivity.
Qed.


(** [close_websocket_with_timeout] raises nothing: it asks once for the
    connection to be closed, within five seconds; when that times out the
    error is logged and the connection is left as it was. *)
Theorem close_websocket_with_timeout_never_raises (w : world) :
  exists w',
    close_websocket_with_timeout E w = (Ok tt, w')
    /\ trace w' = trace w ++ [WsClose (Some (5 # 1)%Q)]
    /\ ws_closed w' = (if close_times_out E then ws_closed w else true)
    /\ logs w'
       = logs w ++ (if close_times_out E
                    then [LogError "Error during websocket closure" TimeoutError]
                    else [])
    /\ is_running w' = is_running w
    /\ inbound w' = inbound w.
Proof.
  unfold close_websocket_with_timeout, try_except, bind, emit, update, raise, log.
  destruct (close_times_out E); eexists; (split; [reflexivity |]); cbn;
    split_and!; try reflexivity.
  rewrite app_nil_r. reflexivity.
Qed.

End Run_facts.

(** ** The audio of the agent *)

Section Audio_facts.
Context (E : Env).

(** X15: The audio frames the peer sends are put on the playback queue in the
    order they arrive: after the loop has taken them, what has reached the
    stream followed by what waits in the queue is what was there before
    followed by the frames, whatever the playback thread got done in between;
    and the thread, left to run, writes all of it to the stream. *)
Theorem agent_audio_played_in_order (frames : list frame) (rest : list message)
    (fuel : nat) (w : world) (q : list frame) :
  inbound w = map Binary frames ++ rest ->
  _queue (speaker w) = Some q ->
  exists w' waiting,
    receiver_loop E (length frames + fuel) w = receiver_loop E fuel w'
    /\ inbound w' = rest
    /\ _queue (speaker w') = Some waiting
    /\ sink w' ++ waiting = sink w ++ q ++ frames
    /\ trace w' = trace w ++ consumed (map Binary frames)
    /\ (_stop (speaker w) = Some false ->
        sink (Nat.iter (length waiting) _play_iter w') = sink w ++ q ++ frames).
Proof.
  revert w q. induction frames as [| data frames IH]; intros w q Hin Hq.
  - exists w, q. cbn. rewrite !app_nil_r.
    split_and!; try reflexivity; try assumption.
    intros Hstop.
    destruct (_play_finishes (length q) w q Hstop Hq (Nat.le_refl _)) as (_ & Hsink & _).
    exact Hsink.
  - cbn [map app] in Hin.
    destruct (Speaker_play_spec data (taken (Binary data) (map Binary frames ++ rest) w) q Hq)
      as (w1 & q1 & Hrun & Hq1 & Hk1 & Hs1 & _ & _ & Htr1 & Hin1 & _ & _).
    cbn in Hk1, Hs1, Htr1, Hin1.
    destruct (IH w1 q1 Hin1 Hq1) as (w' & waiting & Hloop & Hrest & Hq' & Hk' & Htr' & Hall).
    exists w', waiting. split_and!.
    + assert (Hstep : handle_message E (Binary data)
                        (taken (Binary data) (map Binary frames ++ rest) w)
                      = (Ok Next, w1)).
      { cbn [handle_message]. unfold bind. rewrite Hrun. reflexivity. }
      cbn [length Nat.add].
      rewrite (receiver_loop_next E _ _ (length frames + fuel) _ _ Hin Hstep).
      exact Hloop.
    + exact Hrest.
    + exact Hq'.
    + rewrite Hk', app_assoc, Hk1. list_normal. reflexivity.
    + rewrite Htr', Htr1. cbn. list_normal. reflexivity.
    + intros Hstop. rewrite Hall by congruence.
      rewrite app_assoc, Hk1. list_normal. reflexivity.
Qed.

(** X16: [receiver] raises nothing and never leaves a speaker behind: however its
    loop ends, by the end of the messages, by [break] or by an error, it
    returns with the speaker torn down. *)
Theorem receiver_tears_speaker_down (w : world) :
  exists w', receiver E w = (Ok tt, w') /\ speaker w' = Speaker_init.
Proof.
  destruct (audio_out_exn E) as [e |] eqn:Hout.
  - unfold receiver, try_except, with_speaker, Speaker_enter, bind, update, log.
    rewrite Hout. eexists. split; reflexivity.
  - rewrite (receiver_unfold E w Hout).
    destruct (receiver_loop_terminates E (S (length (inbound w))) (prepared w)) as [Hend _];
      [cbn; lia |].
    destruct (receiver_loop E (S (length (inbound w))) (prepared w)) as [[[] | e |] w1].
    + eexists. split; reflexivity.
    + eexists. split; reflexivity.
    + contradiction.
Qed.

(** X17: When the audio output cannot be opened, [receiver] reads no message at
    all: it logs the error and returns. *)
Theorem no_audio_output_no_reading (e : exn) (w : world) :
  audio_out_exn E = Some e ->
  exists w',
    receiver E w = (Ok tt, w')
    /\ inbound w' = inbound w
    /\ trace w' = trace w
    /\ logs w' = logs w ++ [LogError "Error in receiver" e]
    /\ speaker w' = Speaker_init.
Proof.
  intros Hout.
  unfold receiver, try_except, with_speaker, Speaker_enter, bind, update, log.
  rewrite Hout. eexists. split; [reflexivity |]. cbn. split_and!; reflexivity.
Qed.

End Audio_facts.

(** ** From the microphone to the peer *)

Section Upstream_facts.
Context (E : Env).

(** A run of callbacks in an active session, in full. *)
Lemma capture_spec (calls : list (frame * handoff)) :
  forall w : world,
    is_running w = true ->
    loop_usable (loop w) = true ->
    exists w',
      capture calls w = (Ok tt, w')
      /\ mic_audio_queue w' ++ scheduled w'
         = mic_audio_queue w ++ scheduled w ++ handed_over calls
      /\ is_running w' = true
      /\ loop w' = loop w
      /\ ws_closed w' = ws_closed w
      /\ n_send w' = n_send w
      /\ trace w' = trace w.
Proof.
  induction calls as [| [data h] calls IH]; intros w Hrun Hloop.
  - exists w. cbn. rewrite !app_nil_r. split_and!; reflexivity || assumption.
  - assert (Hone : exists w1,
               audio_callback data 2400 JNull 0 h w = (Ok (data, paContinue), w1)
               /\ mic_audio_queue w1 ++ scheduled w1
                  = mic_audio_queue w ++ scheduled w ++ handed_over [(data, h)]
               /\ is_running w1 = true /\ loop w1 = loop w
               /\ ws_closed w1 = ws_closed w /\ n_send w1 = n_send w
               /\ trace w1 = trace w).
    { unfold audio_callback, bind, get, try_except, hand_over, update, raise, log, ret.
      rewrite Hrun, Hloop. cbn.
      destruct h as [| | e]; eexists; (split; [reflexivity |]); cbn;
        rewrite ?app_nil_r; split_and!; try reflexivity; try assumption;
        rewrite <- !app_assoc; reflexivity. }
    destruct Hone as (w1 & Hcall & Hq1 & Hrun1 & Hloop1 & Hcl1 & Hns1 & Htr1).
    destruct (IH w1 Hrun1) as (w' & Hrest & Hq' & Hrun' & Hloop' & Hcl' & Hns' & Htr');
      [rewrite Hloop1; exact Hloop |].
    exists w'. split.
    + cbn [capture foldr fst snd]. unfold bind at 1. rewrite Hcall. exact Hrest.
    + split_and!; try congruence.
      rewrite Hq', app_assoc, Hq1. unfold handed_over. cbn [List.filter snd].
      destruct h; cbn; list_normal; rewrite ?app_nil_r; reflexivity.
Qed.

(** X18: Frames captured in an active session keep their order of capture on the
    way to the queue of the microphone, whatever the hand-overs meet: once the
    event loop has run what it was handed, the queue holds what it held, then
    what was pending, then every frame handed over, in the order of the
    callbacks; only a frame whose hand-over failed is missing. *)
Theorem capture_keeps_order (calls : list (frame * handoff)) (w : world) :
  is_running w = true ->
  loop_usable (loop w) = true ->
  exists w',
    capture calls w = (Ok tt, w')
    /\ mic_audio_queue (loop_turn w')
       = mic_audio_queue w ++ scheduled w ++ handed_over calls
    /\ scheduled (loop_turn w') = [].
Proof.
  intros Hrun Hloop.
  destruct (capture_spec calls w Hrun Hloop) as (w' & Hcap & Hq & _).
  exists w'. split_and!; [exact Hcap | exact Hq | reflexivity].
Qed.

(** X19: Outside an active session (not running, no event loop, or a closed one)
    the callbacks drop their frames: nothing is queued, handed over or
    logged. *)
Theorem capture_when_inactive_drops_frames (calls : list (frame * handoff)) (w : world) :
  is_running w && loop_usable (loop w) = false ->
  capture calls w = (Ok tt, w).
Proof.
  intros Hoff. induction calls as [| [data h] calls IH]; [reflexivity |].
  cbn [capture foldr fst snd]. unfold bind at 1.
  assert (Hone : audio_callback data 2400 JNull 0 h w = (Ok (data, paContinue), w)).
  { unfold audio_callback, bind, get, ret. rewrite Hoff. reflexivity. }
  rewrite Hone. exact IH.
Qed.

(** The loop of the sender while every send is taken. *)
Lemma sender_loop_all_sent (queue : list frame) :
  forall (sent : list frame) (w : world),
    is_running w = true ->
    ws_closed w = false ->
    (forall k, k < length (audible queue) -> send_ok E (n_send w + k) = true) ->
    exists w',
      sender_loop E queue sent w = (SenderWaiting, sent ++ audible queue, w')
      /\ mic_audio_queue w' = []
      /\ n_send w' = n_send w + length (audible queue)
      /\ logs w' = logs w
      /\ is_running w' = true
      /\ ws_closed w' = false.
Proof.
  induction queue as [| data rest IH]; intros sent w Hrun Hopen Hsend.
  - cbn. rewrite Hrun, app_nil_r, Nat.add_0_r. eexists. split; [reflexivity |].
    cbn. split_and!; reflexivity || assumption.
  - cbn [sender_loop]. rewrite Hrun. destruct data as [| b data].
    + destruct (IH sent (set_mic_audio_queue rest w) Hrun Hopen Hsend)
        as (w' & Hloop & Hrest). exists w'. split; [exact Hloop | exact Hrest].
    + unfold ws_send_bytes. cbn [ws_closed n_send set_mic_audio_queue].
      rewrite Hopen. pose proof (Hsend 0) as H0. rewrite Nat.add_0_r in H0.
      rewrite H0 by (unfold audible; cbn [List.filter length]; lia). cbn [orb negb].
      destruct (IH (sent ++ [b :: data])
                  (set_n_send (S (n_send w)) (set_mic_audio_queue rest w)) Hrun Hopen)
        as (w' & Hloop & Hq & Hns & Hlogs & Hrun' & Hopen').
      { intros k Hk. cbn [n_send set_n_send]. rewrite Nat.add_succ_comm.
        apply Hsend. unfold audible in *. cbn [List.filter length]. lia. }
      exists w'. split.
      * rewrite <- app_assoc in Hloop. exact Hloop.
      * cbn in Hns, Hlogs. cbn [audible List.filter length].
        split_and!; try assumption. rewrite Hns. unfold audible. lia.
Qed.

(** X20: The sender writes the queued frames to the websocket in the order of the
    queue, passing over the empty ones, and then waits for the next frame:
    while the session runs and the transport takes every send, nothing is
    lost and nothing is sent twice. *)
Theorem sender_sends_in_order (w : world) :
  is_running w = true ->
  ws_closed w = false ->
  (forall k, k < length (audible (mic_audio_queue w)) ->
             send_ok E (n_send w + k) = true) ->
  exists w',
    sender E w = (SenderWaiting, audible (mic_audio_queue w), w')
    /\ mic_audio_queue w' = []
    /\ n_send w' = n_send w + length (audible (mic_audio_queue w))
    /\ logs w' = logs w.
Proof.
  intros Hrun Hopen Hsend.
  destruct (sender_loop_all_sent (mic_audio_queue w) [] w Hrun Hopen Hsend)
    as (w' & Hloop & Hq & Hns & Hlogs & _).
  exists w'. split_and!; assumption.
Qed.

(** X21: The first send the transport refuses ends the sender: the frames before
    it were sent, the error is logged, and the sender returns; the refused
    frame was taken from the queue and is lost, and the frames behind it stay
    queued with no sender left to take them. *)
Theorem sender_stops_at_refused_send (before rest : list frame) (b : Byte.byte)
    (data : frame) (w : world) :
  mic_audio_queue w = before ++ (b :: data) :: rest ->
  is_running w = true ->
  ws_closed w = false ->
  (forall k, k < length (audible before) -> send_ok E (n_send w + k) = true) ->
  send_ok E (n_send w + length (audible before)) = false ->
  exists w',
    sender E w = (SenderReturned, audible before, w')
    /\ mic_audio_queue w' = rest
    /\ logs w' = logs w ++ [LogError "Error in sender" ConnectionClosed].
Proof.
  intros Hq Hrun Hopen Hsend Hrefused.
  unfold sender. rewrite Hq. clear Hq.
  assert (Hgen : forall sent,
             exists w',
               sender_loop E (before ++ (b :: data) :: rest) sent w
               = (SenderReturned, sent ++ audible before, w')
               /\ mic_audio_queue w' = rest
               /\ logs w' = logs w ++ [LogError "Error in sender" ConnectionClosed]).
  { revert w Hrun Hopen Hsend Hrefused.
    induction before as [| x before IH]; intros w Hrun Hopen Hsend Hrefused sent.
    - cbn [app sender_loop]. rewrite Hrun. unfold ws_send_bytes.
      cbn [ws_closed n_send set_mic_audio_queue]. rewrite Hopen.
      cbn in Hrefused. rewrite Nat.add_0_r in Hrefused. rewrite Hrefused.
      cbn [orb negb]. eexists. split; [cbn; rewrite app_nil_r; reflexivity |].
      cbn. split; reflexivity.
    - cbn [app sender_loop]. rewrite Hrun. destruct x as [| c x].
      + apply (IH (set_mic_audio_queue (before ++ (b :: data) :: rest) w));
          assumption.
      + unfold ws_send_bytes. cbn [ws_closed n_send set_mic_audio_queue].
        rewrite Hopen. pose proof (Hsend 0) as H0. rewrite Nat.add_0_r in H0.
        rewrite H0 by (unfold audible; cbn [List.filter length]; lia). cbn [orb negb].
        destruct (IH (set_n_send (S (n_send w))
                        (set_mic_audio_queue (before ++ (b :: data) :: rest) w))
                    Hrun Hopen) with (sent := sent ++ [c :: x])
          as (w' & Hloop & Hrest & Hlogs).
        { intros k Hk. cbn [n_send set_n_send]. rewrite Nat.add_succ_comm.
          apply Hsend. unfold audible in *. cbn [List.filter length]. lia. }
        { cbn [n_send set_n_send]. rewrite Nat.add_succ_comm. exact Hrefused. }
        exists w'. split; [| split; assumption].
        rewrite <- app_assoc in Hloop. exact Hloop. }
  destruct (Hgen []) as (w' & Hloop & Hrest & Hlogs).
  exists w'. split_and!; assumption.
Qed.

(** X22: From capture to the wire: frames captured in an active session, handed
    to the event loop and taken by the sender reach the peer in the order of
    capture, behind what was queued and pending before them. *)
Theorem captured_frames_sent_in_order (calls : list (frame * handoff)) (w : world) :
  is_running w = true ->
  loop_usable (loop w) = true ->
  ws_closed w = false ->
  (forall k, send_ok E (n_send w + k) = true) ->
  exists w1 w2,
    capture calls w = (Ok tt, w1)
    /\ sender E (loop_turn w1)
       = (SenderWaiting,
          audible (mic_audio_queue w ++ scheduled w ++ handed_over calls), w2)
    /\ mic_audio_queue w2 = []
    /\ scheduled w2 = [].
Proof.
  intros Hrun Hloop Hopen Hsend.
  destruct (capture_spec calls w Hrun Hloop)
    as (w1 & Hcap & Hq & Hrun1 & _ & Hcl1 & Hns1 & _).
  assert (Hq1 : mic_audio_queue (loop_turn w1)
                = mic_audio_queue w ++ scheduled w ++ handed_over calls) by exact Hq.
  assert (Hstay : forall queue sent w0,
             scheduled (snd (sender_loop E queue sent w0)) = scheduled w0).
  { induction queue as [| x queue IH]; intros sent w0; cbn [sender_loop].
    - destruct (is_running w0); reflexivity.
    - destruct (is_running w0); [| reflexivity]. destruct x as [| c x].
      + rewrite IH. reflexivity.
      + unfold ws_send_bytes. destruct (_ || _); [reflexivity |]. rewrite IH. reflexivity. }
  destruct (sender_loop_all_sent (mic_audio_queue (loop_turn w1)) [] (loop_turn w1))
    as (w2 & Hloop2 & Hq2 & _).
  { exact Hrun1. }
  { rewrite <- Hopen. exact Hcl1. }
  { intros k _. change (n_send (loop_turn w1)) with (n_send w1). rewrite Hns1. apply Hsend. }
  exists w1, w2. split; [exact Hcap |]. split; [| split; [exact Hq2 |]].
  - unfold sender. rewrite Hloop2, Hq1. reflexivity.
  - pose proof (Hstay (mic_audio_queue (loop_turn w1)) [] (loop_turn w1)) as Hs.
    rewrite Hloop2 in Hs. exact Hs.
Qed.

End Upstream_facts.

(** ** The receiver leaves the microphone alone *)

Section Mic_kept.
Context (E : Env).







































End Mic_kept.

(** ** The run of a session waits for the sender *)

Section Session_facts.
Context (E : Env).








End Session_facts.

(** ** The microphone *)

Section Microphone_facts.
Context (E : Env).
Import Microphone.

Lemma first_index_found {A : Type} (p : A -> bool) (l : list A) :
  forall i j,
    first_index p i l = Some j ->
    i <= j /\ exists x, l !! (j - i) = Some x /\ p x = true.
Proof.
  induction l as [| x rest IH]; intros i j; cbn [first_index]; [discriminate |].
  destruct (p x) eqn:Hp.
  - intros [= <-]. split; [lia |]. exists x. rewrite Nat.sub_diag. auto.
  - intros Hrest. destruct (IH _ _ Hrest) as (Hle & y & Hy & Hpy).
    split; [lia |]. exists y. split; [| exact Hpy].
    replace (j - i) with (S (j - S i)) by lia. exact Hy.
Qed.

Lemma first_index_none {A : Type} (p : A -> bool) (l : list A) :
  forall i, first_index p i l = None <-> forall x, In x l -> p x = false.
Proof.
  induction l as [| x rest IH]; intros i; cbn [first_index].
  - split; [intros _ y [] | reflexivity].
  - destruct (p x) eqn:Hp.
    + split; [discriminate |]. intros Hall. rewrite (Hall x) in Hp by (left; reflexivity).
      discriminate.
    + rewrite IH. split.
      * intros Hall y [<- | Hy]; [exact Hp | apply Hall, Hy].
      * intros Hall y Hy. apply Hall. right. exact Hy.
Qed.

(** The loop over the devices, from any index and with any device already
    kept. *)
Lemma scan_devices_choice (wanted : json) (ds : list device_info) :
  forall (i : nat) (kept : option nat),
    fst (scan_devices E wanted i ds kept)
    = match first_index (fun d => has_input d && requested E wanted d) i ds with
      | Some j => Some j
      | None =>
          match kept with
          | Some k => Some k
          | None => first_index has_input i ds
          end
      end.
Proof.
  induction ds as [| d rest IH]; intros i kept; cbn [scan_devices first_index].
  - destruct kept; reflexivity.
  - destruct (has_input d) eqn:Hin; cbn [andb].
    + destruct (requested E wanted d); [reflexivity |].
      specialize (IH (S i) (match kept with None => Some i | Some _ => kept end)).
      destruct (scan_devices E wanted (S i) rest _) as [chosen logged].
      cbn [fst] in *. rewrite IH.
      destruct (first_index _ (S i) rest); [reflexivity |].
      destruct kept; reflexivity.
    + apply IH.
Qed.

(** X23: The device the microphone is opened on: the first device that has input
    channels and whose id, as a string, is the id asked for; when there is
    none, or no id was asked for, the first device that has input channels.
    The index chosen is always that of a device with input channels, and none
    is chosen only when no device has any. *)
Theorem select_input_device_choice (wanted : json) (ds : list device_info) :
  select_input_device E wanted ds
  = match first_index (fun d => has_input d && requested E wanted d) 0 ds with
    | Some i => Some i
    | None => first_index has_input 0 ds
    end
  /\ (forall i, select_input_device E wanted ds = Some i ->
                exists d, ds !! i = Some d /\ has_input d = true)
  /\ (select_input_device E wanted ds = None <->
      forall d, In d ds -> has_input d = false).
Proof.
  assert (Hchoice : select_input_device E wanted ds
                    = match first_index (fun d => has_input d && requested E wanted d)
                              0 ds with
                      | Some i => Some i
                      | None => first_index has_input 0 ds
                      end)
    by apply scan_devices_choice.
  split; [exact Hchoice |]. rewrite Hchoice. split.
  - intros i.
    destruct (first_index (fun d => has_input d && requested E wanted d) 0 ds)
      as [j |] eqn:Hreq.
    + intros [= <-]. destruct (first_index_found _ _ _ _ Hreq) as (_ & d & Hd & Hp).
      rewrite Nat.sub_0_r in Hd. apply andb_true_iff in Hp. exists d. tauto.
    + intros Hfirst. destruct (first_index_found _ _ _ _ Hfirst) as (_ & d & Hd & Hp).
      rewrite Nat.sub_0_r in Hd. exists d. tauto.
  - destruct (first_index (fun d => has_input d && requested E wanted d) 0 ds)
      as [j |] eqn:Hreq.
    + split; [discriminate |]. intros Hall.
      destruct (first_index_found _ _ _ _ Hreq) as (_ & d & Hd & Hp).
      apply andb_true_iff in Hp. apply list_elem_of_lookup_2, list_elem_of_In in Hd.
      rewrite (Hall d Hd) in Hp. destruct Hp; discriminate.
    + apply first_index_none.
Qed.

Lemma scan_devices_fst (wanted : json) (ds : list device_info) :
  fst (scan_devices E wanted 0 ds None) = select_input_device E wanted ds.
Proof. reflexivity. Qed.

(** Where no device has input channels the loop logs nothing. *)
Lemma scan_devices_without_input (wanted : json) (ds : list device_info) :
  (forall d, In d ds -> has_input d = false) ->
  forall i kept, scan_devices E wanted i ds kept = (kept, []).
Proof.
  induction ds as [| d rest IH]; intros Hall i kept; cbn [scan_devices]; [reflexivity |].
  rewrite (Hall d) by (left; reflexivity).
  apply IH. intros d' Hd'. apply Hall. right. exact Hd'.
Qed.

(** X24: With the audio system there, a device chosen and the stream opening and
    starting, [start_microphone] raises nothing: it creates the audio system,
    opens the stream on the device chosen, starts it, and logs the success;
    both stay with the agent for the clean-up. *)
Theorem start_microphone_opens_chosen_device (H : Hardware) (m : mic) (i : nat) :
  pyaudio_exn H = None ->
  host_exn H = None ->
  select_input_device E (input_device_id m) (devices H) = Some i ->
  open_exn H = None ->
  start_exn H = None ->
  exists m' logged,
    start_microphone E H m = (None, m')
    /\ done m' = done m ++ [Created; Opened i; Started]
    /\ notes m' = notes m ++ logged ++ [StartedSuccessfully]
    /\ audio m' = true
    /\ stream m' = true.
Proof.
  intros Hpy Hhost Hsel Hopen Hstart.
  unfold start_microphone, try_start. rewrite Hpy, Hhost.
  cbn [input_device_id with_audio did].
  pose proof (scan_devices_fst (input_device_id m) (devices H)) as Hfst.
  destruct (scan_devices E (input_device_id m) 0 (devices H) None) as [chosen logged].
  cbn [fst] in Hfst. rewrite Hsel in Hfst. subst chosen.
  rewrite Hopen, Hstart. eexists. exists logged. split; [reflexivity |]. cbn.
  split_and!; try reflexivity; list_normal; reflexivity.
Qed.

(** X25: When no device has input channels, [start_microphone] raises "No input
    device found": no stream is opened, and the audio system it created is
    terminated before the error goes on. *)
Theorem no_input_device_found (H : Hardware) (m : mic) :
  pyaudio_exn H = None ->
  host_exn H = None ->
  (forall d, In d (devices H) -> has_input d = false) ->
  terminate_exn H = None ->
  exists m',
    start_microphone E H m = (Some (Raised "Exception" "No input device found"), m')
    /\ done m' = done m ++ [Created; Terminated]
    /\ notes m'
       = notes m ++ [ErrorStarting (Raised "Exception" "No input device found")]
    /\ stream m' = stream m.
Proof.
  intros Hpy Hhost Hnone Hterm.
  unfold start_microphone, try_start. rewrite Hpy, Hhost.
  rewrite (scan_devices_without_input _ _ Hnone). cbn. rewrite Hterm.
  eexists. split; [reflexivity |]. cbn.
  split_and!; try reflexivity; list_normal; rewrite ?app_nil_r; reflexivity.
Qed.

(** X26: Whenever [start_microphone] raises, the error was logged, and the audio
    system, if the agent holds one, was terminated as the last thing done; the
    error raised is the one logged, unless terminating raised in its turn. *)
Theorem start_microphone_failure_releases_audio (H : Hardware) (m m' : mic) (e : exn) :
  start_microphone E H m = (Some e, m') ->
  exists e0,
    last (notes m') = Some (ErrorStarting e0)
    /\ e = (if audio m' then default e0 (terminate_exn H) else e0)
    /\ (audio m' = true -> last (done m') = Some Terminated)
    /\ (audio m' = false -> pyaudio_exn H = Some e /\ done m' = done m ++ [Created]).
Proof.
  unfold start_microphone.
  destruct (try_start E H m) as [[e0 |] m0] eqn:Htry; [| discriminate].
  assert (Hfailed : audio m0 = false -> pyaudio_exn H = Some e0 /\ done m0 = done m ++ [Created]).
  { unfold try_start in Htry.
    destruct (pyaudio_exn H) as [e1 |].
    - injection Htry as <- <-. auto.
    - destruct (host_exn H); [injection Htry as <- <-; discriminate |].
      destruct (scan_devices E _ 0 (devices H) None) as [[j |] logged].
      + destruct (open_exn H); [injection Htry as <- <-; discriminate |].
        destruct (start_exn H); [injection Htry as <- <-; discriminate | discriminate].
      + injection Htry as <- <-. discriminate. }
  cbn [audio noted].
  destruct (audio m0) eqn:Haudio.
  - destruct (terminate_exn H) as [e' |]; intros [= <- <-]; exists e0; cbn;
      rewrite Haudio, !last_snoc; split_and!; try reflexivity; discriminate.
  - intros [= <- <-]. exists e0. cbn. rewrite Haudio, last_snoc.
    split_and!; try reflexivity; [discriminate | exact Hfailed].
Qed.

(** [cleanup] raises nothing and releases in order: the stream is stopped and
    then closed, the closing being skipped when the stopping raises, and the
    audio system is terminated whatever the stream did.  It forgets neither,
    so a second [cleanup] makes the same calls again. *)
Theorem cleanup_releases_in_order (H : Hardware) (m : mic) :
  done (cleanup H m)
  = done m
    ++ (if stream m
        then Stopped :: match stop_exn H with Some _ => [] | None => [Closed] end
        else [])
    ++ (if audio m then [Terminated] else [])
  /\ stream (cleanup H m) = stream m
  /\ audio (cleanup H m) = audio m.
Proof.
  unfold cleanup.
  destruct (stream m) eqn:Hstream, (stop_exn H), (close_exn H), (audio m) eqn:Haudio;
    cbn; rewrite ?Haudio; cbn; destruct (terminate_exn H); cbn;
    rewrite ?app_nil_r, ?Hstream, ?Haudio; split_and!; try reflexivity;
    list_normal; reflexivity.
Qed.

(** X27: [run] calls [cleanup] after a failed [start_microphone] too: the audio
    system that [start_microphone] has just terminated is terminated a second
    time, and a stream that was opened but did not start is stopped only
    then. *)
Theorem failed_start_terminates_twice (H : Hardware) (m m1 : mic) (e : exn) :
  pyaudio_exn H = None ->
  start_microphone E H m = (Some e, m1) ->
  last (done m1) = Some Terminated
  /\ exists between,
       done (cleanup H m1) = done m1 ++ between ++ [Terminated]
       /\ between = (if stream m1
                     then Stopped :: match stop_exn H with Some _ => [] | None => [Closed] end
                     else []).
Proof.
  intros Hpy Hstart.
  assert (Haudio : audio m1 = true).
  { unfold start_microphone, try_start in Hstart. rewrite Hpy in Hstart.
    destruct (host_exn H).
    - cbn in Hstart. destruct (terminate_exn H); injection Hstart as <- <-; reflexivity.
    - destruct (scan_devices E _ 0 (devices H) None) as [[j |] logged].
      + destruct (open_exn H).
        * cbn in Hstart. destruct (terminate_exn H); injection Hstart as <- <-; reflexivity.
        * destruct (start_exn H); [| discriminate].
          cbn in Hstart. destruct (terminate_exn H); injection Hstart as <- <-; reflexivity.
      + cbn in Hstart. destruct (terminate_exn H); injection Hstart as <- <-; reflexivity. }
  split.
  - unfold start_microphone in Hstart.
    destruct (try_start E H m) as [[e0 |] m0]; [| discriminate].
    destruct (audio (noted (ErrorStarting e0) m0)) eqn:Ha.
    + destruct (terminate_exn H); injection Hstart as <- <-; cbn; apply last_snoc.
    + injection Hstart as <- <-. congruence.
  - eexists. split; [| reflexivity].
    unfold cleanup.
    destruct (stream m1), (stop_exn H), (close_exn H);
      cbn; rewrite ?Haudio; cbn; destruct (terminate_exn H); cbn;
      rewrite ?app_nil_r; list_normal; reflexivity.
Qed.

End Microphone_facts.

(** ** The handlers of the start and stop events *)

Section Server_facts.
Import Server.

(** X28: A start event while an agent exists changes nothing: no second agent, no
    second background task, and the devices it names are not taken over.  So
    two start events in a row do what the first alone does; and the first, on
    a server without an agent, creates an agent that is not running yet, with
    the devices of the event when it names any, and starts one background
    task. *)
Theorem start_voice_agent_once (first second : option (list (string * json)))
    (s : server) :
  handle_start_voice_agent second (handle_start_voice_agent first s)
  = handle_start_voice_agent first s
  /\ (forall a, voice_agent s = Some a -> handle_start_voice_agent first s = s)
  /\ (voice_agent s = None ->
      exists a,
        voice_agent (handle_start_voice_agent first s) = Some a
        /\ is_running a = false
        /\ loop a = None
        /\ input_device_id a
           = default JNull (data ← first; assoc "inputDeviceId" data)
        /\ output_device_id a
           = default JNull (data ← first; assoc "outputDeviceId" data)
        /\ background_tasks (handle_start_voice_agent first s)
           = S (background_tasks s)).
Proof.
  split_and!.
  - unfold handle_start_voice_agent at 2 3.
    destruct (voice_agent s) eqn:Hagent.
    + unfold handle_start_voice_agent. rewrite Hagent. reflexivity.
    + reflexivity.
  - intros a Hagent. unfold handle_start_voice_agent. rewrite Hagent. reflexivity.
  - intros Hnone. unfold handle_start_voice_agent. rewrite Hnone.
    eexists. split; [reflexivity |].
    destruct first as [[| field fields] |]; cbn; split_and!; reflexivity.
Qed.

(** X29: A stop event with an agent: the agent is marked not running and let go
    of, whether or not cancelling its tasks raises; the tasks are cancelled
    only when the agent has an event loop that is not closed, and an error of
    the cancelling is logged, not raised. *)
Theorem stop_voice_agent_releases (cancel_exn : option exn) (a : agent) (s : server) :
  voice_agent s = Some a ->
  let s' := handle_stop_voice_agent cancel_exn s in
  voice_agent s' = None
  /\ released s'
     = released s ++ [{| input_device_id := input_device_id a;
                         output_device_id := output_device_id a;
                         is_running := false;
                         loop := loop a |}]
  /\ cancellations s'
     = (if loop_usable (loop a) && bool_decide (cancel_exn = None)
        then S (cancellations s) else cancellations s)
  /\ errors s'
     = errors s ++ (if loop_usable (loop a) then option_list cancel_exn else [])
  /\ background_tasks s' = background_tasks s.
Proof.
  intros Hagent s'. unfold s', handle_stop_voice_agent. rewrite Hagent.
  destruct (loop_usable (loop a)), cancel_exn as [e |]; cbn;
    rewrite ?app_nil_r; split_and!; reflexivity.
Qed.

(** X30: A stop event without an agent does nothing, so a second stop event in a
    row does nothing; and a start event after a stop event always creates a
    new agent, with the devices of this event and a background task of its
    own, whatever the agent that was stopped goes on to do. *)
Theorem stop_then_start_is_fresh (cancel_exn again : option exn)
    (data : option (list (string * json))) (s : server) :
  handle_stop_voice_agent again (handle_stop_voice_agent cancel_exn s)
  = handle_stop_voice_agent cancel_exn s
  /\ exists a,
       voice_agent (handle_start_voice_agent data (handle_stop_voice_agent cancel_exn s))
       = Some a
       /\ is_running a = false
       /\ input_device_id a = default JNull (d ← data; assoc "inputDeviceId" d)
       /\ output_device_id a = default JNull (d ← data; assoc "outputDeviceId" d)
       /\ background_tasks
            (handle_start_voice_agent data (handle_stop_voice_agent cancel_exn s))
          = S (background_tasks s).
Proof.
  assert (Hnone : voice_agent (handle_stop_voice_agent cancel_exn s) = None).
  { unfold handle_stop_voice_agent.
    destruct (voice_agent s) as [a |] eqn:Hagent; [| exact Hagent].
    destruct (loop_usable (loop a)), cancel_exn; reflexivity. }
  assert (Htasks : background_tasks (handle_stop_voice_agent cancel_exn s)
                   = background_tasks s).
  { unfold handle_stop_voice_agent. destruct (voice_agent s) as [a |]; [| reflexivity ].
    destruct (loop_usable (loop a)), cancel_exn; reflexivity. }
  split.
  - unfold handle_stop_voice_agent at 1. rewrite Hnone. reflexivity.
  - unfold handle_start_voice_agent. rewrite Hnone, Htasks.
    eexists. split; [reflexivity |].
    destruct data as [[| field fields] |]; cbn; split_and!; reflexivity.
Qed.

End Server_facts.

(** ** The properties on concrete sessions *)

Lemma conversation_text_bookkeeping_witness :
  exists w',
    handle_message Scenes.env (Text (Demo.wire Scenes.user_text))
      (Demo.listening [] [] [] true) = (Ok Next, w')
    /\ trace w' = [Emit "conversation_update" Scenes.user_text]
    /\ last_user_message w' = Some 1000%Z
    /\ in_function_chain w' = false.
Proof.
  destruct (conversation_text_bookkeeping Scenes.env (Demo.wire Scenes.user_text)
              (Scenes.fields_of Scenes.user_text) (Demo.listening [] [] [] true))
    as (w' & Hrun & Htrace & Hlast & Hchain & _).
  - vm_compute. reflexivity.
  - reflexivity.
  - exists w'. split_and!; assumption.
Defined.

Lemma utterance_then_function_calling_witness :
  exists w',
    receiver_loop Scenes.env 3
      (Demo.listening [Text (Demo.wire Scenes.user_text);
                       Text (Demo.wire Demo.function_calling)] [] [] true)
    = receiver_loop Scenes.env 1 w'
    /\ logs w' = [LogServer (Demo.wire Scenes.user_text);
                  LogServer (Demo.wire Demo.function_calling);
                  LogInitialLatency 1]
    /\ in_function_chain w' = true.
Proof.
  destruct (utterance_then_function_calling Scenes.env
              (Demo.wire Scenes.user_text) (Demo.wire Demo.function_calling)
              (Scenes.fields_of Scenes.user_text) (Scenes.fields_of Demo.function_calling)
              [] 1
              (Demo.listening [Text (Demo.wire Scenes.user_text);
                               Text (Demo.wire Demo.function_calling)] [] [] true))
    as (w' & Hrun & Hlogs & Hchain & _).
  - vm_compute. reflexivity.
  - reflexivity.
  - reflexivity.
  - vm_compute. reflexivity.
  - reflexivity.
  - reflexivity.
  - discriminate.
  - exists w'. split_and!; assumption.
Defined.

Lemma close_connection_ends_receiver_witness :
  exists w',
    receiver Scenes.env
      (Demo.start [Text (Demo.wire Scenes.close_connection); Binary Demo.frame1])
    = (Ok tt, w')
    /\ trace w' = [WsRecv (Text (Demo.wire Scenes.close_connection)); WsClose None]
    /\ inbound w' = [Binary Demo.frame1]
    /\ speaker w' = Speaker_init.
Proof.
  refine (proj2 (close_connection_ends_receiver Scenes.env
                   (Demo.wire Scenes.close_connection)
                   (Scenes.fields_of Scenes.close_connection) [Binary Demo.frame1]
                   (Demo.start [Text (Demo.wire Scenes.close_connection);
                                Binary Demo.frame1]) _ _ _) _).
  - vm_compute. reflexivity.
  - reflexivity.
  - reflexivity.
  - reflexivity.
Defined.

Lemma non_object_json_ends_receiver_witness :
  handle_message Scenes.env (Text "[]") (Demo.listening [] [] [] false)
  = (Raise (NoAttribute (JArr []) "get"), rejected "[]" (Demo.listening [] [] [] false)).
Proof.
  refine (proj1 (non_object_json_ends_receiver Scenes.env "[]" (JArr [])
                   (Demo.listening [] [] [] false) _ _)).
  - vm_compute. reflexivity.
  - discriminate.
Defined.

Lemma ordinary_call_outcome_witness :
  exists w',
    handle_message Scenes.env (Text (Demo.wire Scenes.order_request))
      (Demo.listening [] [] [] true) = (Ok Next, w')
    /\ trace w'
       = [WsSend (FunctionCallResponse (JStr "3")
                    (Demo.wire (JObj [("status", JStr "shipped")])))]
    /\ last_function_response_time w' = Some 1003%Z.
Proof.
  destruct (ordinary_call_outcome Scenes.env (Demo.wire Scenes.order_request)
              (Scenes.fields_of Scenes.order_request) "get_order" Scenes.get_order
              (Demo.listening [] [] [] true))
    as (w' & Hrun & Htrace & Hlast & _).
  - vm_compute. reflexivity.
  - reflexivity.
  - reflexivity.
  - discriminate.
  - discriminate.
  - vm_compute. reflexivity.
  - reflexivity.
  - reflexivity.
  - exists w'. split_and!; assumption.
Defined.

Lemma chained_call_latency_witness :
  exists w' earlier,
    receiver_loop Scenes.env 3
      (Demo.listening [Text (Demo.wire Scenes.order_request);
                       Text (Demo.wire Demo.function_calling)] [] [] true)
    = receiver_loop Scenes.env 1 w'
    /\ logs w' = earlier ++ [LogChainLatency 1].
Proof.
  destruct (chained_call_latency Scenes.env
              (Demo.wire Scenes.order_request) (Demo.wire Demo.function_calling)
              (Scenes.fields_of Scenes.order_request)
              (Scenes.fields_of Demo.function_calling)
              "get_order" Scenes.get_order (JObj [("status", JStr "shipped")]) [] 1
              (Demo.listening [Text (Demo.wire Scenes.order_request);
                               Text (Demo.wire Demo.function_calling)] [] [] true))
    as (w' & earlier & Hrun & Hlogs & _).
  - vm_compute. reflexivity.
  - reflexivity.
  - reflexivity.
  - discriminate.
  - discriminate.
  - vm_compute. reflexivity.
  - reflexivity.
  - vm_compute. reflexivity.
  - reflexivity.
  - reflexivity.
  - reflexivity.
  - reflexivity.
  - reflexivity.
  - discriminate.
  - exists w', earlier. split; assumption.
Defined.

Lemma agent_filler_answered_then_injected_witness :
  exists w',
    handle_message Scenes.env (Text (Demo.wire Scenes.filler_request))
      (Demo.listening [] [] [] false) = (Ok Next, w')
    /\ trace w'
       = [WsSend (FunctionCallResponse (JStr "4")
                    (Demo.wire (JObj [("status", JStr "queued")])));
          WsSend Scenes.one_moment]
    /\ last_function_response_time w' = Some 1002%Z.
Proof.
  destruct (agent_filler_answered_then_injected Scenes.env
              (Demo.wire Scenes.filler_request) (Scenes.fields_of Scenes.filler_request)
              [("function_response", JObj [("status", JStr "queued")]);
               ("inject_message", Scenes.one_moment)]
              Scenes.agent_filler Scenes.one_moment (JObj [("status", JStr "queued")])
              (Demo.listening [] [] [] false))
    as (w' & Hrun & Htrace & Hlast & _).
  - vm_compute. reflexivity.
  - reflexivity.
  - reflexivity.
  - vm_compute. reflexivity.
  - reflexivity.
  - reflexivity.
  - reflexivity.
  - reflexivity.
  - reflexivity.
  - reflexivity.
  - exists w'. split_and!; assumption.
Defined.

Lemma missing_key_answered_with_error_witness :
  exists w',
    handle_message (Scenes.env_of Scenes.half_handlers (fun _ => true) None None)
      (Text (Demo.wire Scenes.filler_request)) (Demo.listening [] [] [] false)
    = (Ok Next, w')
    /\ trace w'
       = [WsSend (FunctionCallResponse (JStr "4")
                    (Demo.wire (JObj [("error", JStr "'function_response'")])))]
    /\ ws_closed w' = false.
Proof.
  destruct (missing_key_answered_with_error
              (Scenes.env_of Scenes.half_handlers (fun _ => true) None None)
              (Demo.wire Scenes.filler_request) (Scenes.fields_of Scenes.filler_request)
              [("inject_message", Scenes.one_moment)]
              "agent_filler" Scenes.half_filler (Demo.listening [] [] [] false))
    as (w' & key & Hkey & Hmissing & Hrun & Htrace & _ & _ & Hopen & _).
  - vm_compute. reflexivity.
  - reflexivity.
  - reflexivity.
  - vm_compute. reflexivity.
  - reflexivity.
  - exists "function_response". split; [right; left; reflexivity | reflexivity].
  - reflexivity.
  - reflexivity.
  - exists w'. split_and!; [exact Hrun | | exact Hopen].
    destruct Hkey as [<- | [<- | []]]; [discriminate Hmissing | exact Htrace].
Defined.

Lemma call_without_name_answered_witness :
  exists w',
    handle_message Scenes.env (Text (Demo.wire Scenes.nameless_request))
      (Demo.listening [] [] [] false) = (Ok Next, w')
    /\ trace w'
       = [WsSend (FunctionCallResponse (JStr "5")
                    (Demo.wire (JObj [("error", JStr "Function None not found")])))].
Proof.
  destruct (call_without_name_answered Scenes.env (Demo.wire Scenes.nameless_request)
              (Scenes.fields_of Scenes.nameless_request) (Demo.listening [] [] [] false))
    as (w' & Hrun & Htrace & _).
  - vm_compute. reflexivity.
  - reflexivity.
  - intros name. discriminate.
  - reflexivity.
  - reflexivity.
  - exists w'. split; assumption.
Defined.

Lemma refused_error_response_ends_receiver_witness :
  exists w' earlier,
    receiver (Scenes.env_of Scenes.handlers (fun _ => false) None None)
      (Demo.start [Text (Demo.wire Demo.unknown_request); Binary Demo.frame1])
    = (Ok tt, w')
    /\ inbound w' = [Binary Demo.frame1]
    /\ trace w' = [WsRecv (Text (Demo.wire Demo.unknown_request))]
    /\ logs w' = earlier ++ [LogError "Error in receiver" ConnectionClosed].
Proof.
  destruct (refused_error_response_ends_receiver
              (Scenes.env_of Scenes.handlers (fun _ => false) None None)
              (Demo.wire Demo.unknown_request) (Scenes.fields_of Demo.unknown_request)
              "get_weather"
              (Demo.start [Text (Demo.wire Demo.unknown_request); Binary Demo.frame1]))
    as (_ & _ & Hreceiver).
  - vm_compute. reflexivity.
  - reflexivity.
  - reflexivity.
  - vm_compute. reflexivity.
  - reflexivity.
  - destruct (Hreceiver [Binary Demo.frame1] eq_refl eq_refl)
      as (w' & earlier & Hrun & Hin & Htrace & Hlogs & _).
    exists w', earlier. split_and!; assumption.
Defined.

Lemma peer_closes_during_farewell_witness :
  exists w',
    handle_message Demo.env (Text (Demo.wire Demo.end_call_request))
      (Demo.listening [Binary Demo.frame1;
                       Text (Demo.wire Demo.agent_started_speaking);
                       Binary Demo.frame2] [] [] false)
    = (Raise ConnectionClosed, w')
    /\ trace w'
       = [WsSend (FunctionCallResponse (JStr "1")
                    (Demo.wire (JObj [("status", JStr "closing");
                                      ("message",
                                       JStr "Thank you for calling! Have a great day!")])));
          WsSend Demo.farewell;
          WsRecv (Binary Demo.frame1); Play Demo.frame1;
          WsRecv (Text (Demo.wire Demo.agent_started_speaking));
          WsRecv (Binary Demo.frame2); Play Demo.frame2]
    /\ is_running w' = true.
Proof.
  destruct (peer_closes_during_farewell Demo.env (Demo.wire Demo.end_call_request)
              (Scenes.fields_of Demo.end_call_request) Demo.end_call
              [("function_response",
                JObj [("status", JStr "closing");
                      ("message", JStr "Thank you for calling! Have a great day!")]);
               ("inject_message", Demo.farewell);
               ("close_message", JObj [("type", JStr "close")])]
              (Scenes.fields_of Demo.farewell)
              (JObj [("status", JStr "closing");
                     ("message", JStr "Thank you for calling! Have a great day!")])
              (JObj [("type", JStr "close")])
              (JStr "Thank you for calling! Have a great day!")
              []
              (Demo.listening [Binary Demo.frame1;
                               Text (Demo.wire Demo.agent_started_speaking);
                               Binary Demo.frame2] [] [] false))
    as (w' & Hrun & Htrace & _ & _ & Hrunning).
  - vm_compute. reflexivity.
  - reflexivity.
  - reflexivity.
  - vm_compute. reflexivity.
  - reflexivity.
  - reflexivity.
  - reflexivity.
  - reflexivity.
  - reflexivity.
  - right. exists [Binary Demo.frame1], (Demo.wire Demo.agent_started_speaking),
      (Scenes.fields_of Demo.agent_started_speaking), [Binary Demo.frame2].
    split_and!; [reflexivity | repeat constructor | vm_compute; reflexivity
                | reflexivity | repeat constructor].
  - reflexivity.
  - reflexivity.
  - reflexivity.
  - reflexivity.
  - exists w'. split_and!; assumption.
Defined.

Lemma setup_handshake_witness :
  exists w',
    setup Scenes.env (Demo.start []) = (Ok true, w')
    /\ trace w'
       = [WsConnect "wss://agent.deepgram.com/agent" "Token key";
          WsSend (SETTINGS Scenes.env)].
Proof.
  destruct (setup_handshake Scenes.env "key" (Demo.start []))
    as (w' & Hrun & Htrace & _).
  - reflexivity.
  - reflexivity.
  - reflexivity.
  - reflexivity.
  - exists w'. split; assumption.
Defined.



Lemma agent_audio_played_in_order_witness :
  exists w' waiting,
    receiver_loop Scenes.env 3
      (Demo.listening [Binary Demo.frame2; Binary Demo.frame3] [Demo.frame1] [1; 0] false)
    = receiver_loop Scenes.env 1 w'
    /\ sink w' ++ waiting = [Demo.frame1; Demo.frame2; Demo.frame3]
    /\ sink (Nat.iter (length waiting) _play_iter w')
       = [Demo.frame1; Demo.frame2; Demo.frame3].
Proof.
  destruct (agent_audio_played_in_order Scenes.env [Demo.frame2; Demo.frame3] [] 1
              (Demo.listening [Binary Demo.frame2; Binary Demo.frame3] [Demo.frame1]
                 [1; 0] false)
              [Demo.frame1])
    as (w' & waiting & Hrun & _ & _ & Hkept & _ & Hall).
  - reflexivity.
  - reflexivity.
  - exists w', waiting. split_and!; [exact Hrun | exact Hkept | exact (Hall eq_refl)].
Defined.

Lemma no_audio_output_no_reading_witness :
  exists w',
    receiver (Scenes.env_of Scenes.handlers (fun _ => true) (Some Scenes.no_device) None)
      (Demo.start [Binary Demo.frame1])
    = (Ok tt, w')
    /\ inbound w' = [Binary Demo.frame1]
    /\ trace w' = []
    /\ logs w' = [LogError "Error in receiver" Scenes.no_device].
Proof.
  destruct (no_audio_output_no_reading
              (Scenes.env_of Scenes.handlers (fun _ => true) (Some Scenes.no_device) None)
              Scenes.no_device (Demo.start [Binary Demo.frame1]))
    as (w' & Hrun & Hin & Htrace & Hlogs & _).
  - reflexivity.
  - exists w'. split_and!; assumption.
Defined.

Lemma capture_keeps_order_witness :
  exists w',
    capture [(Demo.frame2, HandoffTimeout); ([], HandoffFailed Scenes.no_device);
             (Demo.frame3, HandoffDone)]
      (Scenes.capturing [Demo.frame1] [] true)
    = (Ok tt, w')
    /\ mic_audio_queue (loop_turn w') = [Demo.frame1; Demo.frame2; Demo.frame3].
Proof.
  destruct (capture_keeps_order
              [(Demo.frame2, HandoffTimeout); ([], HandoffFailed Scenes.no_device);
               (Demo.frame3, HandoffDone)]
              (Scenes.capturing [Demo.frame1] [] true))
    as (w' & Hrun & Hqueue & _).
  - reflexivity.
  - reflexivity.
  - exists w'. split; assumption.
Defined.

Lemma capture_when_inactive_drops_frames_witness :
  capture [(Demo.frame2, HandoffDone); (Demo.frame3, HandoffDone)]
    (Scenes.capturing [Demo.frame1] [] false)
  = (Ok tt, Scenes.capturing [Demo.frame1] [] false).
Proof.
  apply (capture_when_inactive_drops_frames
           [(Demo.frame2, HandoffDone); (Demo.frame3, HandoffDone)]
           (Scenes.capturing [Demo.frame1] [] false)).
  reflexivity.
Defined.

Lemma sender_sends_in_order_witness :
  exists w',
    sender Scenes.env (Scenes.capturing [Demo.frame1; []; Demo.frame2] [] true)
    = (SenderWaiting, [Demo.frame1; Demo.frame2], w')
    /\ mic_audio_queue w' = []
    /\ n_send w' = 2.
Proof.
  destruct (sender_sends_in_order Scenes.env
              (Scenes.capturing [Demo.frame1; []; Demo.frame2] [] true))
    as (w' & Hrun & Hqueue & Hsent & _).
  - reflexivity.
  - reflexivity.
  - intros k _. reflexivity.
  - exists w'. split_and!; assumption.
Defined.

Lemma sender_stops_at_refused_send_witness :
  exists w',
    sender (Scenes.env_of Scenes.handlers (fun n => n <? 1) None None)
      (Scenes.capturing [Demo.frame1; Demo.frame2; Demo.frame3] [] true)
    = (SenderReturned, [Demo.frame1], w')
    /\ mic_audio_queue w' = [Demo.frame3]
    /\ logs w' = [LogError "Error in sender" ConnectionClosed].
Proof.
  apply (sender_stops_at_refused_send
           (Scenes.env_of Scenes.handlers (fun n => n <? 1) None None)
           [Demo.frame1] [Demo.frame3] Byte.x02 [Byte.x00]
           (Scenes.capturing [Demo.frame1; Demo.frame2; Demo.frame3] [] true)).
  - reflexivity.
  - reflexivity.
  - reflexivity.
  - intros k Hk. cbn in Hk. destruct k; [reflexivity | lia].
  - reflexivity.
Defined.

Lemma captured_frames_sent_in_order_witness :
  exists w1 w2,
    capture [(Demo.frame2, HandoffTimeout); (Demo.frame3, HandoffDone)]
      (Scenes.capturing [Demo.frame1] [] true)
    = (Ok tt, w1)
    /\ sender Scenes.env (loop_turn w1)
       = (SenderWaiting, [Demo.frame1; Demo.frame2; Demo.frame3], w2).
Proof.
  destruct (captured_frames_sent_in_order Scenes.env
              [(Demo.frame2, HandoffTimeout); (Demo.frame3, HandoffDone)]
              (Scenes.capturing [Demo.frame1] [] true))
    as (w1 & w2 & Hcapture & Hsender & _).
  - reflexivity.
  - reflexivity.
  - reflexivity.
  - intros k. reflexivity.
  - exists w1, w2. split; assumption.
Defined.

Lemma start_microphone_opens_chosen_device_witness :
  exists m' logged,
    Microphone.start_microphone Scenes.env (Scenes.hardware Scenes.devices None)
      (Scenes.fresh_mic (JStr "usb"))
    = (None, m')
    /\ Microphone.done m'
       = [Microphone.Created; Microphone.Opened 2; Microphone.Started]
    /\ Microphone.notes m' = logged ++ [Microphone.StartedSuccessfully].
Proof.
  destruct (start_microphone_opens_chosen_device Scenes.env
              (Scenes.hardware Scenes.devices None) (Scenes.fresh_mic (JStr "usb")) 2)
    as (m' & logged & Hrun & Hdone & Hnotes & _).
  - reflexivity.
  - reflexivity.
  - vm_compute. reflexivity.
  - reflexivity.
  - reflexivity.
  - exists m', logged. split_and!; assumption.
Defined.

Lemma no_input_device_found_witness :
  exists m',
    Microphone.start_microphone Scenes.env
      (Scenes.hardware (take 1 Scenes.devices) None) (Scenes.fresh_mic JNull)
    = (Some (Raised "Exception" "No input device found"), m')
    /\ Microphone.done m' = [Microphone.Created; Microphone.Terminated].
Proof.
  destruct (no_input_device_found Scenes.env
              (Scenes.hardware (take 1 Scenes.devices) None) (Scenes.fresh_mic JNull))
    as (m' & Hrun & Hdone & _).
  - reflexivity.
  - reflexivity.
  - intros d [<- | []]. reflexivity.
  - reflexivity.
  - exists m'. split; assumption.
Defined.

Lemma start_microphone_failure_releases_audio_witness :
  let H := Scenes.hardware Scenes.devices (Some Scenes.no_device) in
  let m' := snd (Microphone.start_microphone Scenes.env H (Scenes.fresh_mic JNull)) in
  exists e0,
    last (Microphone.notes m') = Some (Microphone.ErrorStarting e0)
    /\ Scenes.no_device
       = (if Microphone.audio m'
          then default e0 (Microphone.terminate_exn H) else e0)
    /\ (Microphone.audio m' = true ->
        last (Microphone.done m') = Some Microphone.Terminated)
    /\ (Microphone.audio m' = false ->
        Microphone.pyaudio_exn H = Some Scenes.no_device
        /\ Microphone.done m' = Microphone.done (Scenes.fresh_mic JNull)
                                ++ [Microphone.Created]).
Proof.
  intros H m'.
  apply (start_microphone_failure_releases_audio Scenes.env H (Scenes.fresh_mic JNull)
           m' Scenes.no_device).
  vm_compute. reflexivity.
Defined.

Lemma failed_start_terminates_twice_witness :
  let H := Scenes.hardware Scenes.devices (Some Scenes.no_device) in
  let m1 := snd (Microphone.start_microphone Scenes.env H (Scenes.fresh_mic JNull)) in
  Microphone.done (Microphone.cleanup H m1)
  = [Microphone.Created; Microphone.Opened 1; Microphone.Started; Microphone.Terminated;
     Microphone.Stopped; Microphone.Closed; Microphone.Terminated].
Proof.
  intros H m1.
  destruct (failed_start_terminates_twice Scenes.env H (Scenes.fresh_mic JNull) m1
              Scenes.no_device)
    as (_ & between & Hdone & ->).
  - reflexivity.
  - vm_compute. reflexivity.
  - rewrite Hdone. vm_compute. reflexivity.
Defined.

Lemma stop_voice_agent_releases_witness :
  let s' := Server.handle_stop_voice_agent None Scenes.serving in
  Server.voice_agent s' = None
  /\ Server.released s'
     = [{| Server.input_device_id := JStr "usb"; Server.output_device_id := JNull;
           Server.is_running := false; Server.loop := Some false |}]
  /\ Server.cancellations s' = 1.
Proof.
  intros s'.
  destruct (stop_voice_agent_releases None
              {| Server.input_device_id := JStr "usb"; Server.output_device_id := JNull;
                 Server.is_running := true; Server.loop := Some false |}
              Scenes.serving)
    as (Hnone & Hreleased & Hcancelled & _).
  - reflexivity.
  - split_and!; assumption.
Defined.
